(** * Power+ API server: the refresh-and-cache pipeline of [api_server.py]

    A shallow embedding of the metric calculator, the column resolver, the
    cache store, the refresh orchestrator and the routes, followed by the
    properties the specification states about them.

    Numbers.  A Python float is a binary64 value: NaN, an infinity, a zero
    with its sign, or a finite number, held as the rational it is.  Every
    arithmetic operation returns the double nearest to its exact result,
    ties to even, an infinity past the largest double, as IEEE 754
    prescribes; [round] rounds the exact value of the double to tenths,
    ties to even, and returns the double nearest to that decimal.
    Python's [None] is the [None] of [option].

    Text.  A Python [str] is held as its UTF-8 bytes.  [str.lower] and
    [str.upper] are parameters [lower] and [upper] of the model; where a
    property needs more than that they are functions, it assumes what they
    do on ASCII text, which is [ascii_lower] and [ascii_upper]. *)

From Stdlib Require Import ZArith QArith Qround Qabs Qpower Lia Lqa.
From Stdlib Require Import List String Ascii Bool.
From Stdlib Require Floats.
Import ListNotations.

Open Scope Q_scope.

(** ** Python floats *)

(** A binary64 value.  [Fin q] is the finite double of value [q], [+0.0]
    when [q] is zero; [NegZero] is [-0.0]; [Inf true] is [-inf]. *)
Inductive pyfloat : Type :=
| NaN
| Inf (neg : bool)
| NegZero
| Fin (q : Q).

(** The value of a finite double. *)
Definition fval (x : pyfloat) : Q :=
  match x with
  | Fin q => q
  | _ => 0
  end.

Definition Qlt_bool (x y : Q) : bool := negb (Qle_bool y x).

(** The sign bit. *)
Definition is_neg (x : pyfloat) : bool :=
  match x with
  | NaN => false
  | Inf neg => neg
  | NegZero => true
  | Fin q => Qlt_bool q 0
  end.

Definition signed_zero (neg : bool) : pyfloat :=
  if neg then NegZero else Fin 0.

(** [pd.isna] on a scalar: true on [None] and on NaN. *)
Definition isna (x : option pyfloat) : bool :=
  match x with
  | None => true
  | Some NaN => true
  | Some _ => false
  end.

(** Python's [x == 0]: true on both zeros, false on [None] and on NaN. *)
Definition py_eq_zero (x : option pyfloat) : bool :=
  match x with
  | Some (Fin q) => Qeq_bool q 0
  | Some NegZero => true
  | _ => false
  end.

(** Python's [x >= t] on a float [x] and an integer [t], which compares the
    exact values: false on NaN. *)
Definition pf_ge (x : pyfloat) (t : Q) : bool :=
  match x with
  | NaN => false
  | Inf neg => negb neg
  | NegZero => Qle_bool t 0
  | Fin q => Qle_bool t q
  end.

(** Python's [x <= y] on floats: false when either is NaN. *)
Definition pf_le (x y : pyfloat) : bool :=
  match x, y with
  | NaN, _ | _, NaN => false
  | Inf true, _ => true
  | _, Inf false => true
  | Inf false, _ => false
  | _, Inf true => false
  | _, _ => Qle_bool (fval x) (fval y)
  end.

(** Python's [x > 0] on a float. *)
Definition pf_gt_zero (x : pyfloat) : bool :=
  match x with
  | Inf neg => negb neg
  | Fin q => Qlt_bool 0 q
  | _ => false
  end.

(** Round to the nearest integer, ties to the even one. *)
Definition round_half_even (x : Q) : Z :=
  let f := Qfloor x in
  match Qcompare (x - inject_Z f) (1 # 2) with
  | Lt => f
  | Gt => (f + 1)%Z
  | Eq => if Z.even f then f else (f + 1)%Z
  end.

(** The integer [l] with [2 ^ l <= q < 2 ^ (l + 1)], for [q] above zero. *)
Definition ilog2 (q : Q) : Z :=
  let k := (Z.log2 (Qnum q) - Z.log2 (Zpos (Qden q)))%Z in
  if Qle_bool (2 ^ k) q then k else (k - 1)%Z.

(** The exponent of the spacing of the doubles around [q]: 53 significant
    bits, and no spacing below [2 ^ -1074], that of the subnormals. *)
Definition ulp_exponent (q : Q) : Z := Z.max (ilog2 q - 52) (-1074).

(** The multiple of the spacing nearest to [q], ties to the even
    multiple. *)
Definition round_to_grid (q : Q) : Q :=
  let e := ulp_exponent q in
  inject_Z (round_half_even (q / 2 ^ e)) * 2 ^ e.

(** The magnitude of the double nearest to [q > 0]; [None] when it is past
    the largest double. *)
Definition round_magnitude (q : Q) : option Q :=
  let r := round_to_grid q in
  if Qle_bool (2 ^ 1024) r then None else Some (Qred r).

(** The double nearest to the exact value [v], ties to even.  An exact
    zero takes the sign [neg_zero]; a negative value that rounds to zero
    gives [-0.0]. *)
Definition nearest_double (neg_zero : bool) (v : Q) : pyfloat :=
  match Qcompare v 0 with
  | Eq => signed_zero neg_zero
  | Gt => match round_magnitude v with
          | None => Inf false
          | Some r => Fin r
          end
  | Lt => match round_magnitude (- v) with
          | None => Inf true
          | Some r => if Qeq_bool r 0 then NegZero else Fin (- r)
          end
  end.

(** The double a decimal literal of the source denotes. *)
Definition float_literal (q : Q) : pyfloat := nearest_double false q.

(** Python's [x / y] on floats.  A zero divisor is a [ZeroDivisionError]
    in Python; the program guards it, and the model gives what IEEE 754
    gives there. *)
Definition fdiv (x y : pyfloat) : pyfloat :=
  match x, y with
  | NaN, _ | _, NaN => NaN
  | Inf _, Inf _ => NaN
  | Inf n, _ => Inf (xorb n (is_neg y))
  | _, Inf n => signed_zero (xorb (is_neg x) n)
  | _, _ =>
      if Qeq_bool (fval y) 0
      then (if Qeq_bool (fval x) 0 then NaN
            else Inf (xorb (is_neg x) (is_neg y)))
      else nearest_double (xorb (is_neg x) (is_neg y)) (fval x / fval y)
  end.

(** Python's [x * y] on floats. *)
Definition fmul (x y : pyfloat) : pyfloat :=
  match x, y with
  | NaN, _ | _, NaN => NaN
  | Inf n, Inf m => Inf (xorb n m)
  | Inf n, _ => if Qeq_bool (fval y) 0 then NaN else Inf (xorb n (is_neg y))
  | _, Inf m => if Qeq_bool (fval x) 0 then NaN else Inf (xorb (is_neg x) m)
  | _, _ => nearest_double (xorb (is_neg x) (is_neg y)) (fval x * fval y)
  end.

(** The multiple of [10 ^ -ndigits] nearest to [q], ties to even. *)
Definition decimal_round (ndigits : nat) (q : Q) : Q :=
  inject_Z (round_half_even (q * inject_Z (10 ^ Z.of_nat ndigits)))
  / inject_Z (10 ^ Z.of_nat ndigits).

(** Python's [round(x, ndigits)] on a float, for [ndigits >= 0]: NaN, the
    infinities and the zeros round to themselves; a finite double goes to
    the multiple of [10 ^ -ndigits] nearest to its exact value, ties to
    even, and from this decimal to the nearest double, with the sign of
    [x] when that is a zero. *)
Definition py_round (x : pyfloat) (ndigits : nat) : pyfloat :=
  match x with
  | Fin q => nearest_double (is_neg x) (decimal_round ndigits q)
  | _ => x
  end.

(** ** Constants *)

Definition LEAGUE_AVG_BAT_SPEED : pyfloat := float_literal 72.
Definition LEAGUE_AVG_SWING_LENGTH : pyfloat := float_literal (73 # 10).
Definition LEAGUE_AVG_EFFICIENCY : pyfloat :=
  fdiv LEAGUE_AVG_BAT_SPEED LEAGUE_AVG_SWING_LENGTH.

(** ** Metric calculator *)

(** [calculate_power_plus].  The last branch of the [match] is not
    reachable: the guard has excluded [None]
    (see [calculate_power_plus_guard]). *)
Definition calculate_power_plus (bat_speed swing_length : option pyfloat)
  : option pyfloat :=
  if py_eq_zero swing_length || isna swing_length || isna bat_speed then None
  else
    match bat_speed, swing_length with
    | Some b, Some s =>
        let player_efficiency := fdiv b s in
        let power_plus :=
          fmul (fdiv player_efficiency LEAGUE_AVG_EFFICIENCY) (float_literal 100) in
        Some (py_round power_plus 1)
    | _, _ => None
    end.

(** [get_grade]. *)
Definition get_grade (power_plus : option pyfloat) : string :=
  if isna power_plus then "N/A"
  else
    match power_plus with
    | Some x =>
        if pf_ge x 110 then "Elite"
        else if pf_ge x 105 then "Above Average"
        else if pf_ge x 95 then "Average"
        else if pf_ge x 90 then "Below Average"
        else "Poor"
    | None => "N/A"
    end.

(** ** Text *)

Open Scope string_scope.

(** [A]..[Z] go to [a]..[z], every other byte stays. *)
Definition lower_ascii (c : ascii) : ascii :=
  let n := nat_of_ascii c in
  if (65 <=? n)%nat && (n <=? 90)%nat then ascii_of_nat (n + 32) else c.

(** [str.lower] on ASCII text. *)
Fixpoint ascii_lower (s : string) : string :=
  match s with
  | EmptyString => EmptyString
  | String c s' => String (lower_ascii c) (ascii_lower s')
  end.

(** [a]..[z] go to [A]..[Z], every other byte stays. *)
Definition upper_ascii (c : ascii) : ascii :=
  let n := nat_of_ascii c in
  if (97 <=? n)%nat && (n <=? 122)%nat then ascii_of_nat (n - 32) else c.

(** [str.upper] on ASCII text. *)
Fixpoint ascii_upper (s : string) : string :=
  match s with
  | EmptyString => EmptyString
  | String c s' => String (upper_ascii c) (ascii_upper s')
  end.

(** The text is ASCII: every byte is below 128. *)
Fixpoint is_ascii (s : string) : bool :=
  match s with
  | EmptyString => true
  | String c s' => (nat_of_ascii c <? 128)%nat && is_ascii s'
  end.

(** Python's [pat in s] on strings: [pat] occurs in [s] at some offset. *)
Fixpoint py_in (pat s : string) : bool :=
  String.prefix pat s ||
  match s with
  | EmptyString => false
  | String _ s' => py_in pat s'
  end.

(** ** Cells, records and tables *)

(** A cell of a table and a value of a JSON record: null, a number (an
    integer count such as [swings] is a number too) or text. *)
Inductive value : Type :=
| VNone
| VFloat (x : pyfloat)
| VStr (s : string).

Definition value_of (x : option pyfloat) : value :=
  match x with
  | None => VNone
  | Some f => VFloat f
  end.

(** [pd.isna] on a cell. *)
Definition value_isna (v : value) : bool :=
  match v with
  | VNone => true
  | VFloat NaN => true
  | _ => false
  end.

(** A Python [dict] with string keys, in insertion order. *)
Definition dict : Type := list (string * value).

Fixpoint dict_get (d : dict) (k : string) : option value :=
  match d with
  | [] => None
  | (k', v) :: d' => if String.eqb k' k then Some v else dict_get d' k
  end.

(** [d[k] = v]: an existing key keeps its place, a new key goes last. *)
Fixpoint dict_set (k : string) (v : value) (d : dict) : dict :=
  match d with
  | [] => [(k, v)]
  | (k', v') :: d' =>
      if String.eqb k' k then (k, v) :: d' else (k', v') :: dict_set k v d'
  end.

(** [d.get(k, default)]. *)
Definition dict_get_default (d : dict) (k : string) (default : value) : value :=
  match dict_get d k with
  | Some v => v
  | None => default
  end.

(** A [pandas.DataFrame]: the column labels in order and one record per row,
    keyed by the column labels. *)
Record DataFrame : Type := mkDataFrame {
  columns : list string;
  rows : list dict
}.

(** [pd.DataFrame()]. *)
Definition empty_frame : DataFrame := mkDataFrame [] [].

(** [df.empty]: some axis has length zero. *)
Definition df_empty (df : DataFrame) : bool :=
  match columns df, rows df with
  | [], _ => true
  | _, [] => true
  | _, _ => false
  end.

(** [row[c]] of a row that has the column. *)
Definition row_get (r : dict) (c : string) : value :=
  dict_get_default r c VNone.

(** [df[c]] read as a column. *)
Definition df_col (df : DataFrame) (c : string) : list value :=
  map (fun r => row_get r c) (rows df).

(** [df[c] = vals]: overwrites the column [c] or appends it. *)
Definition df_set (df : DataFrame) (c : string) (vals : list value) : DataFrame :=
  {| columns := if existsb (String.eqb c) (columns df)
                then columns df else columns df ++ [c];
     rows := map (fun rv => dict_set c (snd rv) (fst rv)) (combine (rows df) vals) |}.

(** [df.dropna(subset=cols)]: keeps the rows with no missing cell in [cols]. *)
Definition dropna (subset : list string) (df : DataFrame) : DataFrame :=
  {| columns := columns df;
     rows := filter (fun r => forallb (fun c => negb (value_isna (row_get r c))) subset)
                    (rows df) |}.

(** The result of a row function is a float, not [None]. *)
Definition is_float (x : option pyfloat) : bool :=
  match x with
  | Some _ => true
  | None => false
  end.

(** The cell that a column built from [results] holds for one of them.
    pandas makes a column of floats, in which [None] is held as NaN, as
    soon as one result is a float; a column of nothing but [None] keeps
    them. *)
Definition result_cell (results : list (option pyfloat)) (x : option pyfloat)
  : value :=
  if existsb is_float results
  then VFloat (match x with Some f => f | None => NaN end)
  else value_of x.

(** [df.apply(f, axis=1)] for an [f] that returns a float or [None]: [f]
    on every row, in order, and the results gathered in a column (on a
    table with no row the model takes the column with no cell). *)
Definition df_apply_rows (f : dict -> option pyfloat) (df : DataFrame)
  : list value :=
  let results := map f (rows df) in
  map (result_cell results) results.

(** [df.replace({pd.NA: None, float('nan'): None})]. *)
Definition replace_nan (df : DataFrame) : DataFrame :=
  {| columns := columns df;
     rows := map (map (fun kv => (fst kv, if value_isna (snd kv) then VNone else snd kv)))
                 (rows df) |}.

(** [df.to_dict('records')]. *)
Definition to_dict_records (df : DataFrame) : list dict := rows df.

(** The float a cell holds after [pd.to_numeric]; [None] when it holds none. *)
Definition as_float (v : value) : option pyfloat :=
  match v with
  | VFloat x => Some x
  | _ => None
  end.

(** ** Processing a fetched table *)

Section Process.

(** [str.lower]. *)
Variable lower : string -> string.

(** What pandas' numeric parser makes of a text cell; NaN when the text
    is no number ([errors='coerce']). *)
Variable parse_numeric : string -> pyfloat.

(** The float [pd.to_numeric] makes of one cell with [errors='coerce']. *)
Definition numeric_of (v : value) : pyfloat :=
  match v with
  | VNone => NaN
  | VFloat x => x
  | VStr s => parse_numeric s
  end.

(** [pd.to_numeric(col, errors='coerce')]. *)
Definition to_numeric (col : list value) : list value :=
  map (fun v => VFloat (numeric_of v)) col.

(** [cols[0] if cols else None]. *)
Definition first_or_none (cols : list string) : option string :=
  match cols with
  | c :: _ => Some c
  | [] => None
  end.

(** Truth value of a column name or [None]: [None] and the empty string
    are false. *)
Definition truthy_name (c : option string) : bool :=
  match c with
  | Some s => negb (String.eqb s EmptyString)
  | None => false
  end.

Definition find_speed_col (cols : list string) : option string :=
  first_or_none (filter (fun c => py_in "bat_speed" (lower c)) cols).

Definition find_length_col (cols : list string) : option string :=
  first_or_none (filter (fun c => py_in "swing_length" (lower c)) cols).

(** [process_data]. *)
Definition process_data (df : DataFrame) : DataFrame :=
  let speed_col := find_speed_col (columns df) in
  let length_col := find_length_col (columns df) in
  if negb (truthy_name speed_col) || negb (truthy_name length_col)
  then empty_frame
  else
    match speed_col, length_col with
    | Some speed_col, Some length_col =>
        let df := dropna [speed_col; length_col] df in
        let df := df_set df "bat_speed" (to_numeric (df_col df speed_col)) in
        let df := df_set df "swing_length" (to_numeric (df_col df length_col)) in
        let df := df_set df "power_plus"
                    (df_apply_rows
                       (fun row => calculate_power_plus
                                     (as_float (row_get row "bat_speed"))
                                     (as_float (row_get row "swing_length")))
                       df) in
        df
    | _, _ => empty_frame
    end.

End Process.

(** ** Cache store *)

(** The processed dataset: a JSON array of records. *)
Definition Dataset : Type := list dict.

(** What [CACHE_FILE] holds.  [Garbage] is text [json.load] rejects.
    A parsed object has a [timestamp] that [datetime.fromisoformat] reads
    as an instant ([None] when the key is missing or the text is no such
    instant) and a [data] entry ([None] when the key is missing).
    Instants and durations are counted in microseconds. *)
Inductive CacheFile : Type :=
| Garbage
| Parsed (timestamp : option Z) (data : option Dataset).

(** The part of the world the pipeline touches: the cache file on disk
    ([None] when it does not exist), the wall clock, and what the next
    request to the remote source yields ([None] on a failure) and how
    long it takes. *)
Record World : Type := mkWorld {
  cache_file : option CacheFile;
  clock : Z;
  source : option DataFrame;
  fetch_latency : Z
}.

(** [timedelta(hours=6)]. *)
Definition CACHE_DURATION : Z := 6 * 3600 * 1000000.

(** Outcome of the [try] block of [load_cached_data]: a value, or an
    exception that the [except] clause turns into [None]. *)
Definition try_except {A : Type} (body : option (option A)) : option A :=
  match body with
  | Some r => r
  | None => None
  end.

(** [load_cached_data]. *)
Definition load_cached_data (w : World) : option Dataset :=
  match cache_file w with
  | None => None
  | Some f =>
      try_except
        match f with
        | Garbage => None
        | Parsed timestamp data =>
            match timestamp with
            | None => None
            | Some cache_time =>
                if (clock w - cache_time <? CACHE_DURATION)%Z
                then match data with
                     | Some d => Some (Some d)
                     | None => None
                     end
                else Some None
            end
        end
  end.

(** [save_to_cache]: the file is overwritten with the time of the save and
    the dataset. *)
Definition save_to_cache (data : Dataset) (w : World) : World :=
  {| cache_file := Some (Parsed (Some (clock w)) (Some data));
     clock := clock w;
     source := source w;
     fetch_latency := fetch_latency w |}.

(** [fetch_baseball_savant_data]: the table or [None], and the world after
    the request has taken its time. *)
Definition fetch_baseball_savant_data (w : World) : option DataFrame * World :=
  (source w,
   {| cache_file := cache_file w;
      clock := (clock w + fetch_latency w)%Z;
      source := source w;
      fetch_latency := fetch_latency w |}).

(** ** Refresh orchestrator *)

(** What [get_data] returns: the records, or the dictionary
    [{"error": "No data available"}]. *)
Inductive Payload : Type :=
| Records (data : Dataset)
| NoDataAvailable.

(** [cached if cached else alt]: [None] and the empty list are false. *)
Definition cached_or (cached : option Dataset) (alt : Payload) : Payload :=
  match cached with
  | Some (p :: d) => Records (p :: d)
  | _ => alt
  end.

Section Orchestrator.

Variable lower : string -> string.
Variable parse_numeric : string -> pyfloat.

(** The part of [get_data] from the fetch on. *)
Definition fetch_fresh (w : World) : Payload * World :=
  let (df, w) := fetch_baseball_savant_data w in
  let fallback := cached_or (load_cached_data w) NoDataAvailable in
  match df with
  | None => (fallback, w)
  | Some df =>
      if df_empty df then (fallback, w)
      else
        let df := process_data lower parse_numeric df in
        let df := replace_nan df in
        let data := to_dict_records df in
        let w := save_to_cache data w in
        (Records data, w)
  end.

(** [get_data]. *)
Definition get_data (force_refresh : bool) (w : World) : Payload * World :=
  if negb force_refresh then
    match load_cached_data w with
    | Some (p :: d) => (Records (p :: d), w)
    | _ => fetch_fresh w
    end
  else fetch_fresh w.

End Orchestrator.

(** ** Routes *)

Inductive exn : Type :=
| TypeError
| AttributeError.

(** A value, or the exception that left the function. *)
Inductive result (A : Type) : Type :=
| Ok (a : A)
| Raise (e : exn).

Arguments Ok {A} a.
Arguments Raise {A} e.

(** Python's [v >= t] for a number [t]: a [TypeError] when [v] is [None]
    or text. *)
Definition py_ge (v : value) (t : Q) : result bool :=
  match v with
  | VFloat x => Ok (pf_ge x t)
  | VNone => Raise TypeError
  | VStr _ => Raise TypeError
  end.

(** [[p for p in data if cond(p)]] with a condition that can raise. *)
Fixpoint comprehension (cond : dict -> result bool) (data : list dict)
  : result (list dict) :=
  match data with
  | [] => Ok []
  | p :: rest =>
      match cond p with
      | Raise e => Raise e
      | Ok b =>
          match comprehension cond rest with
          | Raise e => Raise e
          | Ok kept => Ok (if b then p :: kept else kept)
          end
      end
  end.

(** The comprehension of a route over what [get_data] returned.  Iterating
    the error dictionary yields its key, a string, and [p.get] on a string
    is an [AttributeError]. *)
Definition select (cond : dict -> result bool) (data : Payload)
  : result (list dict) :=
  match data with
  | Records d => comprehension cond d
  | NoDataAvailable => Raise AttributeError
  end.

Definition qualified_cond (p : dict) : result bool :=
  py_ge (dict_get_default p "swings" (VFloat (Fin 0))) 300.

Definition elite_cond (p : dict) : result bool :=
  py_ge (dict_get_default p "power_plus" (VFloat (Fin 0))) 110.

Section Routes.

Variable lower : string -> string.
Variable parse_numeric : string -> pyfloat.

(** [get_qualified_players], before [jsonify]. *)
Definition get_qualified_players (w : World) : result (list dict) * World :=
  let (data, w) := get_data lower parse_numeric false w in
  (select qualified_cond data, w).

(** [get_elite_players], before [jsonify]. *)
Definition get_elite_players (w : World) : result (list dict) * World :=
  let (data, w) := get_data lower parse_numeric false w in
  (select elite_cond data, w).

End Routes.

(** ** Lookup, team, refresh and summary routes *)

(** [next((p for p in data if cond(p)), None)]: the generator stops at the
    first record that satisfies the condition; a condition that raises
    before that ends the search with the exception. *)
Fixpoint next_match (cond : dict -> result bool) (data : list dict)
  : result (option dict) :=
  match data with
  | [] => Ok None
  | p :: rest =>
      match cond p with
      | Raise e => Raise e
      | Ok true => Ok (Some p)
      | Ok false => next_match cond rest
      end
  end.

Section Conditions.

(** [str.lower] and [str.upper]. *)
Variable lower : string -> string.
Variable upper : string -> string.

(** [player_name.lower() in p.get('player_name', '').lower()]: [lower] on
    [None] or on a number is an [AttributeError]. *)
Definition name_cond (player_name : string) (p : dict) : result bool :=
  match dict_get_default p "player_name" (VStr EmptyString) with
  | VStr s => Ok (py_in (lower player_name) (lower s))
  | _ => Raise AttributeError
  end.

(** [p.get('team', '').upper() == team_abbrev.upper()]. *)
Definition team_cond (team_abbrev : string) (p : dict) : result bool :=
  match dict_get_default p "team" (VStr EmptyString) with
  | VStr s => Ok (String.eqb (upper s) (upper team_abbrev))
  | _ => Raise AttributeError
  end.

End Conditions.

(** What [get_player] answers: the record, or the 404 with
    [{"error": "Player not found"}]. *)
Inductive PlayerResponse : Type :=
| PlayerJson (p : dict)
| PlayerNotFound.

(** [if player: ... else: ...] on what [next] returned: [None] and the
    empty dictionary are false. *)
Definition player_response (player : option dict) : PlayerResponse :=
  match player with
  | Some (kv :: p) => PlayerJson (kv :: p)
  | _ => PlayerNotFound
  end.

(** The lookup of [get_player] over what [get_data] returned. *)
Definition lookup_player (lower : string -> string) (player_name : string)
           (data : Payload) : result PlayerResponse :=
  match data with
  | Records d =>
      match next_match (name_cond lower player_name) d with
      | Ok player => Ok (player_response player)
      | Raise e => Raise e
      end
  | NoDataAvailable => Raise AttributeError
  end.

(** [len(data)] on what [get_data] returned: the error dictionary has one
    key. *)
Definition payload_len (data : Payload) : nat :=
  match data with
  | Records d => List.length d
  | NoDataAvailable => 1
  end.

(** The JSON object [refresh_data] answers with. *)
Record RefreshResponse : Type := mkRefreshResponse {
  status : string;
  players_count : nat;
  timestamp : Z
}.

(** What [get_summary] answers: the aggregate, or the 500 with
    [{"error": "No data available"}]. *)
Inductive SummaryResponse (S : Type) : Type :=
| SummaryJson (summary : S)
| SummaryNoData.

Arguments SummaryJson {S} summary.
Arguments SummaryNoData {S}.

Section MoreRoutes.

Variable lower : string -> string.
Variable upper : string -> string.
Variable parse_numeric : string -> pyfloat.

(** [get_all_players], before [jsonify]. *)
Definition get_all_players (w : World) : Payload * World :=
  get_data lower parse_numeric false w.

(** [get_player]. *)
Definition get_player (player_name : string) (w : World)
  : result PlayerResponse * World :=
  let (data, w) := get_data lower parse_numeric false w in
  (lookup_player lower player_name data, w).

(** [get_team_players], before [jsonify]. *)
Definition get_team_players (team_abbrev : string) (w : World)
  : result (list dict) * World :=
  let (data, w) := get_data lower parse_numeric false w in
  (select (team_cond upper team_abbrev) data, w).

(** [refresh_data]. *)
Definition refresh_data (w : World) : RefreshResponse * World :=
  let (data, w) := get_data lower parse_numeric true w in
  ({| status := "success";
      players_count := payload_len data;
      timestamp := clock w |}, w).

(** The aggregate that pandas computes in [get_summary] from a dataset that
    is not empty and from the time of the answer. *)
Variable S : Type.
Variable aggregate : Dataset -> Z -> S.

(** [get_summary]: the guard is
    [not data or isinstance(data, dict) and 'error' in data]. *)
Definition get_summary (w : World) : SummaryResponse S * World :=
  let (data, w) := get_data lower parse_numeric false w in
  (match data with
   | NoDataAvailable => SummaryNoData
   | Records [] => SummaryNoData
   | Records (p :: d) => SummaryJson (aggregate (p :: d) (clock w))
   end, w).

End MoreRoutes.

(** ** Requests served side by side

    The server runs each request in a thread of its own, and [get_data]
    takes no lock.  A request that calls [get_data] without
    [force_refresh] is followed through its two parts: the cache check of
    lines 153 to 156, and the rest, from the fetch on.  Threads interleave
    between the parts. *)

Inductive Request : Type :=
| Arrived
| Fetching
| Answered (data : Payload).

Section Threads.

Variable lower : string -> string.
Variable parse_numeric : string -> pyfloat.

(** One part of [get_data] for one request, with the number of calls of
    [fetch_baseball_savant_data] it makes. *)
Definition step (r : Request) (w : World) : Request * World * nat :=
  match r with
  | Arrived =>
      match load_cached_data w with
      | Some (p :: d) => (Answered (Records (p :: d)), w, 0%nat)
      | _ => (Fetching, w, 0%nat)
      end
  | Fetching =>
      let (data, w) := fetch_fresh lower parse_numeric w in
      (Answered data, w, 1%nat)
  | Answered data => (Answered data, w, 0%nat)
  end.

(** The requests in flight, the world, and the calls of the fetcher so
    far. *)
Definition Server : Type := (list Request * World * nat)%type.

Fixpoint update (i : nat) (r : Request) (rs : list Request) : list Request :=
  match rs, i with
  | [], _ => []
  | _ :: rest, O => r :: rest
  | r0 :: rest, S j => r0 :: update j r rest
  end.

(** The thread of request [i] runs its next part. *)
Definition run_thread (st : Server) (i : nat) : Server :=
  let '(rs, w, fetches) := st in
  match nth_error rs i with
  | None => st
  | Some r =>
      let '(r', w', k) := step r w in
      (update i r' rs, w', (fetches + k)%nat)
  end.

(** The threads run in the order of a schedule. *)
Definition run (schedule : list nat) (st : Server) : Server :=
  fold_left run_thread schedule st.

End Threads.

(** [n] requests arrive together: each makes its cache check before any
    goes on to the fetch. *)
Definition simultaneous (n : nat) : list nat := (seq 0 n ++ seq 0 n)%list.

Definition answered (r : Request) : Prop :=
  match r with
  | Answered _ => True
  | _ => False
  end.

(** ** Equality of the values the model tells apart

    Two [Fin] values are the same double when the rationals are equal as
    numbers, whatever fractions represent them. *)
Definition same_value (x y : pyfloat) : Prop :=
  match x, y with
  | NaN, NaN => True
  | Inf n, Inf m => n = m
  | NegZero, NegZero => True
  | Fin a, Fin b => a == b
  | _, _ => False
  end.

Definition same_float (x y : option pyfloat) : Prop :=
  match x, y with
  | None, None => True
  | Some a, Some b => same_value a b
  | _, _ => False
  end.

(** The metric before [round]. *)
Definition unrounded_power_plus (b s : pyfloat) : pyfloat :=
  fmul (fdiv (fdiv b s) LEAGUE_AVG_EFFICIENCY) (float_literal 100).

(** The double is finite. *)
Definition is_finite (x : pyfloat) : bool :=
  match x with
  | NegZero | Fin _ => true
  | _ => false
  end.

(** [f] keeps NaN and the infinities and sends a finite double to the
    double nearest to [g] of its value. *)
Definition rounds_through (g : Q -> Q) (f : pyfloat -> pyfloat) : Prop :=
  f NaN = NaN
  /\ (forall n, f (Inf n) = Inf n)
  /\ (forall x, is_finite x = true -> exists s, f x = nearest_double s (g (fval x))).

(** A Python float read back from a binary64 of the standard library. *)
Definition of_spec (x : SpecFloat.spec_float) : pyfloat :=
  match x with
  | SpecFloat.S754_zero s => signed_zero s
  | SpecFloat.S754_infinity s => Inf s
  | SpecFloat.S754_nan => NaN
  | SpecFloat.S754_finite s m e =>
      Fin (Qred ((if s then -1 else 1) * inject_Z (Zpos m) * 2 ^ e))
  end.

(** A Python float read back from a primitive float. *)
Definition of_prim (x : PrimFloat.float) : pyfloat :=
  of_spec (FloatOps.Prim2SF x).

(** The double with its value as a reduced fraction. *)
Definition reduced (x : pyfloat) : pyfloat :=
  match x with
  | Fin q => Fin (Qred q)
  | _ => x
  end.

(** ** Notions the properties are stated with *)

(** [pat] occurs in [s]. *)
Definition occurs (pat s : string) : Prop :=
  exists before after, s = before ++ pat ++ after.

(** [c] is the first element of [cols], in order, that satisfies [P]. *)
Definition first_such (P : string -> Prop) (cols : list string) (c : string) : Prop :=
  exists before after,
    cols = (before ++ c :: after)%list /\ P c /\ Forall (fun c' => ~ P c') before.

(** Every row of the table has the table's columns as its keys. *)
Definition well_formed (df : DataFrame) : Prop :=
  Forall (fun r => map fst r = columns df) (rows df).

(** The rows [dropna] keeps for the two resolved columns. *)
Definition complete_row (speed_col length_col : string) (r : dict) : bool :=
  negb (value_isna (row_get r speed_col)) && negb (value_isna (row_get r length_col)).

(** A kept row after the first two assignments of step 4. *)
Definition with_inputs (parse_numeric : string -> pyfloat)
           (speed_col length_col : string) (r : dict) : dict :=
  let r := dict_set "bat_speed" (VFloat (numeric_of parse_numeric (row_get r speed_col))) r in
  dict_set "swing_length" (VFloat (numeric_of parse_numeric (row_get r length_col))) r.

(** What the row function of step 4 returns on a kept row. *)
Definition row_metric (parse_numeric : string -> pyfloat)
           (speed_col length_col : string) (r : dict) : option pyfloat :=
  let r := with_inputs parse_numeric speed_col length_col r in
  calculate_power_plus (as_float (row_get r "bat_speed"))
                       (as_float (row_get r "swing_length")).

(** The rows [process_data] keeps. *)
Definition kept_rows (speed_col length_col : string) (df : DataFrame) : list dict :=
  filter (complete_row speed_col length_col) (rows df).

(** The record [process_data] makes of a kept row: the three assignments
    of step 4, in their order; [results] are the metrics of all the kept
    rows, which decide how the column holds a null. *)
Definition enrich_row (parse_numeric : string -> pyfloat)
           (results : list (option pyfloat))
           (speed_col length_col : string) (r : dict) : dict :=
  dict_set "power_plus"
           (result_cell results (row_metric parse_numeric speed_col length_col r))
           (with_inputs parse_numeric speed_col length_col r).

(** The metrics of the kept rows of a table. *)
Definition metrics (parse_numeric : string -> pyfloat)
           (speed_col length_col : string) (df : DataFrame) : list (option pyfloat) :=
  map (row_metric parse_numeric speed_col length_col)
      (kept_rows speed_col length_col df).

(** The outcome of a fetch that the orchestrator treats as a failure. *)
Definition fetch_fails (w : World) : Prop :=
source w = None \/ exists df, source w = Some df /\ df_empty df = true.


(** The world [dt] microseconds later, nothing else changed. *)
Definition later (dt : Z) (w : World) : World :=
  {| cache_file := cache_file w;
     clock := (clock w + dt)%Z;
     source := source w;
     fetch_latency := fetch_latency w |}.

(** The field [k] of the record holds a number or the record has no such
    field. *)
Definition number_or_missing (k : string) (p : dict) : Prop :=
  dict_get p k = None \/ exists x, dict_get p k = Some (VFloat x).

(** The field [k] of the record holds text or the record has no such
    field. *)
Definition text_or_missing (k : string) (p : dict) : Prop :=
  dict_get p k = None \/ exists s, dict_get p k = Some (VStr s).

(** The place of a grade on the scale from Poor to Elite. *)
Definition grade_rank (grade : string) : nat :=
  if String.eqb grade "Elite" then 4
  else if String.eqb grade "Above Average" then 3
  else if String.eqb grade "Average" then 2
  else if String.eqb grade "Below Average" then 1
  else 0.

(** The columns [process_data] may add. *)
Definition computed_columns : list string :=
  ["bat_speed"; "swing_length"; "power_plus"].

(** [get_data] without [force_refresh] answers from the cache: the loaded
    dataset is there and is not empty. *)
Definition serves_cache (w : World) : bool :=
  match load_cached_data w with
  | Some (_ :: _) => true
  | _ => false
  end.

(** The condition holds on the record and does not raise. *)
Definition holds (cond : dict -> result bool) (p : dict) : bool :=
  match cond p with
  | Ok b => b
  | Raise _ => false
  end.

(** ** Sample inputs *)

(** A numeric parser that recognises no text. *)
Definition parse_nothing (s : string) : pyfloat := NaN.

(** A world whose cache entry, of one record, is six hours and one second
    old, and whose source cannot be reached. *)
Definition stale_world : World :=
  {| cache_file :=
       Some (Parsed (Some 0%Z)
                    (Some [[("player_name", VStr "A");
                            ("power_plus", VFloat (Fin 112))]]));
     clock := (CACHE_DURATION + 1000000)%Z;
     source := None;
     fetch_latency := 0 |}.

(** A source table of two players; [Stone] has a swing length of zero and
    no swing count. *)
Definition two_player_table : DataFrame :=
  {| columns := ["player_name"; "swings"; "avg_bat_speed"; "avg_swing_length"];
     rows :=
       [ [("player_name", VStr "Judge"); ("swings", VFloat (Fin 400));
          ("avg_bat_speed", VFloat (Fin 77)); ("avg_swing_length", VFloat (Fin 7))];
         [("player_name", VStr "Stone"); ("swings", VNone);
          ("avg_bat_speed", VFloat (Fin 70)); ("avg_swing_length", VFloat (Fin 0))] ] |}.

(** A world with no cache file and a source that answers with
    [two_player_table]. *)
Definition cold_world : World :=
  {| cache_file := None;
     clock := 0;
     source := Some two_player_table;
     fetch_latency := 2000000 |}.

(** A source table of two players; [Ames] has no bat speed. *)
Definition missing_speed_table : DataFrame :=
  {| columns := ["player_name"; "swings"; "avg_bat_speed"; "avg_swing_length"];
     rows :=
       [ [("player_name", VStr "Ames"); ("swings", VFloat (Fin 320));
          ("avg_bat_speed", VNone); ("avg_swing_length", VFloat (Fin 7))];
         [("player_name", VStr "Judge"); ("swings", VFloat (Fin 400));
          ("avg_bat_speed", VFloat (Fin 77)); ("avg_swing_length", VFloat (Fin 7))] ] |}.

(** The dataset of two players that [warm_world] has in its cache. *)
Definition cached_players : Dataset :=
  [ [("player_name", VStr "Aaron Judge"); ("team", VStr "NYY");
     ("swings", VFloat (Fin 400)); ("power_plus", VFloat (Fin (1115 # 10)))];
    [("player_name", VStr "Juan Soto"); ("team", VStr "NYM");
     ("swings", VFloat (Fin 280)); ("power_plus", VFloat (float_literal (1042 # 10)))] ].

(** A world whose cache entry is one second old, with a source that would
    answer with [two_player_table]. *)
Definition warm_world : World :=
  {| cache_file := Some (Parsed (Some 0%Z) (Some cached_players));
     clock := 1000000;
     source := Some two_player_table;
     fetch_latency := 2000000 |}.

(** A world like [warm_world] whose source answers with a table that has
    neither a bat-speed nor a swing-length column. *)
Definition unresolved_world : World :=
  {| cache_file := Some (Parsed (Some 0%Z) (Some cached_players));
     clock := 1000000;
     source := Some {| columns := ["player_name"; "swings"];
                       rows := [[("player_name", VStr "Judge");
                                 ("swings", VFloat (Fin 400))]] |};
     fetch_latency := 2000000 |}.

(** A world whose cache entry is six hours and one second old, with a
    source that answers with [two_player_table]. *)
Definition expired_world : World :=
  {| cache_file := Some (Parsed (Some 0%Z) (Some cached_players));
     clock := (CACHE_DURATION + 1000000)%Z;
     source := Some two_player_table;
     fetch_latency := 2000000 |}.

(** A world whose cache entry is six hours and one second old, with a
    source that cannot be reached and takes two seconds to fail. *)
Definition down_world : World :=
  {| cache_file := Some (Parsed (Some 0%Z) (Some cached_players));
     clock := (CACHE_DURATION + 1000000)%Z;
     source := None;
     fetch_latency := 2000000 |}.

(** An aggregate that counts the records. *)
Definition count_records (d : Dataset) (now : Z) : nat := List.length d.

(** * Properties *)

(** ** Powers of two *)
Lemma pow2_pos (z : Z) : 0 < 2 ^ z.
Proof. apply Qpower_0_lt. reflexivity. Qed.

Lemma pow2_plus (a b : Z) : 2 ^ (a + b) == 2 ^ a * 2 ^ b.
Proof. apply Qpower_plus. discriminate. Qed.

Lemma pow2_le (a b : Z) : (a <= b)%Z -> 2 ^ a <= 2 ^ b.
Proof. intros L. apply Qpower_le_compat_l; [exact L | discriminate]. Qed.

Lemma pow2_lt (a b : Z) : (a < b)%Z -> 2 ^ a < 2 ^ b.
Proof. intros L. apply Qpower_lt_compat_l; [exact L | reflexivity]. Qed.

Lemma pow2_Z (n : Z) : (0 <= n)%Z -> inject_Z (2 ^ n) == 2 ^ n.
Proof. intros N. apply (Zpower_Qpower 2 n N). Qed.

(** ** Binary logarithm *)
Lemma ilog2_spec (q : Q) : 0 < q -> 2 ^ ilog2 q <= q /\ q < 2 ^ (ilog2 q + 1).
Proof.
  intros P. destruct q as [n d].
  assert (Pn : (0 < n)%Z).
  { unfold Qlt in P. simpl in P. lia. }
  pose proof (Z.log2_spec n Pn) as [La Ua].
  pose proof (Z.log2_spec (Zpos d) (Pos2Z.is_pos d)) as [Lb Ub].
  pose proof (Z.log2_nonneg n) as Na.
  pose proof (Z.log2_nonneg (Zpos d)) as Nb.
  set (a := Z.log2 n) in *. set (b := Z.log2 (Zpos d)) in *.
  assert (Ea : inject_Z (2 ^ a) == 2 ^ a) by (apply pow2_Z; exact Na).
  assert (Eb : inject_Z (2 ^ b) == 2 ^ b) by (apply pow2_Z; exact Nb).
  assert (Ea1 : inject_Z (2 ^ Z.succ a) == 2 ^ (a + 1)) by (apply pow2_Z; lia).
  assert (Eb1 : inject_Z (2 ^ Z.succ b) == 2 ^ (b + 1)) by (apply pow2_Z; lia).
  rewrite Zle_Qle in La, Lb. rewrite Zlt_Qlt in Ua, Ub.
  rewrite Ea in La. rewrite Eb in Lb. rewrite Ea1 in Ua. rewrite Eb1 in Ub.
  assert (Pd : 0 < inject_Z (Zpos d)) by reflexivity.
  assert (Q : n # d == inject_Z n / inject_Z (Zpos d)) by apply Qmake_Qdiv.
  unfold ilog2. cbn [Qnum Qden]. fold a b.
  destruct (Qle_bool (2 ^ (a - b)) (n # d)) eqn:C.
  - apply Qle_bool_iff in C. split; [exact C|].
    rewrite Q. apply Qlt_shift_div_r; [exact Pd|].
    apply (Qlt_le_trans _ (2 ^ (a + 1))); [exact Ua|].
    replace (a + 1)%Z with ((a - b + 1) + b)%Z by lia.
    rewrite pow2_plus. apply Qmult_le_l; [apply pow2_pos | exact Lb].
  - assert (C' : n # d < 2 ^ (a - b)).
    { apply Qnot_le_lt. intros H. apply Qle_bool_iff in H. congruence. }
    split.
    + rewrite Q. apply Qle_shift_div_l; [exact Pd|].
      apply (Qle_trans _ (2 ^ a)); [|exact La].
      replace a with ((a - b - 1) + (b + 1))%Z at 2 by lia.
      rewrite pow2_plus. apply Qmult_le_l; [apply pow2_pos|].
      apply Qlt_le_weak. exact Ub.
    + replace (a - b - 1 + 1)%Z with (a - b)%Z by lia. exact C'.
Qed.

Lemma ilog2_mono (q1 q2 : Q) : 0 < q1 -> q1 <= q2 -> (ilog2 q1 <= ilog2 q2)%Z.
Proof.
  intros P L.
  assert (P2 : 0 < q2) by (apply (Qlt_le_trans _ q1); assumption).
  destruct (ilog2_spec q1 P) as [L1 _]. destruct (ilog2_spec q2 P2) as [_ U2].
  destruct (Z_le_gt_dec (ilog2 q1) (ilog2 q2)) as [H|H]; [exact H|].
  exfalso. assert (B : 2 ^ (ilog2 q2 + 1) <= 2 ^ ilog2 q1) by (apply pow2_le; lia).
  apply (Qlt_irrefl q2).
  apply (Qlt_le_trans _ _ _ U2). apply (Qle_trans _ _ _ B).
  apply (Qle_trans _ _ _ L1 L).
Qed.

Lemma ilog2_comp (q1 q2 : Q) : 0 < q1 -> q1 == q2 -> ilog2 q1 = ilog2 q2.
Proof.
  intros P E. assert (P2 : 0 < q2) by (rewrite <- E; exact P).
  apply Z.le_antisymm; apply ilog2_mono; try assumption; rewrite E; apply Qle_refl.
Qed.

(** ** Rounding to an integer *)
(** Turns an equation on [Qcompare] into the order it states. *)
Ltac qcompare_order H :=
  match type of H with
  | Qcompare _ _ = Eq => apply <- Qeq_alt in H
  | Qcompare _ _ = Lt => apply <- Qlt_alt in H
  | Qcompare _ _ = Gt => apply <- Qgt_alt in H
  end.

Lemma round_half_even_floor (x : Q) :
  round_half_even x = Qfloor x \/ round_half_even x = (Qfloor x + 1)%Z.
Proof.
  unfold round_half_even.
  destruct (Qcompare (x - inject_Z (Qfloor x)) (1 # 2)); auto.
  destruct (Z.even (Qfloor x)); auto.
Qed.

Lemma floor_bounds (x : Q) :
  inject_Z (Qfloor x) <= x /\ x < inject_Z (Qfloor x) + 1.
Proof.
  split.
  - apply Qfloor_le.
  - generalize (Qlt_floor x). rewrite inject_Z_plus. auto.
Qed.

Lemma round_half_even_comp (x y : Q) :
  x == y -> round_half_even x = round_half_even y.
Proof.
  intros E. unfold round_half_even.
  rewrite (Qfloor_comp _ _ E).
  assert (C : Qcompare (x - inject_Z (Qfloor y)) (1 # 2)
              = Qcompare (y - inject_Z (Qfloor y)) (1 # 2)).
  { apply Qcompare_comp; [rewrite E|]; reflexivity. }
  rewrite C. reflexivity.
Qed.

Lemma round_half_even_near (x : Q) :
  Qabs (inject_Z (round_half_even x) - x) <= 1 # 2.
Proof.
  destruct (floor_bounds x) as [L U].
  unfold round_half_even.
  destruct (Qcompare (x - inject_Z (Qfloor x)) (1 # 2)) eqn:C.
  - qcompare_order C.
    destruct (Z.even (Qfloor x)); [|rewrite inject_Z_plus; change (inject_Z 1) with 1];
      apply Qabs_case; intros; lra.
  - qcompare_order C. apply Qabs_case; intros; lra.
  - qcompare_order C. rewrite inject_Z_plus. change (inject_Z 1) with 1.
    apply Qabs_case; intros; lra.
Qed.

Lemma round_half_even_mono (x y : Q) :
  x <= y -> (round_half_even x <= round_half_even y)%Z.
Proof.
  intros L.
  assert (F : (Qfloor x <= Qfloor y)%Z) by (apply Qfloor_resp_le; exact L).
  destruct (Z.eq_dec (Qfloor x) (Qfloor y)) as [E|N].
  - unfold round_half_even. rewrite E.
    destruct (Qcompare (x - inject_Z (Qfloor y)) (1 # 2)) eqn:Cx;
      destruct (Qcompare (y - inject_Z (Qfloor y)) (1 # 2)) eqn:Cy;
      qcompare_order Cx; qcompare_order Cy;
      try (exfalso; lra);
      destruct (Z.even (Qfloor y)); lia.
  - destruct (round_half_even_floor x) as [-> | ->];
      destruct (round_half_even_floor y) as [-> | ->]; lia.
Qed.

Lemma round_half_even_Z (z : Z) : round_half_even (inject_Z z) = z.
Proof.
  unfold round_half_even. rewrite Qfloor_Z.
  assert (C : Qcompare (inject_Z z - inject_Z z) (1 # 2) = Lt).
  { apply Qlt_alt. unfold Qminus. rewrite Qplus_opp_r. reflexivity. }
  rewrite C. reflexivity.
Qed.

(** ** Rounding to the grid of doubles *)
Lemma ulp_exponent_mono (q1 q2 : Q) :
  0 < q1 -> q1 <= q2 -> (ulp_exponent q1 <= ulp_exponent q2)%Z.
Proof.
  intros P L. unfold ulp_exponent. pose proof (ilog2_mono q1 q2 P L). lia.
Qed.

Lemma round_to_grid_comp (q1 q2 : Q) :
  0 < q1 -> q1 == q2 -> round_to_grid q1 == round_to_grid q2.
Proof.
  intros P E. unfold round_to_grid, ulp_exponent.
  rewrite (ilog2_comp q1 q2 P E).
  set (e := Z.max (ilog2 q2 - 52) (-1074)).
  rewrite (round_half_even_comp (q1 / 2 ^ e) (q2 / 2 ^ e)); [reflexivity|].
  rewrite E. reflexivity.
Qed.

Lemma scaled_le (q1 q2 : Q) (e : Z) : q1 <= q2 -> q1 / 2 ^ e <= q2 / 2 ^ e.
Proof.
  intros L. unfold Qdiv. apply Qmult_le_compat_r; [exact L|].
  apply Qlt_le_weak, Qinv_lt_0_compat, pow2_pos.
Qed.

Lemma round_to_grid_mono (q1 q2 : Q) :
  0 < q1 -> q1 <= q2 -> round_to_grid q1 <= round_to_grid q2.
Proof.
  intros P L.
  assert (P2 : 0 < q2) by (apply (Qlt_le_trans _ q1); assumption).
  pose proof (ulp_exponent_mono q1 q2 P L) as M.
  unfold round_to_grid.
  destruct (Z.eq_dec (ulp_exponent q1) (ulp_exponent q2)) as [E|N].
  - rewrite E. apply Qmult_le_compat_r; [|apply Qlt_le_weak, pow2_pos].
    rewrite <- Zle_Qle. apply round_half_even_mono, scaled_le, L.
  - assert (M' : (ulp_exponent q1 < ulp_exponent q2)%Z) by lia.
    set (e1 := ulp_exponent q1) in *. set (e2 := ulp_exponent q2) in *.
    assert (E2 : e2 = (ilog2 q2 - 52)%Z).
    { unfold e2, e1, ulp_exponent in *. lia. }
    assert (G1 : (ilog2 q1 - 52 <= e1)%Z) by (unfold e1, ulp_exponent; lia).
    destruct (ilog2_spec q1 P) as [_ U1]. destruct (ilog2_spec q2 P2) as [L2 _].
    assert (B1 : inject_Z (round_half_even (q1 / 2 ^ e1)) * 2 ^ e1 <= 2 ^ (e1 + 53)).
    { replace (e1 + 53)%Z with (53 + e1)%Z by lia. rewrite pow2_plus.
      apply Qmult_le_compat_r; [|apply Qlt_le_weak, pow2_pos].
      rewrite <- (pow2_Z 53) by lia. rewrite <- Zle_Qle.
      rewrite <- (round_half_even_Z (2 ^ 53)%Z).
      apply round_half_even_mono. rewrite (pow2_Z 53) by lia.
      apply Qle_shift_div_r; [apply pow2_pos|].
      rewrite <- pow2_plus. apply Qlt_le_weak.
      apply (Qlt_le_trans _ _ _ U1). apply pow2_le. lia. }
    assert (B2 : 2 ^ (e2 + 52) <= inject_Z (round_half_even (q2 / 2 ^ e2)) * 2 ^ e2).
    { replace (e2 + 52)%Z with (52 + e2)%Z by lia. rewrite pow2_plus.
      apply Qmult_le_compat_r; [|apply Qlt_le_weak, pow2_pos].
      rewrite <- (pow2_Z 52) by lia. rewrite <- Zle_Qle.
      rewrite <- (round_half_even_Z (2 ^ 52)%Z).
      apply round_half_even_mono. rewrite (pow2_Z 52) by lia.
      apply Qle_shift_div_l; [apply pow2_pos|].
      rewrite <- pow2_plus. apply (Qle_trans _ (2 ^ ilog2 q2)); [|exact L2].
      apply pow2_le. lia. }
    apply (Qle_trans _ _ _ B1). apply (Qle_trans _ (2 ^ (e2 + 52))); [|exact B2].
    apply pow2_le. lia.
Qed.

Lemma round_to_grid_nonneg (q : Q) : 0 < q -> 0 <= round_to_grid q.
Proof.
  intros P. unfold round_to_grid.
  apply Qmult_le_0_compat; [|apply Qlt_le_weak, pow2_pos].
  replace 0 with (inject_Z 0) by reflexivity. rewrite <- Zle_Qle.
  rewrite <- (round_half_even_Z 0). apply round_half_even_mono.
  apply Qle_shift_div_l; [apply pow2_pos|].
  change (inject_Z 0) with 0. rewrite Qmult_0_l. apply Qlt_le_weak, P.
Qed.

Lemma round_magnitude_comp (q1 q2 : Q) :
  0 < q1 -> q1 == q2 -> round_magnitude q1 = round_magnitude q2.
Proof.
  intros P E. unfold round_magnitude.
  pose proof (round_to_grid_comp q1 q2 P E) as G.
  assert (B : Qle_bool (2 ^ 1024) (round_to_grid q1)
              = Qle_bool (2 ^ 1024) (round_to_grid q2)).
  { destruct (Qle_bool (2 ^ 1024) (round_to_grid q2)) eqn:C.
    - apply Qle_bool_iff. apply Qle_bool_iff in C. rewrite G. exact C.
    - destruct (Qle_bool (2 ^ 1024) (round_to_grid q1)) eqn:C'; [|reflexivity].
      apply Qle_bool_iff in C'. rewrite G in C'. apply Qle_bool_iff in C'.
      congruence. }
  rewrite B. destruct (Qle_bool (2 ^ 1024) (round_to_grid q2)); [reflexivity|].
  f_equal. apply Qred_complete. exact G.
Qed.

Lemma round_magnitude_some (q r : Q) :
  0 < q -> round_magnitude q = Some r -> r == round_to_grid q /\ 0 <= r.
Proof.
  intros P. unfold round_magnitude.
  pose proof (round_to_grid_nonneg q P) as NN. revert NN.
  generalize (round_to_grid q). intros g NN.
  destruct (Qle_bool (2 ^ 1024) g); [discriminate|].
  intros E. assert (H : Qred g = r) by congruence. rewrite <- H.
  split; [apply Qred_correct|]. rewrite Qred_correct. exact NN.
Qed.

Lemma round_magnitude_mono (q1 q2 : Q) :
  0 < q1 -> q1 <= q2 ->
  match round_magnitude q1, round_magnitude q2 with
  | Some r1, Some r2 => r1 <= r2
  | None, Some _ => False
  | _, None => True
  end.
Proof.
  intros P L. pose proof (round_to_grid_mono q1 q2 P L) as M.
  unfold round_magnitude. revert M.
  generalize (round_to_grid q1) (round_to_grid q2). intros g1 g2 M.
  destruct (Qle_bool (2 ^ 1024) g1) eqn:C1;
    destruct (Qle_bool (2 ^ 1024) g2) eqn:C2; try exact I.
  - apply Qle_bool_iff in C1.
    assert (H : Qle_bool (2 ^ 1024) g2 = true).
    { apply Qle_bool_iff. apply (Qle_trans _ _ _ C1 M). }
    congruence.
  - rewrite !Qred_correct. exact M.
Qed.

Lemma nearest_double_not_nan (s : bool) (v : Q) : nearest_double s v <> NaN.
Proof.
  unfold nearest_double.
  destruct (Qcompare v 0).
  - destruct s; discriminate.
  - destruct (round_magnitude (- v)) as [r|]; [|discriminate].
    destruct (Qeq_bool r 0); discriminate.
  - destruct (round_magnitude v); discriminate.
Qed.

Lemma nearest_double_comp (s : bool) (v1 v2 : Q) :
  v1 == v2 -> nearest_double s v1 = nearest_double s v2.
Proof.
  intros E. unfold nearest_double.
  rewrite (Qcompare_comp v1 v2 E 0 0 (Qeq_refl 0)).
  destruct (Qcompare v2 0) eqn:C; [reflexivity| |]; qcompare_order C.
  - rewrite (round_magnitude_comp (- v1) (- v2)); [reflexivity| |rewrite E; reflexivity].
    rewrite E. lra.
  - rewrite (round_magnitude_comp v1 v2); [reflexivity| |exact E].
    rewrite E. exact C.
Qed.

(** What [nearest_double] returns, by the sign of the exact value. *)
Lemma nearest_double_pos (s : bool) (v : Q) :
  0 < v ->
  (nearest_double s v = Inf false /\ round_magnitude v = None)
  \/ exists r, nearest_double s v = Fin r /\ round_magnitude v = Some r /\ 0 <= r.
Proof.
  intros P. unfold nearest_double.
  assert (C : Qcompare v 0 = Gt) by (apply Qgt_alt; exact P).
  rewrite C. destruct (round_magnitude v) as [r|] eqn:R; [|left; split; reflexivity].
  right. exists r. repeat split. apply (round_magnitude_some v r P R).
Qed.

Lemma nearest_double_neg (s : bool) (v : Q) :
  v < 0 ->
  (nearest_double s v = Inf true /\ round_magnitude (- v) = None)
  \/ (nearest_double s v = NegZero /\ exists r, round_magnitude (- v) = Some r /\ r == 0)
  \/ exists r, nearest_double s v = Fin (- r) /\ round_magnitude (- v) = Some r /\ 0 <= r.
Proof.
  intros P. unfold nearest_double.
  assert (C : Qcompare v 0 = Lt) by (apply Qlt_alt; exact P).
  rewrite C. destruct (round_magnitude (- v)) as [r|] eqn:R; [|left; split; reflexivity].
  right. destruct (Qeq_bool r 0) eqn:Z.
  - left. split; [reflexivity|]. exists r. split; [reflexivity|].
    apply Qeq_bool_iff. exact Z.
  - right. exists r. repeat split.
    apply (round_magnitude_some (- v) r); [lra | exact R].
Qed.

Lemma nearest_double_zero (s : bool) (v : Q) :
  v == 0 -> nearest_double s v = signed_zero s.
Proof.
  intros E. unfold nearest_double.
  assert (C : Qcompare v 0 = Eq) by (apply Qeq_alt; exact E).
  rewrite C. reflexivity.
Qed.

Lemma Qle_bool_true (x y : Q) : x <= y -> Qle_bool x y = true.
Proof. apply Qle_bool_iff. Qed.

Lemma nearest_double_mono (s1 s2 : bool) (v1 v2 : Q) :
  v1 <= v2 -> pf_le (nearest_double s1 v1) (nearest_double s2 v2) = true.
Proof.
  intros L.
  destruct (Q_dec v1 0) as [[N1|P1]|Z1]; destruct (Q_dec v2 0) as [[N2|P2]|Z2];
    try (exfalso; lra).
  - (* both negative *)
    assert (M := round_magnitude_mono (- v2) (- v1) ltac:(lra) ltac:(lra)).
    destruct (nearest_double_neg s1 v1 N1)
      as [[-> R1] | [[-> (r1 & R1 & Z1)] | (r1 & -> & R1 & G1)]];
      destruct (nearest_double_neg s2 v2 N2)
        as [[-> R2] | [[-> (r2 & R2 & Z2)] | (r2 & -> & R2 & G2)]];
      try reflexivity; rewrite R1, R2 in M; try contradiction;
      simpl; apply Qle_bool_true; lra.
  - (* negative, positive *)
    destruct (nearest_double_neg s1 v1 N1) as [[-> _] | [[-> _] | (r1 & -> & _ & G1)]];
      destruct (nearest_double_pos s2 v2 P2) as [[-> _] | (r2 & -> & _ & G2)];
      try reflexivity; simpl; apply Qle_bool_true; lra.
  - (* negative, zero *)
    rewrite (nearest_double_zero s2 v2 Z2).
    destruct (nearest_double_neg s1 v1 N1) as [[-> _] | [[-> _] | (r1 & -> & _ & G1)]];
      destruct s2; try reflexivity; simpl; apply Qle_bool_true; lra.
  - (* both positive *)
    assert (M := round_magnitude_mono v1 v2 P1 L).
    destruct (nearest_double_pos s1 v1 P1) as [[-> R1] | (r1 & -> & R1 & G1)];
      destruct (nearest_double_pos s2 v2 P2) as [[-> R2] | (r2 & -> & R2 & G2)];
      try reflexivity; rewrite R1, R2 in M; try contradiction.
    simpl. apply Qle_bool_true. exact M.
  - (* zero, positive *)
    rewrite (nearest_double_zero s1 v1 Z1).
    destruct (nearest_double_pos s2 v2 P2) as [[-> _] | (r2 & -> & _ & G2)];
      destruct s1; try reflexivity; simpl; apply Qle_bool_true; lra.
  - (* both zero *)
    rewrite (nearest_double_zero s1 v1 Z1), (nearest_double_zero s2 v2 Z2).
    destruct s1, s2; reflexivity.
Qed.

(** ** Agreement with the primitive floats

    The operations of the model, replayed against the binary64 arithmetic
    of the machine on sample inputs: division and multiplication with a
    result that is exact, inexact, subnormal, or past the largest double,
    the constant [LEAGUE_AVG_EFFICIENCY], and the metric before and after
    [round]. *)

Module Replay.

Import Floats.
#[local] Set Warnings "-inexact-float".

Lemma literals :
  float_literal (73 # 10) = of_prim 7.3
  /\ float_literal (79164 # 1000) = of_prim 79.164
  /\ float_literal (1099 # 10) = of_prim 109.9
  /\ float_literal (1 # 10) = of_prim 0.1
  /\ float_literal 72 = of_prim 72
  /\ float_literal 100 = of_prim 100.
Proof. vm_compute. repeat split; reflexivity. Qed.

Lemma division :
  fdiv (of_prim 79.164) (of_prim 7.3) = of_prim (79.164 / 7.3)
  /\ fdiv (of_prim 72) (of_prim 7.3) = of_prim (72 / 7.3)
  /\ fdiv (of_prim 1) (of_prim 3) = of_prim (1 / 3)
  /\ fdiv (of_prim (-75)) (of_prim 7) = of_prim (-75 / 7)
  /\ fdiv (of_prim 0x1p-1074) (of_prim 3) = of_prim (0x1p-1074 / 3)
  /\ fdiv (of_prim 0x1p-1074) (of_prim 2) = of_prim (0x1p-1074 / 2)
  /\ fdiv (of_prim 0x3p-1074) (of_prim 2) = of_prim (0x3p-1074 / 2)
  /\ fdiv (of_prim (-0x1p-1074)) (of_prim 3) = of_prim (-0x1p-1074 / 3)
  /\ fdiv (of_prim 0x1.fffffffffffffp+1023) (of_prim 0.5)
     = of_prim (0x1.fffffffffffffp+1023 / 0.5)
  /\ fdiv (of_prim 1) (of_prim 0x1.fffffffffffffp+1023)
     = of_prim (1 / 0x1.fffffffffffffp+1023)
  /\ fdiv (of_prim infinity) (of_prim infinity) = of_prim (infinity / infinity)
  /\ fdiv (of_prim 1) (of_prim infinity) = of_prim (1 / infinity)
  /\ fdiv (of_prim (-1)) (of_prim infinity) = of_prim (-1 / infinity)
  /\ fdiv (of_prim infinity) (of_prim (-7)) = of_prim (infinity / -7).
Proof. vm_compute. repeat split; reflexivity. Qed.

Lemma multiplication :
  fmul (of_prim 1.1152777777777778) (of_prim 100) = of_prim (1.1152777777777778 * 100)
  /\ fmul (of_prim 0.1) (of_prim 0.1) = of_prim (0.1 * 0.1)
  /\ fmul (of_prim 0x1.fffffffffffffp+1023) (of_prim 2)
     = of_prim (0x1.fffffffffffffp+1023 * 2)
  /\ fmul (of_prim 0x1p-1074) (of_prim 0.5) = of_prim (0x1p-1074 * 0.5)
  /\ fmul (of_prim (-0x1p-1074)) (of_prim 0.25) = of_prim (-0x1p-1074 * 0.25)
  /\ fmul (of_prim infinity) (of_prim 0) = of_prim (infinity * 0)
  /\ fmul (of_prim neg_infinity) (of_prim 100) = of_prim (neg_infinity * 100).
Proof. vm_compute. repeat split; reflexivity. Qed.

Lemma league_avg_efficiency : LEAGUE_AVG_EFFICIENCY = of_prim (72 / 7.3).
Proof. vm_compute. reflexivity. Qed.

(** At a bat speed of 79.164 and a swing length of 7.3 the metric before
    [round] is 109.94999999999999, and [round] makes 109.9 of it; the
    exact quotient would be 109.95. *)
Lemma metric :
  unrounded_power_plus (of_prim 79.164) (of_prim 7.3)
  = of_prim ((79.164 / 7.3) / (72 / 7.3) * 100)
  /\ unrounded_power_plus (of_prim 79.164) (of_prim 7.3)
     = of_prim 109.94999999999999
  /\ calculate_power_plus (Some (of_prim 79.164)) (Some (of_prim 7.3))
     = Some (of_prim 109.9)
  /\ calculate_power_plus (Some (of_prim 75)) (Some (of_prim 7))
     = Some (of_prim 108.6)
  /\ calculate_power_plus (Some (of_prim (-0))) (Some (of_prim 7.3))
     = Some (of_prim (-0)).
Proof. vm_compute. repeat split; reflexivity. Qed.

(** [round(x, 1)] at ties and near them: 0.25 and 0.35 as doubles, 2.5,
    and a value whose tenth is not a double. *)
Lemma rounding :
  py_round (of_prim 0.25) 1 = of_prim 0.2
  /\ py_round (of_prim 0.35) 1 = of_prim 0.3
  /\ py_round (of_prim 0.75) 1 = of_prim 0.8
  /\ py_round (of_prim 2.675) 1 = of_prim 2.7
  /\ py_round (of_prim (-0.04)) 1 = of_prim (-0)
  /\ py_round (of_prim 1e300) 1 = of_prim 1e300
  /\ py_round (of_prim infinity) 1 = of_prim infinity.
Proof. vm_compute. repeat split; reflexivity. Qed.

End Replay.

(** ** Order and equality of floats *)

Lemma Qeq_bool_false (x y : Q) : Qeq_bool x y = false <-> ~ x == y.
Proof.
  split.
  - intros F E. apply Qeq_bool_iff in E. congruence.
  - intros N. destruct (Qeq_bool x y) eqn:E; [|reflexivity].
    apply Qeq_bool_iff in E. contradiction.
Qed.

Lemma Qle_bool_comp (a b c d : Q) :
  a == b -> c == d -> Qle_bool a c = Qle_bool b d.
Proof.
  intros E1 E2. destruct (Qle_bool b d) eqn:C.
  - apply Qle_bool_iff. apply Qle_bool_iff in C. rewrite E1, E2. exact C.
  - destruct (Qle_bool a c) eqn:C'; [|reflexivity].
    apply Qle_bool_iff in C'. rewrite E1, E2 in C'. apply Qle_bool_iff in C'.
    congruence.
Qed.

Lemma Qeq_bool_comp (a b : Q) : a == b -> Qeq_bool a 0 = Qeq_bool b 0.
Proof.
  intros E. destruct (Qeq_bool b 0) eqn:C.
  - apply Qeq_bool_iff. apply Qeq_bool_iff in C. rewrite E. exact C.
  - apply Qeq_bool_false. apply Qeq_bool_false in C. rewrite E. exact C.
Qed.

Lemma Qlt_bool_comp (a b : Q) : a == b -> Qlt_bool a 0 = Qlt_bool b 0.
Proof.
  intros E. unfold Qlt_bool. f_equal. apply Qle_bool_comp; [reflexivity | exact E].
Qed.

Lemma Qlt_bool_false (q : Q) : 0 < q -> Qlt_bool q 0 = false.
Proof.
  intros P. unfold Qlt_bool. apply negb_false_iff, Qle_bool_iff.
  apply Qlt_le_weak, P.
Qed.

Lemma same_value_refl (x : pyfloat) : same_value x x.
Proof. destruct x; simpl; auto. reflexivity. Qed.

Lemma same_value_fval (x y : pyfloat) : same_value x y -> fval x == fval y.
Proof. destruct x, y; simpl; try contradiction; intros; auto; reflexivity. Qed.

Lemma same_value_is_neg (x y : pyfloat) : same_value x y -> is_neg x = is_neg y.
Proof.
  destruct x, y; simpl; try contradiction; intros H; auto.
  apply Qlt_bool_comp. exact H.
Qed.

(** Doubles that are the same give the same quotient, product and
    rounding. *)
Lemma fdiv_comp (x x' y y' : pyfloat) :
  same_value x x' -> same_value y y' -> fdiv x y = fdiv x' y'.
Proof.
  intros Ex Ey.
  pose proof (same_value_fval _ _ Ex) as Vx. pose proof (same_value_fval _ _ Ey) as Vy.
  pose proof (same_value_is_neg _ _ Ex) as Sx. pose proof (same_value_is_neg _ _ Ey) as Sy.
  assert (Zx : Qeq_bool (fval x) 0 = Qeq_bool (fval x') 0) by (apply Qeq_bool_comp, Vx).
  assert (Zy : Qeq_bool (fval y) 0 = Qeq_bool (fval y') 0) by (apply Qeq_bool_comp, Vy).
  assert (N : forall s, nearest_double s (fval x / fval y)
                        = nearest_double s (fval x' / fval y')).
  { intros s. apply nearest_double_comp. rewrite Vx, Vy. reflexivity. }
  destruct x, x'; simpl in Ex; try contradiction;
    destruct y, y'; simpl in Ey; try contradiction; subst;
    unfold fdiv; rewrite ?Sx, ?Sy, ?Zx, ?Zy, ?N; reflexivity.
Qed.

Lemma fmul_comp (x x' y y' : pyfloat) :
  same_value x x' -> same_value y y' -> fmul x y = fmul x' y'.
Proof.
  intros Ex Ey.
  pose proof (same_value_fval _ _ Ex) as Vx. pose proof (same_value_fval _ _ Ey) as Vy.
  pose proof (same_value_is_neg _ _ Ex) as Sx. pose proof (same_value_is_neg _ _ Ey) as Sy.
  assert (Zx : Qeq_bool (fval x) 0 = Qeq_bool (fval x') 0) by (apply Qeq_bool_comp, Vx).
  assert (Zy : Qeq_bool (fval y) 0 = Qeq_bool (fval y') 0) by (apply Qeq_bool_comp, Vy).
  assert (N : forall s, nearest_double s (fval x * fval y)
                        = nearest_double s (fval x' * fval y')).
  { intros s. apply nearest_double_comp. rewrite Vx, Vy. reflexivity. }
  destruct x, x'; simpl in Ex; try contradiction;
    destruct y, y'; simpl in Ey; try contradiction; subst;
    unfold fmul; rewrite ?Sx, ?Sy, ?Zx, ?Zy, ?N; reflexivity.
Qed.

Lemma scale_pos (ndigits : nat) : 0 < inject_Z (10 ^ Z.of_nat ndigits).
Proof.
  replace 0 with (inject_Z 0) by reflexivity.
  rewrite <- Zlt_Qlt. apply Z.pow_pos_nonneg; lia.
Qed.

Lemma decimal_round_comp (n : nat) (q1 q2 : Q) :
  q1 == q2 -> decimal_round n q1 == decimal_round n q2.
Proof.
  intros E. unfold decimal_round.
  set (sc := inject_Z (10 ^ Z.of_nat n)).
  rewrite (round_half_even_comp (q1 * sc) (q2 * sc)); [reflexivity|].
  rewrite E. reflexivity.
Qed.

Lemma decimal_round_mono (n : nat) (q1 q2 : Q) :
  q1 <= q2 -> decimal_round n q1 <= decimal_round n q2.
Proof.
  intros L. unfold decimal_round.
  pose proof (scale_pos n) as P.
  set (sc := inject_Z (10 ^ Z.of_nat n)) in *.
  unfold Qdiv. apply Qmult_le_compat_r.
  - rewrite <- Zle_Qle. apply round_half_even_mono.
    apply Qmult_le_compat_r; [exact L | lra].
  - apply Qlt_le_weak, Qinv_lt_0_compat, P.
Qed.

(** [decimal_round 1 q] is a whole number of tenths, within a twentieth of
    [q]. *)
Lemma decimal_round_one (q : Q) :
  exists k : Z, decimal_round 1 q = inject_Z k / 10
                /\ Qabs (inject_Z k / 10 - q) <= 1 # 20.
Proof.
  exists (round_half_even (q * 10)). split.
  - reflexivity.
  - pose proof (round_half_even_near (q * 10)) as N.
    revert N. set (k := inject_Z (round_half_even (q * 10))).
    intros N. unfold Qdiv. change (/ 10) with (1 # 10).
    apply Qabs_case; intros _;
      revert N; apply Qabs_case; intros; lra.
Qed.

Lemma py_round_fin (q : Q) (n : nat) :
  py_round (Fin q) n = nearest_double (Qlt_bool q 0) (decimal_round n q).
Proof. reflexivity. Qed.

Lemma py_round_comp (x x' : pyfloat) (n : nat) :
  same_value x x' -> py_round x n = py_round x' n.
Proof.
  destruct x, x'; simpl same_value; try contradiction; intros E.
  - reflexivity.
  - subst. reflexivity.
  - reflexivity.
  - rewrite !py_round_fin. rewrite (Qlt_bool_comp q q0 E).
    apply nearest_double_comp, decimal_round_comp, E.
Qed.

(** ** Operations that round an increasing function *)

Lemma pf_le_minus_infinity (y : pyfloat) : y <> NaN -> pf_le (Inf true) y = true.
Proof. destruct y as [|[]| |]; try reflexivity. contradiction. Qed.

Lemma pf_le_plus_infinity (x : pyfloat) : x <> NaN -> pf_le x (Inf false) = true.
Proof. destruct x as [|[]| |]; try reflexivity. contradiction. Qed.

Lemma pf_le_finite (x y : pyfloat) :
  is_finite x = true -> is_finite y = true ->
  pf_le x y = Qle_bool (fval x) (fval y).
Proof. destruct x, y; try discriminate; reflexivity. Qed.

Lemma rounds_through_not_nan (g : Q -> Q) (f : pyfloat -> pyfloat) (x : pyfloat) :
  rounds_through g f -> x <> NaN -> f x <> NaN.
Proof.
  intros (_ & I & F) N. destruct x as [|n| |q].
  - contradiction.
  - rewrite I. discriminate.
  - destruct (F NegZero eq_refl) as (s & ->). apply nearest_double_not_nan.
  - destruct (F (Fin q) eq_refl) as (s & ->). apply nearest_double_not_nan.
Qed.

Lemma rounds_through_mono (g : Q -> Q) (f : pyfloat -> pyfloat) :
  rounds_through g f ->
  (forall a b, a <= b -> g a <= g b) ->
  forall x1 x2, pf_le x1 x2 = true -> pf_le (f x1) (f x2) = true.
Proof.
  intros R G x1 x2 L.
  assert (N1 : x1 <> NaN) by (intros ->; discriminate L).
  assert (N2 : x2 <> NaN) by (intros ->; destruct x1 as [|[]| |]; discriminate L).
  pose proof (rounds_through_not_nan g f x1 R N1) as M1.
  pose proof (rounds_through_not_nan g f x2 R N2) as M2.
  destruct R as (_ & I & F).
  destruct x1 as [|[|]| |q1].
  - contradiction.
  - rewrite I. apply pf_le_minus_infinity, M2.
  - destruct x2 as [|[|]| |q2]; try discriminate L.
    rewrite !I. reflexivity.
  - destruct x2 as [|[|]| |q2]; try discriminate L.
    + rewrite I. apply pf_le_plus_infinity, M1.
    + destruct (F NegZero eq_refl) as (s1 & ->).
      apply nearest_double_mono, G, Qle_refl.
    + destruct (F NegZero eq_refl) as (s1 & ->).
      destruct (F (Fin q2) eq_refl) as (s2 & ->).
      apply nearest_double_mono, G. apply Qle_bool_iff. exact L.
  - destruct x2 as [|[|]| |q2]; try discriminate L.
    + rewrite I. apply pf_le_plus_infinity, M1.
    + destruct (F NegZero eq_refl) as (s2 & ->).
      destruct (F (Fin q1) eq_refl) as (s1 & ->).
      apply nearest_double_mono, G. apply Qle_bool_iff. exact L.
    + destruct (F (Fin q1) eq_refl) as (s1 & ->).
      destruct (F (Fin q2) eq_refl) as (s2 & ->).
      apply nearest_double_mono, G. apply Qle_bool_iff. exact L.
Qed.

Lemma fdiv_rounds_through (qy : Q) :
  0 < qy -> rounds_through (fun v => v / qy) (fun x => fdiv x (Fin qy)).
Proof.
  intros P.
  assert (Z : Qeq_bool qy 0 = false) by (apply Qeq_bool_false; lra).
  pose proof (Qlt_bool_false qy P) as S.
  split; [reflexivity|]. split.
  - intros n. simpl. rewrite S. destruct n; reflexivity.
  - intros [|n| |q] H; try discriminate H; unfold fdiv; cbn [fval];
      rewrite Z; eexists; reflexivity.
Qed.

Lemma fmul_rounds_through (qy : Q) :
  0 < qy -> rounds_through (fun v => v * qy) (fun x => fmul x (Fin qy)).
Proof.
  intros P.
  assert (Z : Qeq_bool qy 0 = false) by (apply Qeq_bool_false; lra).
  pose proof (Qlt_bool_false qy P) as S.
  split; [reflexivity|]. split.
  - intros n. simpl. rewrite Z, S. destruct n; reflexivity.
  - intros [|n| |q] H; try discriminate H; unfold fmul; cbn [fval];
      eexists; reflexivity.
Qed.

Lemma py_round_rounds_through (n : nat) :
  rounds_through (decimal_round n) (fun x => py_round x n).
Proof.
  split; [reflexivity|]. split; [reflexivity|].
  intros [|m| |q] H; try discriminate H.
  - exists true. cbn [py_round fval].
    assert (E : decimal_round n 0 == 0).
    { unfold decimal_round.
      rewrite (round_half_even_comp _ (inject_Z 0)) by apply Qmult_0_l.
      rewrite round_half_even_Z. unfold Qdiv. apply Qmult_0_l. }
    rewrite (nearest_double_zero true _ E). reflexivity.
  - eexists. apply py_round_fin.
Qed.

(** ** Metric calculator *)

Lemma league_avg_efficiency_positive :
  exists q, LEAGUE_AVG_EFFICIENCY = Fin q /\ 0 < q.
Proof.
  exists (fval LEAGUE_AVG_EFFICIENCY). split; vm_compute; reflexivity.
Qed.

Lemma hundred : float_literal 100 = Fin 100.
Proof. vm_compute. reflexivity. Qed.

(** The guard of [calculate_power_plus] lets through exactly the pairs of
    floats, neither NaN, whose second component is not a zero. *)
Lemma calculate_power_plus_guard (bat_speed swing_length : option pyfloat) :
  py_eq_zero swing_length || isna swing_length || isna bat_speed = false <->
  exists b s, bat_speed = Some b /\ swing_length = Some s
              /\ b <> NaN /\ s <> NaN /\ py_eq_zero (Some s) = false.
Proof.
  split.
  - intros G.
    apply orb_false_iff in G. destruct G as [G Gb].
    apply orb_false_iff in G. destruct G as [Gz Gs].
    destruct bat_speed as [b|]; [|discriminate].
    destruct swing_length as [s|]; [|discriminate].
    exists b, s. repeat split; try assumption.
    + intros ->. discriminate Gb.
    + intros ->. discriminate Gs.
  - intros (b & s & -> & -> & Nb & Ns & Z). rewrite Z.
    destruct b; [contradiction| | |]; destruct s; try contradiction; reflexivity.
Qed.

Lemma calculate_power_plus_value (b s : pyfloat) :
  b <> NaN -> s <> NaN -> py_eq_zero (Some s) = false ->
  calculate_power_plus (Some b) (Some s)
  = Some (py_round (unrounded_power_plus b s) 1).
Proof.
  intros Nb Ns Z. unfold calculate_power_plus. rewrite Z.
  destruct b; [contradiction| | |]; destruct s; try contradiction; reflexivity.
Qed.

Lemma calculate_power_plus_none (bat_speed swing_length : option pyfloat) :
  calculate_power_plus bat_speed swing_length = None <->
  py_eq_zero swing_length || isna swing_length || isna bat_speed = true.
Proof.
  unfold calculate_power_plus.
  destruct (py_eq_zero swing_length || isna swing_length || isna bat_speed) eqn:G.
  - tauto.
  - apply calculate_power_plus_guard in G.
    destruct G as (b & s & -> & -> & _). split; discriminate.
Qed.

(** C2, as amended: [calculate_power_plus] returns
    [(bat_speed / swing_length) / (72.0 / 7.3) * 100], computed in binary64
    and rounded to one decimal place, if and only if both inputs are
    floats that are not NaN and [swing_length] is not zero, a negative
    [swing_length] included; in every other case (an input null or NaN, or
    [swing_length] equal to zero) it returns null, never a sentinel
    zero. *)
Theorem calculate_power_plus_defined_iff_nonzero :
  forall bat_speed swing_length : option pyfloat,
    (forall b s, bat_speed = Some b -> swing_length = Some s ->
                 b <> NaN -> s <> NaN -> py_eq_zero (Some s) = false ->
                 calculate_power_plus bat_speed swing_length
                 = Some (py_round
                           (fmul (fdiv (fdiv b s)
                                       (fdiv (float_literal 72)
                                             (float_literal (73 # 10))))
                                 (float_literal 100))
                           1))
    /\ (calculate_power_plus bat_speed swing_length <> None <->
        exists b s, bat_speed = Some b /\ swing_length = Some s
                    /\ b <> NaN /\ s <> NaN /\ py_eq_zero (Some s) = false)
    /\ (isna bat_speed = true \/ isna swing_length = true
        \/ py_eq_zero swing_length = true ->
        calculate_power_plus bat_speed swing_length = None).
Proof.
  intros bat_speed swing_length. split; [|split].
  - intros b s -> -> Nb Ns Z. apply calculate_power_plus_value; assumption.
  - rewrite <- calculate_power_plus_guard.
    rewrite calculate_power_plus_none.
    destruct (py_eq_zero swing_length || isna swing_length || isna bat_speed);
      split; congruence.
  - intros H. apply calculate_power_plus_none.
    destruct H as [H | [H | H]]; rewrite H.
    + apply orb_true_r.
    + rewrite orb_true_r. reflexivity.
    + reflexivity.
Qed.

(** C2, as stated, fails: a [swing_length] of -7 is not above zero, yet
    [calculate_power_plus 75 (-7)] is -108.6 and not null. *)
Lemma calculate_power_plus_negative_length :
  pf_gt_zero (Fin (-7)) = false /\
  calculate_power_plus (Some (Fin 75)) (Some (Fin (-7)))
  = Some (float_literal (-1086 # 10)) /\
  calculate_power_plus (Some (Fin 75)) (Some (Fin (-7))) <> None.
Proof.
  split; [reflexivity|]. split.
  - vm_compute. reflexivity.
  - vm_compute. discriminate.
Qed.

(** For a swing length that is finite and above zero, the metric before
    [round] and the result are increasing in the bat speed. *)
Lemma unrounded_power_plus_mono (qs : Q) (b1 b2 : pyfloat) :
  0 < qs -> pf_le b1 b2 = true ->
  pf_le (unrounded_power_plus b1 (Fin qs)) (unrounded_power_plus b2 (Fin qs)) = true.
Proof.
  intros Ps L. unfold unrounded_power_plus. rewrite hundred.
  destruct league_avg_efficiency_positive as (qe & -> & Pe).
  apply (rounds_through_mono _ _ (fmul_rounds_through 100 ltac:(reflexivity))).
  { intros a b H. apply Qmult_le_compat_r; [exact H | discriminate]. }
  apply (rounds_through_mono _ _ (fdiv_rounds_through qe Pe)).
  { intros a b H. apply Qmult_le_compat_r; [exact H|].
    apply Qlt_le_weak, Qinv_lt_0_compat, Pe. }
  apply (rounds_through_mono _ _ (fdiv_rounds_through qs Ps)).
  { intros a b H. apply Qmult_le_compat_r; [exact H|].
    apply Qlt_le_weak, Qinv_lt_0_compat, Ps. }
  exact L.
Qed.

Lemma unrounded_power_plus_not_nan (qs : Q) (b : pyfloat) :
  0 < qs -> b <> NaN -> unrounded_power_plus b (Fin qs) <> NaN.
Proof.
  intros Ps N. unfold unrounded_power_plus. rewrite hundred.
  destruct league_avg_efficiency_positive as (qe & -> & Pe).
  apply (rounds_through_not_nan _ _ _ (fmul_rounds_through 100 ltac:(reflexivity))).
  apply (rounds_through_not_nan _ _ _ (fdiv_rounds_through qe Pe)).
  apply (rounds_through_not_nan _ _ _ (fdiv_rounds_through qs Ps)).
  exact N.
Qed.

Lemma positive_not_zero (qs : Q) : 0 < qs -> py_eq_zero (Some (Fin qs)) = false.
Proof. intros P. apply Qeq_bool_false. lra. Qed.

(** Equal inputs give equal results, for every input. *)
Lemma calculate_power_plus_comp (b1 b2 s1 s2 : option pyfloat) :
  same_float b1 b2 -> same_float s1 s2 ->
  calculate_power_plus b1 s1 = calculate_power_plus b2 s2.
Proof.
  intros Eb Es.
  destruct b1 as [b1|], b2 as [b2|]; simpl in Eb; try contradiction;
    destruct s1 as [s1|], s2 as [s2|]; simpl in Es; try contradiction.
  - assert (G : py_eq_zero (Some s1) || isna (Some s1) || isna (Some b1)
                = py_eq_zero (Some s2) || isna (Some s2) || isna (Some b2)).
    { destruct b1, b2; simpl in Eb; try contradiction;
        destruct s1, s2; simpl in Es; try contradiction; try reflexivity;
        simpl; rewrite (Qeq_bool_comp _ _ Es); reflexivity. }
    unfold calculate_power_plus. rewrite G.
    destruct (py_eq_zero (Some s2) || isna (Some s2) || isna (Some b2));
      [reflexivity|].
    f_equal. apply py_round_comp.
    rewrite (fdiv_comp b1 b2 s1 s2 Eb Es). apply same_value_refl.
  - reflexivity.
  - unfold calculate_power_plus. simpl. rewrite !orb_true_r. reflexivity.
  - reflexivity.
Qed.

(** What [round(x, 1)] makes of a float that is not NaN. *)
Lemma py_round_one_decimal (y : pyfloat) :
  y <> NaN ->
  (exists n, y = Inf n /\ py_round y 1 = Inf n)
  \/ exists k : Z,
      py_round y 1 = nearest_double (is_neg y) (inject_Z k / 10)
      /\ Qabs (inject_Z k / 10 - fval y) <= 1 # 20.
Proof.
  intros N. destruct y as [|n| |q].
  - contradiction.
  - left. exists n. split; reflexivity.
  - right. exists 0%Z. split; [reflexivity|]. discriminate.
  - right. destruct (decimal_round_one q) as (k & E & B).
    exists k. split; [|exact B]. rewrite py_round_fin, E. reflexivity.
Qed.

(** C9, as amended: for a fixed [swing_length] that is finite and above
    zero and every [bat_speed] that is not NaN, [calculate_power_plus] is
    deterministic (equal inputs give equal results); its result is the
    double nearest to a whole number of tenths that lies within a
    twentieth of the metric before [round], or the infinity that metric
    is; and it is monotonically increasing in [bat_speed]. *)
Theorem calculate_power_plus_deterministic_rounded_monotone :
  forall qs : Q, 0 < qs ->
    (forall b1 b2 s', same_float b1 b2 -> same_float (Some (Fin qs)) s' ->
       calculate_power_plus b1 (Some (Fin qs)) = calculate_power_plus b2 s')
    /\ (forall b, b <> NaN ->
          calculate_power_plus (Some b) (Some (Fin qs))
          = Some (py_round (unrounded_power_plus b (Fin qs)) 1)
          /\ ((exists n, unrounded_power_plus b (Fin qs) = Inf n
                         /\ py_round (unrounded_power_plus b (Fin qs)) 1 = Inf n)
              \/ exists k : Z,
                  py_round (unrounded_power_plus b (Fin qs)) 1
                  = nearest_double (is_neg (unrounded_power_plus b (Fin qs)))
                                   (inject_Z k / 10)
                  /\ Qabs (inject_Z k / 10
                           - fval (unrounded_power_plus b (Fin qs))) <= 1 # 20))
    /\ (forall b1 b2, pf_le b1 b2 = true ->
          exists p1 p2,
            calculate_power_plus (Some b1) (Some (Fin qs)) = Some p1
            /\ calculate_power_plus (Some b2) (Some (Fin qs)) = Some p2
            /\ pf_le p1 p2 = true).
Proof.
  intros qs Ps. pose proof (positive_not_zero qs Ps) as Z.
  split; [|split].
  - intros b1 b2 s' Eb Es. apply calculate_power_plus_comp; assumption.
  - intros b N. split.
    + apply calculate_power_plus_value; [exact N | discriminate | exact Z].
    + apply py_round_one_decimal, unrounded_power_plus_not_nan; assumption.
  - intros b1 b2 L.
    assert (N1 : b1 <> NaN) by (intros ->; discriminate L).
    assert (N2 : b2 <> NaN) by (intros ->; destruct b1 as [|[]| |]; discriminate L).
    exists (py_round (unrounded_power_plus b1 (Fin qs)) 1),
           (py_round (unrounded_power_plus b2 (Fin qs)) 1).
    split; [apply calculate_power_plus_value; [exact N1 | discriminate | exact Z]|].
    split; [apply calculate_power_plus_value; [exact N2 | discriminate | exact Z]|].
    apply (rounds_through_mono _ _ (py_round_rounds_through 1)).
    { apply decimal_round_mono. }
    apply unrounded_power_plus_mono; assumption.
Qed.

Lemma calculate_power_plus_deterministic_rounded_monotone_witness :
  0 < 7 /\
  exists p1 p2,
    calculate_power_plus (Some (Fin 70)) (Some (Fin 7)) = Some p1
    /\ calculate_power_plus (Some (Fin 75)) (Some (Fin 7)) = Some p2
    /\ pf_le p1 p2 = true.
Proof.
  split; [reflexivity|].
  apply (calculate_power_plus_deterministic_rounded_monotone 7); reflexivity.
Defined.

(** C9, as stated, fails: a [swing_length] of plus infinity is above zero
    and a [bat_speed] of 1 is below one of plus infinity, yet the results
    are 0.0 and NaN; NaN is no number with one decimal place, and 0.0 is
    not at or below it.  With finite inputs the result can be an
    infinity, which has no decimal place either: at 1e308 over 1e-308. *)
Lemma calculate_power_plus_not_monotone_at_infinity :
  pf_gt_zero (Inf false) = true
  /\ pf_le (Fin 1) (Inf false) = true
  /\ calculate_power_plus (Some (Fin 1)) (Some (Inf false)) = Some (Fin 0)
  /\ calculate_power_plus (Some (Inf false)) (Some (Inf false)) = Some NaN
  /\ pf_le (Fin 0) NaN = false
  /\ pf_gt_zero (float_literal (1 # 10 ^ 308)) = true
  /\ calculate_power_plus (Some (float_literal (inject_Z (10 ^ 308))))
                          (Some (float_literal (1 # 10 ^ 308)))
     = Some (Inf false).
Proof.
  repeat split; vm_compute; reflexivity.
Qed.

(** ** Grades *)

Lemma pf_ge_true (q t : Q) : t <= q -> pf_ge (Fin q) t = true.
Proof. intros L. apply Qle_bool_iff. exact L. Qed.

Lemma pf_ge_false (q t : Q) : q < t -> pf_ge (Fin q) t = false.
Proof.
  intros L. simpl. destruct (Qle_bool t q) eqn:E; [|reflexivity].
  apply Qle_bool_iff in E. exfalso. apply (Qlt_not_le _ _ L E).
Qed.

(** The grade of a number, band by band. *)
Lemma get_grade_bands (q : Q) :
  (110 <= q -> get_grade (Some (Fin q)) = "Elite")
  /\ (105 <= q /\ q < 110 -> get_grade (Some (Fin q)) = "Above Average")
  /\ (95 <= q /\ q < 105 -> get_grade (Some (Fin q)) = "Average")
  /\ (90 <= q /\ q < 95 -> get_grade (Some (Fin q)) = "Below Average")
  /\ (q < 90 -> get_grade (Some (Fin q)) = "Poor").
Proof.
  unfold get_grade. cbn [isna].
  repeat split.
  - intros H. rewrite pf_ge_true by exact H. reflexivity.
  - intros [H1 H2].
    rewrite (pf_ge_false q 110), (pf_ge_true q 105) by assumption. reflexivity.
  - intros [H1 H2].
    rewrite (pf_ge_false q 110), (pf_ge_false q 105), (pf_ge_true q 95);
      try assumption; try lra. reflexivity.
  - intros [H1 H2].
    rewrite (pf_ge_false q 110), (pf_ge_false q 105), (pf_ge_false q 95),
      (pf_ge_true q 90); try assumption; try lra. reflexivity.
  - intros H.
    rewrite (pf_ge_false q 110), (pf_ge_false q 105), (pf_ge_false q 95),
      (pf_ge_false q 90); try assumption; try lra. reflexivity.
Qed.

(** C3: [get_grade] tests the thresholds 110, 105, 95, 90 from the highest
    down, each inclusive; at the boundaries 110.0 is Elite, 109.9 and 105.0
    are Above Average, 104.9 and 95.0 are Average, 94.9 and 90.0 are Below
    Average, 89.9 is Poor, for the decimals and for the doubles nearest to
    them; plus infinity is Elite, minus infinity and minus zero are Poor;
    null and NaN give "N/A". *)
Theorem get_grade_thresholds :
  (forall q : Q,
      (110 <= q -> get_grade (Some (Fin q)) = "Elite")
      /\ (105 <= q /\ q < 110 -> get_grade (Some (Fin q)) = "Above Average")
      /\ (95 <= q /\ q < 105 -> get_grade (Some (Fin q)) = "Average")
      /\ (90 <= q /\ q < 95 -> get_grade (Some (Fin q)) = "Below Average")
      /\ (q < 90 -> get_grade (Some (Fin q)) = "Poor"))
  /\ get_grade (Some (Fin 110)) = "Elite"
  /\ get_grade (Some (Fin (1099 # 10))) = "Above Average"
  /\ get_grade (Some (Fin 105)) = "Above Average"
  /\ get_grade (Some (Fin (1049 # 10))) = "Average"
  /\ get_grade (Some (Fin 95)) = "Average"
  /\ get_grade (Some (Fin (949 # 10))) = "Below Average"
  /\ get_grade (Some (Fin 90)) = "Below Average"
  /\ get_grade (Some (Fin (899 # 10))) = "Poor"
  /\ get_grade None = "N/A"
  /\ get_grade (Some NaN) = "N/A"
  /\ get_grade (Some (float_literal 110)) = "Elite"
  /\ get_grade (Some (float_literal (1099 # 10))) = "Above Average"
  /\ get_grade (Some (float_literal 105)) = "Above Average"
  /\ get_grade (Some (float_literal (1049 # 10))) = "Average"
  /\ get_grade (Some (float_literal 95)) = "Average"
  /\ get_grade (Some (float_literal (949 # 10))) = "Below Average"
  /\ get_grade (Some (float_literal 90)) = "Below Average"
  /\ get_grade (Some (float_literal (899 # 10))) = "Poor"
  /\ get_grade (Some (Inf false)) = "Elite"
  /\ get_grade (Some (Inf true)) = "Poor"
  /\ get_grade (Some NegZero) = "Poor".
Proof.
  split; [exact get_grade_bands|].
  repeat split; vm_compute; reflexivity.
Qed.

(** A float that is not NaN gets one of the five labels. *)
Lemma get_grade_label (x : pyfloat) :
  x <> NaN ->
  In (get_grade (Some x))
     ["Elite"; "Above Average"; "Average"; "Below Average"; "Poor"].
Proof.
  intros N. unfold get_grade.
  assert (I : isna (Some x) = false) by (destruct x; [contradiction|..]; reflexivity).
  rewrite I.
  destruct (pf_ge x 110); [simpl; auto|].
  destruct (pf_ge x 105); [simpl; auto|].
  destruct (pf_ge x 95); [simpl; auto|].
  destruct (pf_ge x 90); simpl; auto 6.
Qed.

Lemma get_grade_number_not_na (x : pyfloat) :
  x <> NaN -> get_grade (Some x) <> "N/A".
Proof.
  intros N. pose proof (get_grade_label x N) as H. intros E. rewrite E in H.
  simpl in H. intuition discriminate.
Qed.

Lemma get_grade_na_iff (x : option pyfloat) :
  get_grade x = "N/A" <-> isna x = true.
Proof.
  destruct x as [x|]; [|split; reflexivity].
  destruct x as [|n| |q]; [split; reflexivity|..];
    (split; [intros H; exfalso; revert H; apply get_grade_number_not_na; discriminate
            | discriminate]).
Qed.

Lemma get_grade_elite_iff (x : pyfloat) :
  get_grade (Some x) = "Elite" <-> pf_ge x 110 = true.
Proof.
  destruct x as [|n| |q].
  - split; discriminate.
  - destruct n; split; (reflexivity || discriminate).
  - split; discriminate.
  - unfold get_grade. cbn [isna].
    destruct (pf_ge (Fin q) 110); [split; reflexivity|].
    destruct (pf_ge (Fin q) 105); [split; discriminate|].
    destruct (pf_ge (Fin q) 95); [split; discriminate|].
    destruct (pf_ge (Fin q) 90); split; discriminate.
Qed.

Lemma pf_ge_mono (q1 q2 t : Q) :
  q1 <= q2 -> pf_ge (Fin q1) t = true -> pf_ge (Fin q2) t = true.
Proof.
  intros L H. apply Qle_bool_iff in H. apply Qle_bool_iff.
  apply (Qle_trans _ q1); assumption.
Qed.

(** X11: a higher metric never gets a lower grade. *)
Theorem get_grade_monotone :
  forall q1 q2 : Q,
    q1 <= q2 ->
    (grade_rank (get_grade (Some (Fin q1)))
     <= grade_rank (get_grade (Some (Fin q2))))%nat.
Proof.
  intros q1 q2 L. unfold get_grade. cbn [isna].
  pose proof (pf_ge_mono q1 q2 110 L) as M1.
  pose proof (pf_ge_mono q1 q2 105 L) as M2.
  pose proof (pf_ge_mono q1 q2 95 L) as M3.
  pose proof (pf_ge_mono q1 q2 90 L) as M4.
  destruct (pf_ge (Fin q1) 110), (pf_ge (Fin q2) 110),
           (pf_ge (Fin q1) 105), (pf_ge (Fin q2) 105),
           (pf_ge (Fin q1) 95), (pf_ge (Fin q2) 95),
           (pf_ge (Fin q1) 90), (pf_ge (Fin q2) 90);
    try discriminate (M1 eq_refl); try discriminate (M2 eq_refl);
    try discriminate (M3 eq_refl); try discriminate (M4 eq_refl);
    vm_compute; lia.
Qed.

Lemma get_grade_monotone_witness :
  100 <= 111
  /\ (grade_rank (get_grade (Some (Fin 100)))
      <= grade_rank (get_grade (Some (Fin 111))))%nat.
Proof.
  split; [discriminate|].
  apply (get_grade_monotone 100 111). discriminate.
Defined.

(** ** Metric and grade together *)

(** A quotient is NaN when an operand is, when both are infinite, or when
    the divisor is a zero. *)
Lemma fdiv_nan (x y : pyfloat) :
  fdiv x y = NaN ->
  x = NaN \/ y = NaN
  \/ (exists n m, x = Inf n /\ y = Inf m)
  \/ py_eq_zero (Some y) = true.
Proof.
  intros E.
  destruct x as [|n| |qx]; [tauto|..]; destruct y as [|m| |qy]; try tauto;
    try (right; right; left; exists n, m; split; reflexivity);
    try (right; right; right; reflexivity);
    try discriminate E; simpl in E.
  - destruct m; discriminate E.
  - destruct (Qeq_bool qy 0) eqn:Z.
    + right. right. right. exact Z.
    + exfalso. revert E. apply nearest_double_not_nan.
  - destruct (xorb (Qlt_bool qx 0) m); discriminate E.
  - destruct (Qeq_bool qy 0) eqn:Z.
    + right. right. right. exact Z.
    + exfalso. revert E. apply nearest_double_not_nan.
Qed.

Lemma calculate_power_plus_nan (bat_speed swing_length : option pyfloat) :
  calculate_power_plus bat_speed swing_length = Some NaN <->
  exists n m, bat_speed = Some (Inf n) /\ swing_length = Some (Inf m).
Proof.
  split.
  - intros E.
    destruct (py_eq_zero swing_length || isna swing_length || isna bat_speed) eqn:G.
    { apply calculate_power_plus_none in G. congruence. }
    apply calculate_power_plus_guard in G.
    destruct G as (b & s & -> & -> & Nb & Ns & Z).
    rewrite (calculate_power_plus_value b s Nb Ns Z) in E.
    injection E as E.
    assert (U : unrounded_power_plus b s = NaN).
    { destruct (unrounded_power_plus b s) as [|n| |q] eqn:U;
        [reflexivity | discriminate E | discriminate E |].
      exfalso. revert E. rewrite py_round_fin. apply nearest_double_not_nan. }
    unfold unrounded_power_plus in U. rewrite hundred in U.
    destruct league_avg_efficiency_positive as (qe & Ee & Pe). rewrite Ee in U.
    assert (D2 : fdiv (fdiv b s) (Fin qe) = NaN).
    { destruct (fdiv (fdiv b s) (Fin qe)) as [|n| |q] eqn:D; [reflexivity|..];
        exfalso; revert U;
        apply (rounds_through_not_nan _ _ _
                 (fmul_rounds_through 100 ltac:(reflexivity))); discriminate. }
    assert (D1 : fdiv b s = NaN).
    { destruct (fdiv b s) as [|n| |q] eqn:D; [reflexivity|..];
        exfalso; revert D2;
        apply (rounds_through_not_nan _ _ _ (fdiv_rounds_through qe Pe));
        discriminate. }
    destruct (fdiv_nan b s D1) as [H | [H | [(n & m & -> & ->) | H]]];
      try contradiction; try congruence.
    exists n, m. split; reflexivity.
  - intros (n & m & -> & ->). destruct n, m; vm_compute; reflexivity.
Qed.

(** When the metric is null or NaN. *)
Lemma metric_missing_iff (bat_speed swing_length : option pyfloat) :
  (get_grade (calculate_power_plus bat_speed swing_length) = "N/A" <->
   isna (calculate_power_plus bat_speed swing_length) = true)
  /\ (isna (calculate_power_plus bat_speed swing_length) = true <->
      isna bat_speed = true \/ isna swing_length = true
      \/ py_eq_zero swing_length = true
      \/ exists n m, bat_speed = Some (Inf n) /\ swing_length = Some (Inf m)).
Proof.
  split; [apply get_grade_na_iff|].
  assert (N : calculate_power_plus bat_speed swing_length = None <->
              isna bat_speed = true \/ isna swing_length = true
              \/ py_eq_zero swing_length = true).
  { rewrite calculate_power_plus_none, !orb_true_iff. tauto. }
  assert (I : isna (calculate_power_plus bat_speed swing_length) = true <->
              calculate_power_plus bat_speed swing_length = None
              \/ calculate_power_plus bat_speed swing_length = Some NaN).
  { destruct (calculate_power_plus bat_speed swing_length) as [[|n| |q]|];
      simpl; split; try tauto; try discriminate;
      intros [H | H]; discriminate H. }
  rewrite I, N, calculate_power_plus_nan. tauto.
Qed.

(** X10: the grade of a computed metric is "N/A" exactly when the metric is
    null or NaN, that is when an input is null or NaN, the swing length is
    a zero, or both inputs are infinite; the metric is NaN in the last of
    these cases and in no other. *)
Theorem grade_of_power_plus_na_iff :
  forall bat_speed swing_length : option pyfloat,
    (get_grade (calculate_power_plus bat_speed swing_length) = "N/A" <->
     isna bat_speed = true \/ isna swing_length = true
     \/ py_eq_zero swing_length = true
     \/ exists n m, bat_speed = Some (Inf n) /\ swing_length = Some (Inf m))
    /\ (get_grade (calculate_power_plus bat_speed swing_length) = "N/A" <->
        isna (calculate_power_plus bat_speed swing_length) = true)
    /\ (calculate_power_plus bat_speed swing_length = Some NaN <->
        exists n m, bat_speed = Some (Inf n) /\ swing_length = Some (Inf m))
    /\ (calculate_power_plus bat_speed swing_length = None <->
        isna bat_speed = true \/ isna swing_length = true
        \/ py_eq_zero swing_length = true).
Proof.
  intros bat_speed swing_length.
  assert (N : calculate_power_plus bat_speed swing_length = None <->
              isna bat_speed = true \/ isna swing_length = true
              \/ py_eq_zero swing_length = true).
  { rewrite calculate_power_plus_none, !orb_true_iff. tauto. }
  split; [|split; [|split]].
  - destruct (metric_missing_iff bat_speed swing_length) as [G I].
    rewrite G. exact I.
  - apply get_grade_na_iff.
  - apply calculate_power_plus_nan.
  - exact N.
Qed.

(** ** Text *)

Lemma prefix_app (p s : string) :
  String.prefix p s = true <-> exists after, s = p ++ after.
Proof.
  revert s. induction p as [|a p IH]; intros s; simpl.
  - split; [intros _; exists s; reflexivity | intros _; destruct s; reflexivity].
  - destruct s as [|b s].
    + split; [discriminate | intros (after & E); discriminate E].
    + simpl. destruct (ascii_dec a b) as [->|N].
      * rewrite IH. split; intros (after & E); exists after.
        -- rewrite E. reflexivity.
        -- injection E as E. exact E.
      * split; [discriminate|]. intros (after & E). injection E as E1 E2.
        congruence.
Qed.

(** [py_in] decides [occurs]. *)
Lemma py_in_occurs (pat s : string) :
  py_in pat s = true <-> occurs pat s.
Proof.
  unfold occurs. induction s as [|c s IH]; cbn [py_in].
  - rewrite orb_false_r, prefix_app. split.
    + intros (after & E). exists EmptyString, after. exact E.
    + intros (before & after & E). destruct before as [|b before].
      * exists after. exact E.
      * discriminate E.
  - rewrite orb_true_iff, prefix_app, IH. split.
    + intros [(after & E) | (before & after & E)].
      * exists EmptyString, after. exact E.
      * exists (String c before), after. simpl. rewrite E. reflexivity.
    + intros (before & after & E). destruct before as [|b before].
      * left. exists after. exact E.
      * right. injection E as _ E. exists before, after. exact E.
Qed.

Lemma py_in_not_occurs (pat s : string) :
  py_in pat s = false <-> ~ occurs pat s.
Proof.
  rewrite <- py_in_occurs. destruct (py_in pat s); split; congruence.
Qed.

(** ** Letter case on ASCII text *)

Lemma lower_ascii_idempotent (c : ascii) :
  lower_ascii (lower_ascii c) = lower_ascii c.
Proof.
  destruct c as [[] [] [] [] [] [] [] []]; reflexivity.
Qed.

Lemma upper_ascii_idempotent (c : ascii) :
  upper_ascii (upper_ascii c) = upper_ascii c.
Proof.
  destruct c as [[] [] [] [] [] [] [] []]; reflexivity.
Qed.

Lemma lower_upper_ascii (c : ascii) :
  lower_ascii (upper_ascii c) = lower_ascii c.
Proof.
  destruct c as [[] [] [] [] [] [] [] []]; reflexivity.
Qed.

Lemma upper_lower_ascii (c : ascii) :
  upper_ascii (lower_ascii c) = upper_ascii c.
Proof.
  destruct c as [[] [] [] [] [] [] [] []]; reflexivity.
Qed.

Lemma lower_ascii_below_128 (c : ascii) :
  (nat_of_ascii (lower_ascii c) <? 128)%nat = (nat_of_ascii c <? 128)%nat.
Proof.
  destruct c as [[] [] [] [] [] [] [] []]; reflexivity.
Qed.

Lemma upper_ascii_below_128 (c : ascii) :
  (nat_of_ascii (upper_ascii c) <? 128)%nat = (nat_of_ascii c <? 128)%nat.
Proof.
  destruct c as [[] [] [] [] [] [] [] []]; reflexivity.
Qed.

Lemma ascii_lower_idempotent (s : string) :
  ascii_lower (ascii_lower s) = ascii_lower s.
Proof.
  induction s as [|c s IH]; simpl; [reflexivity|].
  rewrite lower_ascii_idempotent, IH. reflexivity.
Qed.

Lemma ascii_upper_idempotent (s : string) :
  ascii_upper (ascii_upper s) = ascii_upper s.
Proof.
  induction s as [|c s IH]; simpl; [reflexivity|].
  rewrite upper_ascii_idempotent, IH. reflexivity.
Qed.

Lemma ascii_lower_upper (s : string) :
  ascii_lower (ascii_upper s) = ascii_lower s.
Proof.
  induction s as [|c s IH]; simpl; [reflexivity|].
  rewrite lower_upper_ascii, IH. reflexivity.
Qed.

Lemma ascii_upper_lower (s : string) :
  ascii_upper (ascii_lower s) = ascii_upper s.
Proof.
  induction s as [|c s IH]; simpl; [reflexivity|].
  rewrite upper_lower_ascii, IH. reflexivity.
Qed.

Lemma is_ascii_lower (s : string) : is_ascii (ascii_lower s) = is_ascii s.
Proof.
  induction s as [|c s IH]; simpl; [reflexivity|].
  rewrite lower_ascii_below_128, IH. reflexivity.
Qed.

Lemma is_ascii_upper (s : string) : is_ascii (ascii_upper s) = is_ascii s.
Proof.
  induction s as [|c s IH]; simpl; [reflexivity|].
  rewrite upper_ascii_below_128, IH. reflexivity.
Qed.

(** What [str.lower] and [str.upper] do on ASCII text is all that is
    assumed of them. *)
Section Case.

Variable lower : string -> string.
Variable upper : string -> string.
Hypothesis lower_on_ascii : forall s, is_ascii s = true -> lower s = ascii_lower s.
Hypothesis upper_on_ascii : forall s, is_ascii s = true -> upper s = ascii_upper s.

Lemma lower_upper (s : string) :
  is_ascii s = true -> lower (upper s) = lower s.
Proof.
  intros A. rewrite (upper_on_ascii s A).
  rewrite lower_on_ascii by (rewrite is_ascii_upper; exact A).
  rewrite (lower_on_ascii s A). apply ascii_lower_upper.
Qed.

Lemma upper_lower (s : string) :
  is_ascii s = true -> upper (lower s) = upper s.
Proof.
  intros A. rewrite (lower_on_ascii s A).
  rewrite upper_on_ascii by (rewrite is_ascii_lower; exact A).
  rewrite (upper_on_ascii s A). apply ascii_upper_lower.
Qed.

Lemma lower_idempotent (s : string) :
  is_ascii s = true -> lower (lower s) = lower s.
Proof.
  intros A. rewrite (lower_on_ascii s A).
  rewrite lower_on_ascii by (rewrite is_ascii_lower; exact A).
  apply ascii_lower_idempotent.
Qed.

Lemma upper_idempotent (s : string) :
  is_ascii s = true -> upper (upper s) = upper s.
Proof.
  intros A. rewrite (upper_on_ascii s A).
  rewrite upper_on_ascii by (rewrite is_ascii_upper; exact A).
  apply ascii_upper_idempotent.
Qed.

End Case.

(** ** First match *)

Lemma first_or_none_filter_some (f : string -> bool) (cols : list string) (c : string) :
  first_or_none (filter f cols) = Some c <->
  first_such (fun c => f c = true) cols c.
Proof.
  unfold first_such. induction cols as [|c0 cols IH]; simpl.
  - split; [discriminate|]. intros (before & after & E & _).
    destruct before; discriminate E.
  - destruct (f c0) eqn:F; simpl.
    + split.
      * intros E. injection E as <-. exists [], cols. auto.
      * intros (before & after & E & Fc & N). destruct before as [|b before].
        -- injection E as -> _. reflexivity.
        -- injection E as <- _. inversion N; subst. congruence.
    + rewrite IH. split.
      * intros (before & after & -> & Fc & N).
        exists (c0 :: before), after. repeat split; auto.
        constructor; [congruence | exact N].
      * intros (before & after & E & Fc & N). destruct before as [|b before].
        -- injection E as -> _. congruence.
        -- injection E as <- E. inversion N; subst.
           exists before, after. auto.
Qed.

Lemma first_or_none_filter_none (f : string -> bool) (cols : list string) :
  first_or_none (filter f cols) = None <-> Forall (fun c => f c = false) cols.
Proof.
  induction cols as [|c0 cols IH]; simpl.
  - split; auto.
  - destruct (f c0) eqn:F; simpl.
    + split; [discriminate|]. intros N. inversion N; subst. congruence.
    + rewrite IH. split.
      * intros N. constructor; assumption.
      * intros N. inversion N; assumption.
Qed.

Lemma first_such_ext (P Q : string -> Prop) (cols : list string) (c : string) :
  (forall x, P x <-> Q x) -> first_such P cols c <-> first_such Q cols c.
Proof.
  intros PQ. unfold first_such.
  split; intros (before & after & E & Pc & N); exists before, after;
    (repeat split; [exact E | apply PQ; exact Pc |]);
    (eapply Forall_impl; [|exact N]); intros x Nx Hx; apply Nx, PQ, Hx.
Qed.

Lemma filter_map_commute {A B : Type} (f : B -> bool) (g : A -> B) (l : list A) :
  filter f (map g l) = map g (filter (fun a => f (g a)) l).
Proof.
  induction l as [|a l IH]; simpl; [reflexivity|].
  destruct (f (g a)); simpl; rewrite IH; reflexivity.
Qed.

Lemma first_or_none_map (g : string -> string) (l : list string) :
  first_or_none (map g l) = option_map g (first_or_none l).
Proof. destruct l; reflexivity. Qed.

(** ** Column resolution *)

Section Resolution.

Variable lower : string -> string.

Lemma find_speed_col_first (cols : list string) (c : string) :
  find_speed_col lower cols = Some c <->
  first_such (fun c => occurs "bat_speed" (lower c)) cols c.
Proof.
  unfold find_speed_col. rewrite first_or_none_filter_some.
  apply first_such_ext. intros x. apply py_in_occurs.
Qed.

Lemma find_length_col_first (cols : list string) (c : string) :
  find_length_col lower cols = Some c <->
  first_such (fun c => occurs "swing_length" (lower c)) cols c.
Proof.
  unfold find_length_col. rewrite first_or_none_filter_some.
  apply first_such_ext. intros x. apply py_in_occurs.
Qed.

Lemma find_speed_col_none (cols : list string) :
  find_speed_col lower cols = None <->
  Forall (fun c => ~ occurs "bat_speed" (lower c)) cols.
Proof.
  unfold find_speed_col. rewrite first_or_none_filter_none.
  split; intros N; (eapply Forall_impl; [|exact N]); intros x; apply py_in_not_occurs.
Qed.

Lemma find_length_col_none (cols : list string) :
  find_length_col lower cols = None <->
  Forall (fun c => ~ occurs "swing_length" (lower c)) cols.
Proof.
  unfold find_length_col. rewrite first_or_none_filter_none.
  split; intros N; (eapply Forall_impl; [|exact N]); intros x; apply py_in_not_occurs.
Qed.

(** A resolved column has the pattern in its lowercased name. *)
Lemma find_speed_col_matches (cols : list string) (c : string) :
  find_speed_col lower cols = Some c -> py_in "bat_speed" (lower c) = true.
Proof.
  intros E. apply first_or_none_filter_some in E.
  destruct E as (_ & _ & _ & M & _). exact M.
Qed.

Lemma find_length_col_matches (cols : list string) (c : string) :
  find_length_col lower cols = Some c -> py_in "swing_length" (lower c) = true.
Proof.
  intros E. apply first_or_none_filter_some in E.
  destruct E as (_ & _ & _ & M & _). exact M.
Qed.

(** Renaming the columns by a map that [lower] does not see leaves the
    resolved position where it was. *)
Lemma find_col_renamed (pat : string) (g : string -> string) (cols : list string) :
  (forall c, In c cols -> lower (g c) = lower c) ->
  first_or_none (filter (fun c => py_in pat (lower c)) (map g cols))
  = option_map g (first_or_none (filter (fun c => py_in pat (lower c)) cols)).
Proof.
  intros G. rewrite filter_map_commute, first_or_none_map.
  do 2 f_equal. apply filter_ext_in. intros c I. rewrite (G c I). reflexivity.
Qed.

Hypothesis lower_on_ascii : forall s, is_ascii s = true -> lower s = ascii_lower s.

(** On ASCII column names the resolution is that of [ascii_lower]. *)
Lemma find_col_ascii (pat : string) (cols : list string) :
  Forall (fun c => is_ascii c = true) cols ->
  first_or_none (filter (fun c => py_in pat (lower c)) cols)
  = first_or_none (filter (fun c => py_in pat (ascii_lower c)) cols).
Proof.
  intros A. f_equal. apply filter_ext_in. intros c I.
  rewrite Forall_forall in A. rewrite (lower_on_ascii c (A c I)). reflexivity.
Qed.

Lemma truthy_speed_col (cols : list string) (c : string) :
  find_speed_col lower cols = Some c -> truthy_name (Some c) = true.
Proof.
  intros E. apply find_speed_col_matches in E.
  destruct c; [|reflexivity].
  rewrite (lower_on_ascii EmptyString eq_refl) in E. discriminate E.
Qed.

Lemma truthy_length_col (cols : list string) (c : string) :
  find_length_col lower cols = Some c -> truthy_name (Some c) = true.
Proof.
  intros E. apply find_length_col_matches in E.
  destruct c; [|reflexivity].
  rewrite (lower_on_ascii EmptyString eq_refl) in E. discriminate E.
Qed.

(** A name that holds "swing_length" is not the name "bat_speed". *)
Lemma length_col_not_bat_speed (cols : list string) (c : string) :
  find_length_col lower cols = Some c -> "bat_speed" <> c.
Proof.
  intros E <-. apply find_length_col_matches in E.
  rewrite (lower_on_ascii "bat_speed" eq_refl) in E. discriminate E.
Qed.

Variable upper : string -> string.
Hypothesis upper_on_ascii : forall s, is_ascii s = true -> upper s = ascii_upper s.

(** X7: on a table whose column names are ASCII text, column resolution
    does not depend on letter case: with every column name put in upper
    case, or in lower case, the bat-speed column and the swing-length
    column are found at the same places. *)
Theorem column_resolution_ignores_case :
  forall cols : list string,
    Forall (fun c => is_ascii c = true) cols ->
    find_speed_col lower (map upper cols)
    = option_map upper (find_speed_col lower cols)
    /\ find_length_col lower (map upper cols)
       = option_map upper (find_length_col lower cols)
    /\ find_speed_col lower (map lower cols)
       = option_map lower (find_speed_col lower cols)
    /\ find_length_col lower (map lower cols)
       = option_map lower (find_length_col lower cols).
Proof.
  intros cols A. rewrite Forall_forall in A.
  unfold find_speed_col, find_length_col.
  repeat split; apply find_col_renamed; intros c I.
  - apply (lower_upper lower upper lower_on_ascii upper_on_ascii), A, I.
  - apply (lower_upper lower upper lower_on_ascii upper_on_ascii), A, I.
  - apply (lower_idempotent lower lower_on_ascii), A, I.
  - apply (lower_idempotent lower lower_on_ascii), A, I.
Qed.

End Resolution.

Lemma column_resolution_ignores_case_witness :
  Forall (fun c => is_ascii c = true) ["Name"; "Bat_Speed"; "Swing_Length"]
  /\ find_speed_col ascii_lower (map ascii_upper ["Name"; "Bat_Speed"; "Swing_Length"])
     = Some "BAT_SPEED"
  /\ find_length_col ascii_lower (map ascii_upper ["Name"; "Bat_Speed"; "Swing_Length"])
     = Some "SWING_LENGTH".
Proof.
  assert (A : Forall (fun c => is_ascii c = true) ["Name"; "Bat_Speed"; "Swing_Length"])
    by (repeat constructor).
  split; [exact A|].
  destruct (column_resolution_ignores_case ascii_lower (fun s _ => eq_refl)
              ascii_upper (fun s _ => eq_refl)
              ["Name"; "Bat_Speed"; "Swing_Length"] A) as (E1 & E2 & _).
  split; [exact E1 | exact E2].
Defined.

(** ** Records *)

Lemma dict_get_set_same (k : string) (v : value) (d : dict) :
  dict_get (dict_set k v d) k = Some v.
Proof.
  induction d as [|[k' v'] d IH]; simpl.
  - rewrite String.eqb_refl. reflexivity.
  - destruct (String.eqb k' k) eqn:E; simpl.
    + rewrite String.eqb_refl. reflexivity.
    + rewrite E. exact IH.
Qed.

Lemma dict_get_set_other (k k' : string) (v : value) (d : dict) :
  k <> k' -> dict_get (dict_set k v d) k' = dict_get d k'.
Proof.
  intros N. induction d as [|[k0 v0] d IH]; simpl.
  - destruct (String.eqb k k') eqn:E; [|reflexivity].
    apply String.eqb_eq in E. contradiction.
  - destruct (String.eqb k0 k) eqn:E; simpl.
    + apply String.eqb_eq in E. subst k0.
      destruct (String.eqb k k') eqn:E'; [|reflexivity].
      apply String.eqb_eq in E'. contradiction.
    + rewrite IH. reflexivity.
Qed.

Lemma row_get_set_same (k : string) (v : value) (d : dict) :
  row_get (dict_set k v d) k = v.
Proof. unfold row_get, dict_get_default. rewrite dict_get_set_same. reflexivity. Qed.

Lemma row_get_set_other (k k' : string) (v : value) (d : dict) :
  k <> k' -> row_get (dict_set k v d) k' = row_get d k'.
Proof.
  intros N. unfold row_get, dict_get_default.
  rewrite dict_get_set_other by exact N. reflexivity.
Qed.

Lemma dict_get_absent (d : dict) (k : string) :
  ~ In k (map fst d) -> dict_get d k = None.
Proof.
  induction d as [|[k' v'] d IH]; simpl; [reflexivity|].
  intros N. destruct (String.eqb k' k) eqn:E.
  - apply String.eqb_eq in E. exfalso. apply N. left. exact E.
  - apply IH. intros I. apply N. right. exact I.
Qed.

(** ** Tables *)

Lemma combine_map_self {A B : Type} (h : A -> B) (l : list A) :
  combine l (map h l) = map (fun a => (a, h a)) l.
Proof. induction l as [|a l IH]; simpl; [|rewrite IH]; reflexivity. Qed.

(** Assigning a column computed row by row. *)
Lemma df_set_rows (df : DataFrame) (c : string) (h : dict -> value) :
  rows (df_set df c (map h (rows df)))
  = map (fun r => dict_set c (h r) r) (rows df).
Proof.
  unfold df_set. simpl. rewrite combine_map_self, map_map. reflexivity.
Qed.

(** The cell of a result is missing exactly when the result is null or
    NaN, however the column holds a null. *)
Lemma result_cell_isna (results : list (option pyfloat)) (x : option pyfloat) :
  value_isna (result_cell results x) = isna x.
Proof.
  unfold result_cell. destruct (existsb is_float results), x as [[| | |]|]; reflexivity.
Qed.

Lemma result_cell_float (results : list (option pyfloat)) (x : pyfloat) :
  result_cell results (Some x) = VFloat x.
Proof.
  unfold result_cell. destruct (existsb is_float results); reflexivity.
Qed.

(** The cell of a null result is null or NaN. *)
Lemma result_cell_none (results : list (option pyfloat)) :
  result_cell results None = VNone \/ result_cell results None = VFloat NaN.
Proof.
  unfold result_cell. destruct (existsb is_float results); auto.
Qed.

(** ** Processing a fetched table *)

Lemma dropna_rows (speed_col length_col : string) (df : DataFrame) :
  rows (dropna [speed_col; length_col] df)
  = filter (complete_row speed_col length_col) (rows df).
Proof.
  unfold dropna. cbn [rows]. apply filter_ext. intros r.
  unfold complete_row. cbn [forallb]. rewrite andb_true_r. reflexivity.
Qed.

Lemma complete_row_iff (speed_col length_col : string) (r : dict) :
  complete_row speed_col length_col r = true <->
  value_isna (row_get r speed_col) = false
  /\ value_isna (row_get r length_col) = false.
Proof.
  unfold complete_row. rewrite andb_true_iff, !negb_true_iff. reflexivity.
Qed.

(** An enriched record has the keys of its source row and the three the
    assignments add, no other. *)
Lemma enrich_row_other_key (parse_numeric : string -> pyfloat)
      (results : list (option pyfloat)) (speed_col length_col k : string) (r : dict) :
  k <> "bat_speed" -> k <> "swing_length" -> k <> "power_plus" ->
  dict_get (enrich_row parse_numeric results speed_col length_col r) k = dict_get r k.
Proof.
  intros N1 N2 N3. unfold enrich_row, with_inputs.
  rewrite !dict_get_set_other by congruence. reflexivity.
Qed.

Lemma enrich_row_cell (parse_numeric : string -> pyfloat)
      (results : list (option pyfloat)) (speed_col length_col : string) (r : dict) :
  dict_get (enrich_row parse_numeric results speed_col length_col r) "power_plus"
  = Some (result_cell results (row_metric parse_numeric speed_col length_col r)).
Proof. unfold enrich_row. apply dict_get_set_same. Qed.

Section ProcessFacts.

Variable lower : string -> string.
Variable parse_numeric : string -> pyfloat.

(** Without one of the two columns the batch is dropped. *)
Lemma process_data_unresolved (df : DataFrame) :
  find_speed_col lower (columns df) = None
  \/ find_length_col lower (columns df) = None ->
  process_data lower parse_numeric df = empty_frame.
Proof.
  intros [E | E]; unfold process_data; rewrite E; simpl.
  - reflexivity.
  - rewrite orb_true_r. reflexivity.
Qed.

(** With both columns resolved to names that pass the truth test of
    step 3, [process_data] is the chain of its four steps, each assignment
    computed row by row. *)
Lemma process_data_chain (df : DataFrame) (speed_col length_col : string) :
  find_speed_col lower (columns df) = Some speed_col ->
  find_length_col lower (columns df) = Some length_col ->
  truthy_name (Some speed_col) = true ->
  truthy_name (Some length_col) = true ->
  exists h1 h2 h3,
    process_data lower parse_numeric df
    = let d0 := dropna [speed_col; length_col] df in
      let d1 := df_set d0 "bat_speed" (map h1 (rows d0)) in
      let d2 := df_set d1 "swing_length" (map h2 (rows d1)) in
      df_set d2 "power_plus" (map h3 (rows d2)).
Proof.
  intros Es El Ts Tl.
  exists (fun r => VFloat (numeric_of parse_numeric (row_get r speed_col))),
         (fun r => VFloat (numeric_of parse_numeric (row_get r length_col))).
  unfold process_data. rewrite Es, El, Ts, Tl.
  cbn [negb orb].
  unfold df_apply_rows, to_numeric, df_col. cbv zeta. rewrite !map_map.
  eexists. reflexivity.
Qed.

(** And its records are those [enrich_row] makes of the rows [dropna]
    keeps, in source order. *)
Lemma process_data_chain_rows (df : DataFrame) (speed_col length_col : string) :
  find_speed_col lower (columns df) = Some speed_col ->
  find_length_col lower (columns df) = Some length_col ->
  truthy_name (Some speed_col) = true ->
  truthy_name (Some length_col) = true ->
  rows (process_data lower parse_numeric df)
  = map (enrich_row parse_numeric (metrics parse_numeric speed_col length_col df)
                    speed_col length_col)
        (filter (complete_row speed_col length_col) (rows df)).
Proof.
  intros Es El Ts Tl. unfold process_data. rewrite Es, El, Ts, Tl.
  cbn [negb orb].
  unfold df_apply_rows, to_numeric, df_col. cbv zeta.
  rewrite !map_map.
  rewrite df_set_rows.
  set (df1 := df_set _ "bat_speed" _).
  assert (R1 : rows df1
               = map (fun r => dict_set "bat_speed"
                                 (VFloat (numeric_of parse_numeric (row_get r speed_col))) r)
                     (rows (dropna [speed_col; length_col] df))).
  { unfold df1. apply df_set_rows. }
  set (df2 := df_set df1 "swing_length" _).
  assert (R2 : rows df2
               = map (fun r => dict_set "swing_length"
                                 (VFloat (numeric_of parse_numeric (row_get r length_col))) r)
                     (rows df1)).
  { unfold df2. apply df_set_rows. }
  rewrite R2, R1, !map_map, dropna_rows.
  reflexivity.
Qed.

(** A column name that fails the truth test drops the batch. *)
Lemma process_data_falsy (df : DataFrame) :
  negb (truthy_name (find_speed_col lower (columns df)))
  || negb (truthy_name (find_length_col lower (columns df))) = true ->
  process_data lower parse_numeric df = empty_frame.
Proof. intros T. unfold process_data. rewrite T. reflexivity. Qed.

(** [process_data] gives the empty table or the chain of its steps. *)
Lemma process_data_cases (df : DataFrame) :
  process_data lower parse_numeric df = empty_frame
  \/ exists speed_col length_col,
      find_speed_col lower (columns df) = Some speed_col
      /\ find_length_col lower (columns df) = Some length_col
      /\ truthy_name (Some speed_col) = true
      /\ truthy_name (Some length_col) = true.
Proof.
  destruct (negb (truthy_name (find_speed_col lower (columns df)))
            || negb (truthy_name (find_length_col lower (columns df)))) eqn:T.
  - left. apply process_data_falsy. exact T.
  - right. apply orb_false_iff in T. destruct T as [Ts Tl].
    apply negb_false_iff in Ts. apply negb_false_iff in Tl.
    destruct (find_speed_col lower (columns df)) as [speed_col|]; [|discriminate Ts].
    destruct (find_length_col lower (columns df)) as [length_col|]; [|discriminate Tl].
    exists speed_col, length_col. auto.
Qed.

Hypothesis lower_on_ascii : forall s, is_ascii s = true -> lower s = ascii_lower s.

Lemma process_data_resolved (df : DataFrame) (speed_col length_col : string) :
  find_speed_col lower (columns df) = Some speed_col ->
  find_length_col lower (columns df) = Some length_col ->
  exists h1 h2 h3,
    process_data lower parse_numeric df
    = let d0 := dropna [speed_col; length_col] df in
      let d1 := df_set d0 "bat_speed" (map h1 (rows d0)) in
      let d2 := df_set d1 "swing_length" (map h2 (rows d1)) in
      df_set d2 "power_plus" (map h3 (rows d2)).
Proof.
  intros Es El. apply process_data_chain; try assumption.
  - exact (truthy_speed_col lower lower_on_ascii _ _ Es).
  - exact (truthy_length_col lower lower_on_ascii _ _ El).
Qed.

(** With both columns resolved, [process_data] is [dropna] followed by
    [enrich_row] on each kept row, in source order. *)
Lemma process_data_rows (df : DataFrame) (speed_col length_col : string) :
  find_speed_col lower (columns df) = Some speed_col ->
  find_length_col lower (columns df) = Some length_col ->
  rows (process_data lower parse_numeric df)
  = map (enrich_row parse_numeric (metrics parse_numeric speed_col length_col df)
                    speed_col length_col)
        (filter (complete_row speed_col length_col) (rows df)).
Proof.
  intros Es El. apply process_data_chain_rows; try assumption.
  - exact (truthy_speed_col lower lower_on_ascii _ _ Es).
  - exact (truthy_length_col lower lower_on_ascii _ _ El).
Qed.

(** On ASCII column names [process_data] is what it is with
    [ascii_lower]. *)
Lemma process_data_ascii (df : DataFrame) :
  Forall (fun c => is_ascii c = true) (columns df) ->
  process_data lower parse_numeric df = process_data ascii_lower parse_numeric df.
Proof.
  intros A. unfold process_data, find_speed_col, find_length_col.
  rewrite !(find_col_ascii lower lower_on_ascii _ _ A). reflexivity.
Qed.

(** The row function of step 4 sees the numbers of the two resolved
    columns of the source row. *)
Lemma row_metric_inputs (cols : list string) (speed_col length_col : string)
      (r : dict) :
  find_length_col lower cols = Some length_col ->
  row_metric parse_numeric speed_col length_col r
  = calculate_power_plus
      (Some (numeric_of parse_numeric (row_get r speed_col)))
      (Some (numeric_of parse_numeric (row_get r length_col))).
Proof.
  intros El. unfold row_metric, with_inputs.
  rewrite row_get_set_same.
  rewrite (row_get_set_other "swing_length" "bat_speed") by discriminate.
  rewrite row_get_set_same.
  rewrite (row_get_set_other "bat_speed" length_col)
    by exact (length_col_not_bat_speed lower lower_on_ascii _ _ El).
  reflexivity.
Qed.

(** The metric of an enriched record is computed from the numbers in the
    two resolved columns of its source row. *)
Lemma enrich_row_power_plus (cols : list string) (results : list (option pyfloat))
      (speed_col length_col : string) (r : dict) :
  find_length_col lower cols = Some length_col ->
  dict_get (enrich_row parse_numeric results speed_col length_col r) "power_plus"
  = Some (result_cell results
            (calculate_power_plus
               (Some (numeric_of parse_numeric (row_get r speed_col)))
               (Some (numeric_of parse_numeric (row_get r length_col))))).
Proof.
  intros El. rewrite enrich_row_cell, (row_metric_inputs cols _ _ _ El).
  reflexivity.
Qed.

(** C6: [process_data] takes as bat-speed column the first column, in source
    order, whose lowercased name holds "bat_speed", and as swing-length
    column, independently, the first whose lowercased name holds
    "swing_length"; when either pattern matches no column the result is the
    empty table, with no record processed; when both match, the records are
    computed from these two columns; on
    ["bat_speed_mph"; "avg_bat_speed"; "swing_length_ft"] the columns taken
    are "bat_speed_mph" and "swing_length_ft".  The name is lowercased
    before the match: on ASCII names the columns taken are those
    [ascii_lower] gives, so "Bat_Speed_MPH" and "Swing_Length_FT" are taken
    from ["Bat_Speed_MPH"; "AVG_BAT_SPEED"; "Swing_Length_FT"], and the
    pattern itself is not lowercased into a match: "BatSpeed" is not
    taken. *)
Theorem process_data_column_resolution :
  forall df : DataFrame,
    (forall c, find_speed_col lower (columns df) = Some c <->
               first_such (fun c => occurs "bat_speed" (lower c)) (columns df) c)
    /\ (forall c, find_length_col lower (columns df) = Some c <->
                  first_such (fun c => occurs "swing_length" (lower c)) (columns df) c)
    /\ (find_speed_col lower (columns df) = None <->
        Forall (fun c => ~ occurs "bat_speed" (lower c)) (columns df))
    /\ (find_length_col lower (columns df) = None <->
        Forall (fun c => ~ occurs "swing_length" (lower c)) (columns df))
    /\ (find_speed_col lower (columns df) = None
        \/ find_length_col lower (columns df) = None ->
        process_data lower parse_numeric df = empty_frame)
    /\ (forall speed_col length_col,
           find_speed_col lower (columns df) = Some speed_col ->
           find_length_col lower (columns df) = Some length_col ->
           rows (process_data lower parse_numeric df)
           = map (enrich_row parse_numeric
                             (metrics parse_numeric speed_col length_col df)
                             speed_col length_col)
                 (filter (complete_row speed_col length_col) (rows df)))
    /\ find_speed_col lower ["bat_speed_mph"; "avg_bat_speed"; "swing_length_ft"]
       = Some "bat_speed_mph"
    /\ find_length_col lower ["bat_speed_mph"; "avg_bat_speed"; "swing_length_ft"]
       = Some "swing_length_ft"
    /\ (Forall (fun c => is_ascii c = true) (columns df) ->
        (forall c, find_speed_col lower (columns df) = Some c <->
                   first_such (fun c => occurs "bat_speed" (ascii_lower c))
                              (columns df) c)
        /\ (forall c, find_length_col lower (columns df) = Some c <->
                      first_such (fun c => occurs "swing_length" (ascii_lower c))
                                 (columns df) c))
    /\ find_speed_col lower ["Bat_Speed_MPH"; "AVG_BAT_SPEED"; "Swing_Length_FT"]
       = Some "Bat_Speed_MPH"
    /\ find_length_col lower ["Bat_Speed_MPH"; "AVG_BAT_SPEED"; "Swing_Length_FT"]
       = Some "Swing_Length_FT"
    /\ find_speed_col lower ["Player"; "AVG_BAT_SPEED"; "swing_length"]
       = Some "AVG_BAT_SPEED"
    /\ find_speed_col lower ["BatSpeed"; "Swing_Length"] = None
    /\ process_data lower parse_numeric
         {| columns := ["BatSpeed"; "Swing_Length"];
            rows := [[("BatSpeed", VFloat (Fin 77));
                      ("Swing_Length", VFloat (Fin 7))]] |}
       = empty_frame.
Proof.
  intros df.
  assert (X : forall pat cols,
             Forall (fun c => is_ascii c = true) cols ->
             first_or_none (filter (fun c => py_in pat (lower c)) cols)
             = first_or_none (filter (fun c => py_in pat (ascii_lower c)) cols))
    by (intros pat cols; apply find_col_ascii; exact lower_on_ascii).
  assert (S1 : find_speed_col lower ["BatSpeed"; "Swing_Length"] = None).
  { unfold find_speed_col. rewrite X by (repeat constructor). reflexivity. }
  split; [apply find_speed_col_first|].
  split; [apply find_length_col_first|].
  split; [apply find_speed_col_none|].
  split; [apply find_length_col_none|].
  split; [apply process_data_unresolved|].
  split; [apply process_data_rows|].
  split; [unfold find_speed_col; rewrite X by (repeat constructor); reflexivity|].
  split; [unfold find_length_col; rewrite X by (repeat constructor); reflexivity|].
  split.
  { intros A. split; intros c.
    - unfold find_speed_col. rewrite (X _ _ A).
      apply (find_speed_col_first ascii_lower).
    - unfold find_length_col. rewrite (X _ _ A).
      apply (find_length_col_first ascii_lower). }
  split; [unfold find_speed_col; rewrite X by (repeat constructor); reflexivity|].
  split; [unfold find_length_col; rewrite X by (repeat constructor); reflexivity|].
  split; [unfold find_speed_col; rewrite X by (repeat constructor); reflexivity|].
  split; [exact S1|].
  apply process_data_unresolved. left. exact S1.
Qed.

(** C4, as amended: a source row whose bat-speed or swing-length cell is
    missing (null or NaN) is removed; the Dataset of [process_data] holds
    one record for each source row with both cells present, in source
    order, made of the row's own fields and the three computed ones; its
    [power_plus] is [calculate_power_plus] of the two cells read as
    numbers, hence missing when the swing length is zero or a cell holds
    text that is no number. *)
Theorem process_data_keeps_complete_rows_only :
  forall (df : DataFrame) (speed_col length_col : string),
    find_speed_col lower (columns df) = Some speed_col ->
    find_length_col lower (columns df) = Some length_col ->
    rows (process_data lower parse_numeric df)
    = map (enrich_row parse_numeric (metrics parse_numeric speed_col length_col df)
                      speed_col length_col)
          (filter (complete_row speed_col length_col) (rows df))
    /\ (forall r, In r (filter (complete_row speed_col length_col) (rows df)) <->
                  In r (rows df)
                  /\ value_isna (row_get r speed_col) = false
                  /\ value_isna (row_get r length_col) = false)
    /\ (forall results r,
           dict_get (enrich_row parse_numeric results speed_col length_col r)
                    "power_plus"
           = Some (result_cell results
                     (calculate_power_plus
                        (Some (numeric_of parse_numeric (row_get r speed_col)))
                        (Some (numeric_of parse_numeric (row_get r length_col))))))
    /\ (forall results x,
           value_isna (result_cell results x) = isna x
           /\ (forall f, x = Some f -> result_cell results x = VFloat f)
           /\ (x = None -> result_cell results x = VNone
                           \/ result_cell results x = VFloat NaN))
    /\ (forall results r k,
           k <> "bat_speed" -> k <> "swing_length" -> k <> "power_plus" ->
           dict_get (enrich_row parse_numeric results speed_col length_col r) k
           = dict_get r k).
Proof.
  intros df speed_col length_col Es El. split; [|split; [|split; [|split]]].
  - apply process_data_rows; assumption.
  - intros r. rewrite filter_In, complete_row_iff. reflexivity.
  - intros results r. apply (enrich_row_power_plus (columns df)). exact El.
  - intros results x. split; [apply result_cell_isna|]. split.
    + intros f ->. apply result_cell_float.
    + intros ->. apply result_cell_none.
  - intros results r k. apply enrich_row_other_key.
Qed.

(** C5, as amended: [process_data] adds no grade field; a record of its
    Dataset has one only if the source table has a column of that name.
    Every record carries [power_plus], and the label [get_grade] computes
    from it is one of the five threshold labels when [power_plus] is
    present and "N/A" when it is absent. *)
Theorem process_data_adds_no_grade :
  forall df : DataFrame,
    well_formed df ->
    ~ In "grade" (columns df) ->
    forall rec, In rec (rows (process_data lower parse_numeric df)) ->
      dict_get rec "grade" = None
      /\ exists v,
          dict_get rec "power_plus" = Some v
          /\ (value_isna v = true -> get_grade (as_float v) = "N/A")
          /\ (value_isna v = false ->
              In (get_grade (as_float v))
                 ["Elite"; "Above Average"; "Average"; "Below Average"; "Poor"]).
Proof.
  intros df W G rec I.
  destruct (process_data_cases df)
    as [E | (speed_col & length_col & Es & El & Ts & Tl)];
    [rewrite E in I; contradiction|].
  rewrite (process_data_chain_rows df speed_col length_col Es El Ts Tl) in I.
  apply in_map_iff in I. destruct I as (r & <- & I).
  apply filter_In in I. destruct I as [I _].
  split.
  - rewrite enrich_row_other_key by discriminate.
    apply dict_get_absent.
    unfold well_formed in W. rewrite Forall_forall in W.
    rewrite (W r I). exact G.
  - rewrite enrich_row_cell. eexists. split; [reflexivity|].
    rewrite result_cell_isna.
    destruct (row_metric parse_numeric speed_col length_col r) as [x|].
    + rewrite result_cell_float. cbn [as_float]. split.
      * intros N. apply get_grade_na_iff. exact N.
      * intros N. apply get_grade_label. intros ->. discriminate N.
    + split; [|discriminate]. intros _.
      destruct (result_cell_none (metrics parse_numeric speed_col length_col df))
        as [-> | ->]; reflexivity.
Qed.

End ProcessFacts.

Lemma process_data_column_resolution_witness :
  (forall s, is_ascii s = true -> ascii_lower s = ascii_lower s)
  /\ find_speed_col ascii_lower (columns two_player_table) = Some "avg_bat_speed"
  /\ find_length_col ascii_lower (columns two_player_table) = Some "avg_swing_length"
  /\ rows (process_data ascii_lower parse_nothing two_player_table)
     = map (enrich_row parse_nothing
                       (metrics parse_nothing "avg_bat_speed" "avg_swing_length"
                                two_player_table)
                       "avg_bat_speed" "avg_swing_length")
           (filter (complete_row "avg_bat_speed" "avg_swing_length")
                   (rows two_player_table)).
Proof.
  split; [intros s _; reflexivity|].
  split; [reflexivity|]. split; [reflexivity|].
  apply (process_data_column_resolution ascii_lower parse_nothing
           (fun s _ => eq_refl) two_player_table); reflexivity.
Defined.

Lemma process_data_keeps_complete_rows_only_witness :
  find_speed_col ascii_lower (columns missing_speed_table) = Some "avg_bat_speed"
  /\ find_length_col ascii_lower (columns missing_speed_table)
     = Some "avg_swing_length"
  /\ rows (process_data ascii_lower parse_nothing missing_speed_table)
     = map (enrich_row parse_nothing
                       (metrics parse_nothing "avg_bat_speed" "avg_swing_length"
                                missing_speed_table)
                       "avg_bat_speed" "avg_swing_length")
           (filter (complete_row "avg_bat_speed" "avg_swing_length")
                   (rows missing_speed_table)).
Proof.
  split; [reflexivity|]. split; [reflexivity|].
  apply (process_data_keeps_complete_rows_only ascii_lower parse_nothing
           (fun s _ => eq_refl) missing_speed_table
           "avg_bat_speed" "avg_swing_length"); reflexivity.
Defined.

(** C4, as stated, fails: the row of Ames in [missing_speed_table] has no
    bat speed, and the Dataset [process_data] makes of the table holds the
    record of Judge only; no record stands for Ames. *)
Lemma process_data_removes_row_without_speed :
  In [("player_name", VStr "Ames"); ("swings", VFloat (Fin 320));
      ("avg_bat_speed", VNone); ("avg_swing_length", VFloat (Fin 7))]
     (rows missing_speed_table)
  /\ rows (process_data ascii_lower parse_nothing missing_speed_table)
     = [ [("player_name", VStr "Judge"); ("swings", VFloat (Fin 400));
          ("avg_bat_speed", VFloat (Fin 77)); ("avg_swing_length", VFloat (Fin 7));
          ("bat_speed", VFloat (Fin 77)); ("swing_length", VFloat (Fin 7));
          ("power_plus", VFloat (Fin (223 # 2)))] ]
  /\ ~ (exists rec, In rec (rows (process_data ascii_lower parse_nothing
                                                missing_speed_table))
                    /\ dict_get rec "player_name" = Some (VStr "Ames")).
Proof.
  split; [left; reflexivity|].
  assert (E : rows (process_data ascii_lower parse_nothing missing_speed_table)
     = [ [("player_name", VStr "Judge"); ("swings", VFloat (Fin 400));
          ("avg_bat_speed", VFloat (Fin 77)); ("avg_swing_length", VFloat (Fin 7));
          ("bat_speed", VFloat (Fin 77)); ("swing_length", VFloat (Fin 7));
          ("power_plus", VFloat (Fin (223 # 2)))] ])
    by (vm_compute; reflexivity).
  split; [exact E|]. rewrite E.
  intros (rec & [<- | []] & N). discriminate N.
Qed.

Lemma process_data_adds_no_grade_witness :
  well_formed missing_speed_table
  /\ ~ In "grade" (columns missing_speed_table)
  /\ dict_get
       (enrich_row parse_nothing
          (metrics parse_nothing "avg_bat_speed" "avg_swing_length"
                   missing_speed_table)
          "avg_bat_speed" "avg_swing_length"
          [("player_name", VStr "Judge"); ("swings", VFloat (Fin 400));
           ("avg_bat_speed", VFloat (Fin 77)); ("avg_swing_length", VFloat (Fin 7))])
       "grade" = None.
Proof.
  assert (W : well_formed missing_speed_table)
    by (repeat constructor).
  assert (G : ~ In "grade" (columns missing_speed_table))
    by (simpl; intuition discriminate).
  split; [exact W|]. split; [exact G|].
  apply (process_data_adds_no_grade ascii_lower parse_nothing
           missing_speed_table W G).
  vm_compute. left. reflexivity.
Defined.

(** C5, as stated, fails: the record [process_data] makes of Judge's row
    has no grade field. *)
Lemma process_data_record_without_grade :
  columns (process_data ascii_lower parse_nothing missing_speed_table)
  = ["player_name"; "swings"; "avg_bat_speed"; "avg_swing_length";
     "bat_speed"; "swing_length"; "power_plus"]
  /\ exists rec, In rec (rows (process_data ascii_lower parse_nothing
                                            missing_speed_table))
                 /\ dict_get rec "power_plus" = Some (VFloat (Fin (223 # 2)))
                 /\ dict_get rec "grade" = None.
Proof.
  split; [reflexivity|].
  eexists. split; [vm_compute; left; reflexivity|]. split; reflexivity.
Qed.

(** ** Shape of a processed table *)

Lemma dict_set_keys (k : string) (v : value) (d : dict) :
  map fst (dict_set k v d)
  = if existsb (String.eqb k) (map fst d) then map fst d else (map fst d ++ [k])%list.
Proof.
  induction d as [|[k' v'] d IH]; simpl; [reflexivity|].
  rewrite (String.eqb_sym k k').
  destruct (String.eqb k' k) eqn:E; simpl.
  - apply String.eqb_eq in E. subst k'. reflexivity.
  - rewrite IH. destruct (existsb (String.eqb k) (map fst d)); reflexivity.
Qed.

Lemma df_set_well_formed (df : DataFrame) (c : string) (h : dict -> value) :
  well_formed df -> well_formed (df_set df c (map h (rows df))).
Proof.
  unfold well_formed. intros W.
  rewrite df_set_rows. apply Forall_forall. intros r I.
  apply in_map_iff in I. destruct I as (r0 & <- & I).
  rewrite Forall_forall in W.
  rewrite dict_set_keys, (W r0 I). reflexivity.
Qed.

Lemma dropna_well_formed (subset : list string) (df : DataFrame) :
  well_formed df -> well_formed (dropna subset df).
Proof.
  unfold well_formed, dropna. simpl. intros W.
  apply Forall_forall. intros r I. apply filter_In in I.
  rewrite Forall_forall in W. apply W. tauto.
Qed.

(** Decides the comparisons of two literal names in the goal. *)
Ltac compare_names :=
  repeat match goal with
         | |- context [String.eqb ?a ?b] =>
             let r := eval vm_compute in (String.eqb a b) in
             change (String.eqb a b) with r
         end.

Lemma add_computed_columns (cols : list string) :
  let add c l := if existsb (String.eqb c) l then l else (l ++ [c])%list in
  add "power_plus" (add "swing_length" (add "bat_speed" cols))
  = (cols ++ filter (fun c => negb (existsb (String.eqb c) cols)) computed_columns)%list.
Proof.
  cbv zeta. unfold computed_columns. cbn [filter].
  destruct (existsb (String.eqb "bat_speed") cols) eqn:B;
    destruct (existsb (String.eqb "swing_length") cols) eqn:L;
    destruct (existsb (String.eqb "power_plus") cols) eqn:P;
    cbn [negb];
    repeat (rewrite ?existsb_app, ?B, ?L, ?P; cbn [existsb]; compare_names;
            cbn [orb]);
    rewrite <- ?app_assoc, ?app_nil_r; reflexivity.
Qed.

Section ShapeFacts.

Variable lower : string -> string.
Variable parse_numeric : string -> pyfloat.

(** X8: [process_data] keeps a table well formed: in its result every
    record has exactly the columns of the result as its keys, in their
    order. *)
Theorem process_data_well_formed :
  forall df : DataFrame,
    well_formed df -> well_formed (process_data lower parse_numeric df).
Proof.
  intros df W.
  destruct (process_data_cases lower parse_numeric df)
    as [-> | (speed_col & length_col & Es & El & Ts & Tl)]; [constructor|].
  destruct (process_data_chain lower parse_numeric df speed_col length_col
              Es El Ts Tl) as (h1 & h2 & h3 & ->).
  cbv zeta. repeat apply df_set_well_formed. apply dropna_well_formed. exact W.
Qed.

Hypothesis lower_on_ascii : forall s, is_ascii s = true -> lower s = ascii_lower s.

(** X9: the columns of a processed table are the source columns, in their
    order, followed by those of bat_speed, swing_length and power_plus that
    the source does not have, in this order; a table whose columns do not
    resolve comes out with no column at all. *)
Theorem process_data_columns :
  forall df : DataFrame,
    (forall speed_col length_col,
        find_speed_col lower (columns df) = Some speed_col ->
        find_length_col lower (columns df) = Some length_col ->
        columns (process_data lower parse_numeric df)
        = (columns df
           ++ filter (fun c => negb (existsb (String.eqb c) (columns df)))
                     computed_columns)%list)
    /\ (find_speed_col lower (columns df) = None
        \/ find_length_col lower (columns df) = None ->
        columns (process_data lower parse_numeric df) = []).
Proof.
  intros df. split.
  - intros speed_col length_col Es El.
    destruct (process_data_resolved lower parse_numeric lower_on_ascii
                df speed_col length_col Es El)
      as (h1 & h2 & h3 & ->).
    cbv zeta. unfold df_set at 1. cbn [columns].
    unfold df_set at 1 2. cbn [columns].
    unfold df_set at 1 2 3. cbn [columns dropna].
    apply add_computed_columns.
  - intros U. rewrite process_data_unresolved by exact U. reflexivity.
Qed.

(** X12: every record of a processed table comes from a source row with
    both cells present; its [power_plus] is the cell of
    [calculate_power_plus] of the two cells read as numbers; the cell is
    missing (null or NaN) exactly when one of the two reads as NaN, the
    swing length reads as a zero, or both read as infinite, and is
    otherwise the metric computed in binary64 and rounded to one
    decimal. *)
Theorem power_plus_null_iff :
  forall (df : DataFrame) (speed_col length_col : string),
    find_speed_col lower (columns df) = Some speed_col ->
    find_length_col lower (columns df) = Some length_col ->
    forall rec, In rec (rows (process_data lower parse_numeric df)) ->
      exists r,
        In r (rows df)
        /\ rec = enrich_row parse_numeric
                            (metrics parse_numeric speed_col length_col df)
                            speed_col length_col r
        /\ value_isna (row_get r speed_col) = false
        /\ value_isna (row_get r length_col) = false
        /\ (exists v,
               dict_get rec "power_plus" = Some v
               /\ v = result_cell (metrics parse_numeric speed_col length_col df)
                        (calculate_power_plus
                           (Some (numeric_of parse_numeric (row_get r speed_col)))
                           (Some (numeric_of parse_numeric (row_get r length_col))))
               /\ (v = VNone \/ exists x, v = VFloat x)
               /\ (value_isna v = true <->
                   numeric_of parse_numeric (row_get r speed_col) = NaN
                   \/ numeric_of parse_numeric (row_get r length_col) = NaN
                   \/ py_eq_zero (Some (numeric_of parse_numeric (row_get r length_col)))
                      = true
                   \/ exists n m,
                       numeric_of parse_numeric (row_get r speed_col) = Inf n
                       /\ numeric_of parse_numeric (row_get r length_col) = Inf m))
        /\ (forall b s,
               numeric_of parse_numeric (row_get r speed_col) = b ->
               numeric_of parse_numeric (row_get r length_col) = s ->
               b <> NaN -> s <> NaN -> py_eq_zero (Some s) = false ->
               dict_get rec "power_plus"
               = Some (VFloat (py_round (unrounded_power_plus b s) 1))).
Proof.
  intros df speed_col length_col Es El rec I.
  rewrite (process_data_rows lower parse_numeric lower_on_ascii
             df speed_col length_col Es El) in I.
  apply in_map_iff in I. destruct I as (r & <- & I).
  apply filter_In in I. destruct I as [I C].
  apply complete_row_iff in C. destruct C as [Cs Cl].
  exists r. repeat (split; [assumption || reflexivity|]).
  rewrite (enrich_row_power_plus lower parse_numeric lower_on_ascii
             (columns df) _ speed_col length_col r El).
  set (b := numeric_of parse_numeric (row_get r speed_col)).
  set (s := numeric_of parse_numeric (row_get r length_col)).
  set (M := metrics parse_numeric speed_col length_col df).
  split.
  - eexists. split; [reflexivity|]. split; [reflexivity|]. split.
    + destruct (calculate_power_plus (Some b) (Some s)) as [x|].
      * right. exists x. apply result_cell_float.
      * destruct (result_cell_none M) as [-> | ->]; [left; reflexivity|].
        right. exists NaN. reflexivity.
    + rewrite result_cell_isna.
      destruct (metric_missing_iff (Some b) (Some s)) as [G N].
      rewrite N. cbn [isna].
      split.
      * intros [H | [H | [H | (n & m & Hb & Hs)]]].
        -- left. destruct b; [reflexivity | discriminate H..].
        -- right. left. destruct s; [reflexivity | discriminate H..].
        -- right. right. left. exact H.
        -- right. right. right. exists n, m.
           split; congruence.
      * intros [H | [H | [H | (n & m & Hb & Hs)]]].
        -- left. rewrite H. reflexivity.
        -- right. left. rewrite H. reflexivity.
        -- right. right. left. exact H.
        -- right. right. right. exists n, m. rewrite Hb, Hs.
           split; reflexivity.
  - intros b' s' Eb Es' Nb Ns Z. fold b in Eb. fold s in Es'. subst b' s'.
    rewrite (calculate_power_plus_value b s Nb Ns Z).
    rewrite result_cell_float. reflexivity.
Qed.

End ShapeFacts.

Lemma process_data_well_formed_witness :
  well_formed two_player_table
  /\ well_formed (process_data ascii_lower parse_nothing two_player_table).
Proof.
  assert (W : well_formed two_player_table) by (repeat constructor).
  split; [exact W|].
  apply (process_data_well_formed ascii_lower parse_nothing two_player_table W).
Defined.

Lemma process_data_columns_witness :
  (forall s, is_ascii s = true -> ascii_lower s = ascii_lower s)
  /\ find_speed_col ascii_lower (columns two_player_table) = Some "avg_bat_speed"
  /\ find_length_col ascii_lower (columns two_player_table) = Some "avg_swing_length"
  /\ columns (process_data ascii_lower parse_nothing two_player_table)
     = ["player_name"; "swings"; "avg_bat_speed"; "avg_swing_length";
        "bat_speed"; "swing_length"; "power_plus"].
Proof.
  split; [intros s _; reflexivity|].
  split; [reflexivity|]. split; [reflexivity|].
  apply (proj1 (process_data_columns ascii_lower parse_nothing (fun s _ => eq_refl)
                  two_player_table) "avg_bat_speed" "avg_swing_length");
    reflexivity.
Defined.

Lemma power_plus_null_iff_witness :
  find_speed_col ascii_lower (columns two_player_table) = Some "avg_bat_speed"
  /\ find_length_col ascii_lower (columns two_player_table) = Some "avg_swing_length"
  /\ In [("player_name", VStr "Stone"); ("swings", VNone);
         ("avg_bat_speed", VFloat (Fin 70)); ("avg_swing_length", VFloat (Fin 0));
         ("bat_speed", VFloat (Fin 70)); ("swing_length", VFloat (Fin 0));
         ("power_plus", VFloat NaN)]
        (rows (process_data ascii_lower parse_nothing two_player_table))
  /\ exists r,
      In r (rows two_player_table)
      /\ [("player_name", VStr "Stone"); ("swings", VNone);
          ("avg_bat_speed", VFloat (Fin 70)); ("avg_swing_length", VFloat (Fin 0));
          ("bat_speed", VFloat (Fin 70)); ("swing_length", VFloat (Fin 0));
          ("power_plus", VFloat NaN)]
         = enrich_row parse_nothing
                      (metrics parse_nothing "avg_bat_speed" "avg_swing_length"
                               two_player_table)
                      "avg_bat_speed" "avg_swing_length" r.
Proof.
  split; [reflexivity|]. split; [reflexivity|].
  assert (I : In [("player_name", VStr "Stone"); ("swings", VNone);
         ("avg_bat_speed", VFloat (Fin 70)); ("avg_swing_length", VFloat (Fin 0));
         ("bat_speed", VFloat (Fin 70)); ("swing_length", VFloat (Fin 0));
         ("power_plus", VFloat NaN)]
        (rows (process_data ascii_lower parse_nothing two_player_table)))
    by (vm_compute; right; left; reflexivity).
  split; [exact I|].
  destruct (power_plus_null_iff ascii_lower parse_nothing (fun s _ => eq_refl)
              two_player_table
              "avg_bat_speed" "avg_swing_length" eq_refl eq_refl _ I)
    as (r & Ir & E & _).
  exists r. split; [exact Ir | exact E].
Defined.

(** ** Cache store *)

Lemma load_cached_data_some (w : World) (d : Dataset) :
  load_cached_data w = Some d <->
  exists ts, cache_file w = Some (Parsed (Some ts) (Some d))
             /\ (clock w - ts < CACHE_DURATION)%Z.
Proof.
  unfold load_cached_data, try_except. split.
  - destruct (cache_file w) as [[|[ts|] data]|]; try discriminate.
    destruct (clock w - ts <? CACHE_DURATION)%Z eqn:F; [|discriminate].
    destruct data as [d'|]; [|discriminate].
    intros E. injection E as ->. exists ts. split; [reflexivity|].
    apply Z.ltb_lt. exact F.
  - intros (ts & -> & F). apply Z.ltb_lt in F. rewrite F. reflexivity.
Qed.

Lemma load_cached_data_stale (w : World) (ts : Z) (data : option Dataset) :
  cache_file w = Some (Parsed (Some ts) data) ->
  (CACHE_DURATION <= clock w - ts)%Z ->
  load_cached_data w = None.
Proof.
  intros E S. unfold load_cached_data. rewrite E.
  apply Z.ltb_ge in S. rewrite S. reflexivity.
Qed.

(** C8: [load_cached_data] returns the persisted dataset if and only if the
    cache file exists, parses to a timestamp and a dataset, and the clock
    minus the timestamp is strictly below the six hours of [CACHE_DURATION];
    a missing file, a file that does not parse, an entry exactly as old as
    the duration and an entry one second older all give nothing. *)
Theorem load_cached_data_fresh_iff :
  forall w : World,
    (forall d, load_cached_data w = Some d <->
               exists ts, cache_file w = Some (Parsed (Some ts) (Some d))
                          /\ (clock w - ts < CACHE_DURATION)%Z)
    /\ (cache_file w = None -> load_cached_data w = None)
    /\ (cache_file w = Some Garbage -> load_cached_data w = None)
    /\ (forall data, cache_file w = Some (Parsed None data) ->
                     load_cached_data w = None)
    /\ (forall ts, cache_file w = Some (Parsed (Some ts) None) ->
                   load_cached_data w = None)
    /\ (forall ts data, cache_file w = Some (Parsed (Some ts) data) ->
                        (clock w - ts = CACHE_DURATION)%Z ->
                        load_cached_data w = None)
    /\ (forall ts data, cache_file w = Some (Parsed (Some ts) data) ->
                        (clock w - ts = CACHE_DURATION + 1000000)%Z ->
                        load_cached_data w = None).
Proof.
  intros w. split; [intros d; apply load_cached_data_some|].
  repeat split.
  - intros E. unfold load_cached_data. rewrite E. reflexivity.
  - intros E. unfold load_cached_data. rewrite E. reflexivity.
  - intros data E. unfold load_cached_data. rewrite E. reflexivity.
  - intros ts E. unfold load_cached_data. rewrite E.
    destruct (clock w - ts <? CACHE_DURATION)%Z; reflexivity.
  - intros ts data E A. apply (load_cached_data_stale w ts data E). lia.
  - intros ts data E A. apply (load_cached_data_stale w ts data E). lia.
Qed.

Lemma load_after_save (w : World) (d : Dataset) (dt : Z) :
  (dt < CACHE_DURATION)%Z ->
  load_cached_data (later dt (save_to_cache d w)) = Some d.
Proof.
  intros F. apply load_cached_data_some. exists (clock w). split.
  - reflexivity.
  - simpl. lia.
Qed.

(** X1: a dataset saved by [save_to_cache] is what [load_cached_data]
    returns for as long as less than [CACHE_DURATION] has passed, and
    nothing from then on; a second save replaces the first. *)
Theorem save_then_load :
  forall (w : World) (d : Dataset) (dt : Z),
    ((dt < CACHE_DURATION)%Z ->
     load_cached_data (later dt (save_to_cache d w)) = Some d)
    /\ ((CACHE_DURATION <= dt)%Z ->
        load_cached_data (later dt (save_to_cache d w)) = None)
    /\ (forall d2 dt2, (dt2 < CACHE_DURATION)%Z ->
          load_cached_data
            (later dt2 (save_to_cache d2 (later dt (save_to_cache d w))))
          = Some d2).
Proof.
  intros w d dt. split; [|split].
  - apply load_after_save.
  - intros S. apply (load_cached_data_stale _ (clock w) (Some d)).
    + reflexivity.
    + simpl. lia.
  - intros d2 dt2 F. apply load_after_save. exact F.
Qed.

Lemma serves_cache_iff (w : World) :
  serves_cache w = true <->
  exists ts p d, cache_file w = Some (Parsed (Some ts) (Some (p :: d)))
                 /\ (clock w - ts < CACHE_DURATION)%Z.
Proof.
  unfold serves_cache. split.
  - destruct (load_cached_data w) as [[|p d]|] eqn:L; try discriminate.
    intros _. apply load_cached_data_some in L. destruct L as (ts & E & F).
    exists ts, p, d. auto.
  - intros (ts & p & d & E & F).
    assert (L : load_cached_data w = Some (p :: d)).
    { apply load_cached_data_some. exists ts. auto. }
    rewrite L. reflexivity.
Qed.

(** ** Refresh orchestrator *)

Section OrchestratorFacts.

Variable lower : string -> string.
Variable parse_numeric : string -> pyfloat.

(** After a failed fetch the answer is whatever [load_cached_data] gives
    at that time, the freshness test included. *)
Lemma fetch_fresh_failure (w : World) :
  fetch_fails w ->
  fetch_fresh lower parse_numeric w
  = (cached_or (load_cached_data (snd (fetch_baseball_savant_data w)))
               NoDataAvailable,
     snd (fetch_baseball_savant_data w)).
Proof.
  intros [E | (df & E & M)]; unfold fetch_fresh; simpl; rewrite E.
  - reflexivity.
  - rewrite M. reflexivity.
Qed.

Lemma fetch_fresh_success (w : World) (df : DataFrame) :
  source w = Some df -> df_empty df = false ->
  fetch_fresh lower parse_numeric w
  = (Records (rows (replace_nan (process_data lower parse_numeric df))),
     save_to_cache (rows (replace_nan (process_data lower parse_numeric df)))
                   (later (fetch_latency w) w)).
Proof.
  intros E N. unfold fetch_fresh, fetch_baseball_savant_data, later.
  pattern (source w) at 1. rewrite E. rewrite N. reflexivity.
Qed.

Lemma get_data_fetches (force_refresh : bool) (w : World) :
  force_refresh = true \/ serves_cache w = false ->
  get_data lower parse_numeric force_refresh w = fetch_fresh lower parse_numeric w.
Proof.
  unfold get_data, serves_cache. intros [-> | C]; [reflexivity|].
  destruct (negb force_refresh); [|reflexivity].
  destruct (load_cached_data w) as [[|p d]|]; try reflexivity. discriminate C.
Qed.

(** With no cache file a failed fetch ends in the error. *)
Lemma get_data_no_entry (force_refresh : bool) (w : World) :
  cache_file w = None -> fetch_fails w ->
  fst (get_data lower parse_numeric force_refresh w) = NoDataAvailable.
Proof.
  intros E F. unfold get_data.
  assert (L : load_cached_data w = None)
    by (unfold load_cached_data; rewrite E; reflexivity).
  rewrite L.
  assert (R : fst (fetch_fresh lower parse_numeric w) = NoDataAvailable).
  { rewrite fetch_fresh_failure by exact F. simpl.
    unfold load_cached_data. simpl. rewrite E. reflexivity. }
  destruct (negb force_refresh); exact R.
Qed.

(** A forced refresh whose fetch fails falls back on an entry that is
    still fresh when the fetch returns. *)
Lemma get_data_forced_fresh_fallback (w : World) (ts : Z) (p : dict) (d : Dataset) :
  cache_file w = Some (Parsed (Some ts) (Some (p :: d))) ->
  (clock w + fetch_latency w - ts < CACHE_DURATION)%Z ->
  fetch_fails w ->
  fst (get_data lower parse_numeric true w) = Records (p :: d).
Proof.
  intros E A F. unfold get_data. simpl.
  rewrite fetch_fresh_failure by exact F. simpl.
  unfold load_cached_data. simpl. rewrite E.
  apply Z.ltb_lt in A. rewrite A. reflexivity.
Qed.

Lemma get_data_no_data (force_refresh : bool) (w : World) :
  fetch_fails w ->
  force_refresh = true \/ serves_cache w = false ->
  serves_cache (later (fetch_latency w) w) = false ->
  get_data lower parse_numeric force_refresh w
  = (NoDataAvailable, later (fetch_latency w) w).
Proof.
  intros F C C'. rewrite (get_data_fetches force_refresh w C).
  rewrite (fetch_fresh_failure w F).
  change (snd (fetch_baseball_savant_data w)) with (later (fetch_latency w) w).
  unfold serves_cache in C'.
  destruct (load_cached_data (later (fetch_latency w) w)) as [[|p d]|];
    try reflexivity. discriminate C'.
Qed.

(** C1, what the code does against it: when the fetch fails or yields an
    empty table and the entry on disk is as old as [CACHE_DURATION] or
    older, [get_data], forced or not, returns the error
    "No data available" although the entry exists; the stale dataset is
    not returned. *)
Theorem get_data_stale_entry_gives_error :
  forall (force_refresh : bool) (w : World) (ts : Z) (d : Dataset),
    cache_file w = Some (Parsed (Some ts) (Some d)) ->
    (CACHE_DURATION <= clock w - ts)%Z ->
    (0 <= fetch_latency w)%Z ->
    fetch_fails w ->
    fst (get_data lower parse_numeric force_refresh w) = NoDataAvailable.
Proof.
  intros force_refresh w ts d E A L F. unfold get_data.
  rewrite (load_cached_data_stale w ts (Some d) E A).
  assert (R : fst (fetch_fresh lower parse_numeric w) = NoDataAvailable).
  { rewrite fetch_fresh_failure by exact F. simpl.
    rewrite (load_cached_data_stale _ ts (Some d)); [reflexivity|exact E|].
    simpl. lia. }
  destruct (negb force_refresh); exact R.
Qed.

(** X2: without [force_refresh], a cache entry that is fresh and not empty
    is the answer whatever the source would return, and the world is left
    as it was: nothing is fetched and nothing is written. *)
Theorem get_data_serves_fresh_cache :
  forall (w : World) (ts : Z) (p : dict) (d : Dataset),
    cache_file w = Some (Parsed (Some ts) (Some (p :: d))) ->
    (clock w - ts < CACHE_DURATION)%Z ->
    get_data lower parse_numeric false w = (Records (p :: d), w).
Proof.
  intros w ts p d E F. unfold get_data. simpl.
  assert (L : load_cached_data w = Some (p :: d)).
  { apply load_cached_data_some. exists ts. auto. }
  rewrite L. reflexivity.
Qed.

(** X3: when [get_data] fetches (a forced refresh, or no cache entry that
    is fresh and not empty) and the source answers with a table that is not
    empty, the answer is the processed table, the cache file holds exactly
    this answer stamped with the time the fetch returned, and until
    [CACHE_DURATION] has passed a call without [force_refresh] gives the
    same answer again (provided it is not empty) without touching the
    world. *)
Theorem get_data_refresh_then_cached :
  forall (force_refresh : bool) (w : World) (df : DataFrame),
    source w = Some df ->
    df_empty df = false ->
    force_refresh = true \/ serves_cache w = false ->
    let data := rows (replace_nan (process_data lower parse_numeric df)) in
    let w' := snd (get_data lower parse_numeric force_refresh w) in
    fst (get_data lower parse_numeric force_refresh w) = Records data
    /\ cache_file w'
       = Some (Parsed (Some (clock w + fetch_latency w)%Z) (Some data))
    /\ clock w' = (clock w + fetch_latency w)%Z
    /\ (forall dt, (dt < CACHE_DURATION)%Z ->
                   load_cached_data (later dt w') = Some data)
    /\ (data <> [] ->
        forall dt, (dt < CACHE_DURATION)%Z ->
                   get_data lower parse_numeric false (later dt w')
                   = (Records data, later dt w')).
Proof.
  intros force_refresh w df E N C. cbv zeta.
  rewrite (get_data_fetches force_refresh w C).
  rewrite (fetch_fresh_success w df E N).
  generalize (rows (replace_nan (process_data lower parse_numeric df))).
  intros data. simpl fst. simpl snd.
  split; [reflexivity|]. split; [reflexivity|]. split; [reflexivity|].
  split.
  - intros dt F. apply load_after_save. exact F.
  - intros NE dt F. unfold get_data. simpl negb. cbv iota.
    rewrite load_after_save by exact F.
    destruct data as [|p d]; [contradiction|]. reflexivity.
Qed.

(** X4: when the fetch fails or yields an empty table, [get_data] writes
    nothing: the cache file is the one it found, and the answer is the
    error or the dataset of an entry that is on disk, not empty, and fresh
    when it is read. *)
Theorem get_data_failure_keeps_cache :
  forall (force_refresh : bool) (w : World),
    fetch_fails w ->
    cache_file (snd (get_data lower parse_numeric force_refresh w)) = cache_file w
    /\ (fst (get_data lower parse_numeric force_refresh w) = NoDataAvailable
        \/ exists ts p d,
            cache_file w = Some (Parsed (Some ts) (Some (p :: d)))
            /\ fst (get_data lower parse_numeric force_refresh w) = Records (p :: d)
            /\ ((clock w - ts < CACHE_DURATION)%Z
                \/ (clock w + fetch_latency w - ts < CACHE_DURATION)%Z)).
Proof.
  intros force_refresh w F.
  assert (R : cache_file (snd (fetch_fresh lower parse_numeric w)) = cache_file w
              /\ (fst (fetch_fresh lower parse_numeric w) = NoDataAvailable
                  \/ exists ts p d,
                      cache_file w = Some (Parsed (Some ts) (Some (p :: d)))
                      /\ fst (fetch_fresh lower parse_numeric w) = Records (p :: d)
                      /\ ((clock w - ts < CACHE_DURATION)%Z
                          \/ (clock w + fetch_latency w - ts < CACHE_DURATION)%Z))).
  { rewrite (fetch_fresh_failure w F). cbn [fst snd].
    split; [reflexivity|].
    destruct (load_cached_data (snd (fetch_baseball_savant_data w)))
      as [[|p d]|] eqn:L; cbn [cached_or]; auto.
    apply load_cached_data_some in L. destruct L as (ts & E & A).
    right. exists ts, p, d. simpl in E, A. auto. }
  unfold get_data. destruct (negb force_refresh); [|exact R].
  destruct (load_cached_data w) as [[|p d]|] eqn:L; try exact R.
  apply load_cached_data_some in L. destruct L as (ts & E & A).
  simpl. split; [reflexivity|]. right. exists ts, p, d. auto.
Qed.

(** X5: when [get_data] fetches a table that is not empty but has no
    bat-speed column or no swing-length column, it answers with the empty
    dataset and overwrites the cache file with it, so the entry that was on
    disk is lost and the next call fetches again. *)
Theorem get_data_unresolved_overwrites_cache :
  forall (force_refresh : bool) (w : World) (df : DataFrame),
    source w = Some df ->
    df_empty df = false ->
    force_refresh = true \/ serves_cache w = false ->
    find_speed_col lower (columns df) = None
    \/ find_length_col lower (columns df) = None ->
    fst (get_data lower parse_numeric force_refresh w) = Records []
    /\ cache_file (snd (get_data lower parse_numeric force_refresh w))
       = Some (Parsed (Some (clock w + fetch_latency w)%Z) (Some []))
    /\ forall dt,
        serves_cache (later dt (snd (get_data lower parse_numeric force_refresh w)))
        = false.
Proof.
  intros force_refresh w df E N C U.
  rewrite (get_data_fetches force_refresh w C).
  rewrite (fetch_fresh_success w df E N).
  rewrite (process_data_unresolved lower parse_numeric df U). simpl.
  split; [reflexivity|]. split; [reflexivity|].
  intros dt. unfold serves_cache, load_cached_data. simpl.
  destruct (clock w + fetch_latency w + dt - (clock w + fetch_latency w)
            <? CACHE_DURATION)%Z; reflexivity.
Qed.

Lemma replace_nan_no_nan (df : DataFrame) :
  Forall (Forall (fun kv => snd kv <> VFloat NaN)) (rows (replace_nan df)).
Proof.
  unfold replace_nan. simpl. apply Forall_forall. intros r I.
  apply in_map_iff in I. destruct I as (r0 & <- & _).
  apply Forall_forall. intros kv I.
  apply in_map_iff in I. destruct I as ([k v] & <- & _). simpl.
  destruct v as [|[|n| |q]|s]; simpl; discriminate.
Qed.

(** X6: the records [get_data] answers with after a fetch hold no NaN:
    every missing value has become null. *)
Theorem get_data_fetched_records_hold_no_nan :
  forall (force_refresh : bool) (w : World) (df : DataFrame) (data : Dataset),
    source w = Some df ->
    df_empty df = false ->
    force_refresh = true \/ serves_cache w = false ->
    fst (get_data lower parse_numeric force_refresh w) = Records data ->
    forall rec k v, In rec data -> In (k, v) rec -> v <> VFloat NaN.
Proof.
  intros force_refresh w df data E N C R rec k v Ir Iv.
  rewrite (get_data_fetches force_refresh w C) in R.
  rewrite (fetch_fresh_success w df E N) in R. simpl in R.
  injection R as <-.
  pose proof (replace_nan_no_nan (process_data lower parse_numeric df)) as H.
  rewrite Forall_forall in H. specialize (H rec Ir).
  rewrite Forall_forall in H. exact (H (k, v) Iv).
Qed.

Hypothesis lower_on_ascii : forall s, is_ascii s = true -> lower s = ascii_lower s.

(** On a source whose column names are ASCII text, [get_data] is what it
    is with [ascii_lower]. *)
Lemma get_data_ascii (force_refresh : bool) (w : World) :
  (forall df, source w = Some df -> Forall (fun c => is_ascii c = true) (columns df)) ->
  get_data lower parse_numeric force_refresh w
  = get_data ascii_lower parse_numeric force_refresh w.
Proof.
  intros A.
  assert (R : fetch_fresh lower parse_numeric w = fetch_fresh ascii_lower parse_numeric w).
  { unfold fetch_fresh, fetch_baseball_savant_data.
    destruct (source w) as [df|] eqn:E; [|reflexivity].
    rewrite (process_data_ascii lower parse_numeric lower_on_ascii df (A df eq_refl)).
    reflexivity. }
  unfold get_data. rewrite R. reflexivity.
Qed.

End OrchestratorFacts.

Lemma get_data_stale_entry_gives_error_witness :
  fst (get_data ascii_lower parse_nothing false stale_world) = NoDataAvailable
  /\ fst (get_data ascii_lower parse_nothing true stale_world) = NoDataAvailable.
Proof.
  split;
    apply (get_data_stale_entry_gives_error ascii_lower parse_nothing _ stale_world 0%Z
             [[("player_name", VStr "A"); ("power_plus", VFloat (Fin 112))]]);
    try reflexivity; try (vm_compute; discriminate); left; reflexivity.
Defined.

Lemma get_data_serves_fresh_cache_witness :
  cache_file warm_world = Some (Parsed (Some 0%Z) (Some cached_players))
  /\ (clock warm_world - 0 < CACHE_DURATION)%Z
  /\ get_data ascii_lower parse_nothing false warm_world
     = (Records cached_players, warm_world).
Proof.
  split; [reflexivity|]. split; [reflexivity|].
  apply (get_data_serves_fresh_cache ascii_lower parse_nothing warm_world 0%Z);
    reflexivity.
Defined.

Lemma get_data_refresh_then_cached_witness :
  source cold_world = Some two_player_table
  /\ df_empty two_player_table = false
  /\ fst (get_data ascii_lower parse_nothing true cold_world)
     = Records (rows (replace_nan
                        (process_data ascii_lower parse_nothing two_player_table))).
Proof.
  split; [reflexivity|]. split; [reflexivity|].
  exact (proj1 (get_data_refresh_then_cached ascii_lower parse_nothing true cold_world
                  two_player_table eq_refl eq_refl (or_introl eq_refl))).
Defined.

Lemma get_data_failure_keeps_cache_witness :
  fetch_fails stale_world
  /\ cache_file (snd (get_data ascii_lower parse_nothing true stale_world))
     = cache_file stale_world.
Proof.
  assert (F : fetch_fails stale_world) by (left; reflexivity).
  split; [exact F|].
  exact (proj1 (get_data_failure_keeps_cache ascii_lower parse_nothing true
                  stale_world F)).
Defined.

Lemma get_data_unresolved_overwrites_cache_witness :
  df_empty {| columns := ["player_name"; "swings"];
              rows := [[("player_name", VStr "Judge");
                        ("swings", VFloat (Fin 400))]] |} = false
  /\ find_speed_col ascii_lower ["player_name"; "swings"] = None
  /\ load_cached_data unresolved_world = Some cached_players
  /\ fst (get_data ascii_lower parse_nothing true unresolved_world) = Records []
  /\ cache_file (snd (get_data ascii_lower parse_nothing true unresolved_world))
     = Some (Parsed (Some 3000000%Z) (Some [])).
Proof.
  split; [reflexivity|]. split; [reflexivity|]. split; [reflexivity|].
  destruct (get_data_unresolved_overwrites_cache ascii_lower parse_nothing true
              unresolved_world
              _ eq_refl eq_refl (or_introl eq_refl) (or_introl eq_refl))
    as (A & B & _).
  split; [exact A | exact B].
Defined.

Lemma get_data_fetched_records_hold_no_nan_witness :
  source cold_world = Some two_player_table
  /\ df_empty two_player_table = false
  /\ In [("player_name", VStr "Stone"); ("swings", VNone);
         ("avg_bat_speed", VFloat (Fin 70)); ("avg_swing_length", VFloat (Fin 0));
         ("bat_speed", VFloat (Fin 70)); ("swing_length", VFloat (Fin 0));
         ("power_plus", VNone)]
        (rows (replace_nan (process_data ascii_lower parse_nothing two_player_table)))
  /\ VNone <> VFloat NaN.
Proof.
  split; [reflexivity|]. split; [reflexivity|].
  assert (I : In [("player_name", VStr "Stone"); ("swings", VNone);
         ("avg_bat_speed", VFloat (Fin 70)); ("avg_swing_length", VFloat (Fin 0));
         ("bat_speed", VFloat (Fin 70)); ("swing_length", VFloat (Fin 0));
         ("power_plus", VNone)]
        (rows (replace_nan (process_data ascii_lower parse_nothing two_player_table))))
    by (vm_compute; right; left; reflexivity).
  split; [exact I|].
  apply (get_data_fetched_records_hold_no_nan ascii_lower parse_nothing true cold_world
           two_player_table
           (rows (replace_nan (process_data ascii_lower parse_nothing two_player_table)))
           eq_refl eq_refl (or_introl eq_refl) eq_refl
           _ "power_plus" VNone I).
  do 6 right. left. reflexivity.
Defined.

(** ** Routes *)

(** A comprehension whose condition raises on no record is a filter. *)
Lemma comprehension_ok (cond : dict -> result bool) (keep : dict -> bool)
      (data : list dict) :
  Forall (fun p => cond p = Ok (keep p)) data ->
  comprehension cond data = Ok (filter keep data).
Proof.
  induction 1 as [|p rest Hp _ IH]; simpl.
  - reflexivity.
  - rewrite Hp, IH. reflexivity.
Qed.

(** A comprehension whose condition raises on some record raises. *)
Lemma comprehension_raises (cond : dict -> result bool) (data : list dict)
      (p : dict) (e : exn) :
  In p data -> cond p = Raise e ->
  exists e', comprehension cond data = Raise e'.
Proof.
  induction data as [|p' rest IH]; simpl; [contradiction|].
  intros [-> | I] R.
  - rewrite R. exists e. reflexivity.
  - destruct (cond p') as [b|e0]; [|exists e0; reflexivity].
    destruct (IH I R) as (e' & ->). exists e'. reflexivity.
Qed.

Lemma comprehension_ext (c1 c2 : dict -> result bool) (data : list dict) :
  (forall p, c1 p = c2 p) -> comprehension c1 data = comprehension c2 data.
Proof.
  intros E. induction data as [|p rest IH]; simpl; [reflexivity|].
  rewrite E, IH. reflexivity.
Qed.

Lemma next_match_ext (c1 c2 : dict -> result bool) (data : list dict) :
  (forall p, c1 p = c2 p) -> next_match c1 data = next_match c2 data.
Proof.
  intros E. induction data as [|p rest IH]; simpl; [reflexivity|].
  rewrite E, IH. reflexivity.
Qed.

(** A comprehension returns a list exactly when its condition raises on no
    record, and the list is then the filter. *)
Lemma comprehension_result (cond : dict -> result bool) (data kept : list dict) :
  comprehension cond data = Ok kept <->
  Forall (fun p => exists b, cond p = Ok b) data /\ kept = filter (holds cond) data.
Proof.
  revert kept. induction data as [|p rest IH]; intros kept; simpl.
  - split.
    + intros E. injection E as <-. split; [constructor | reflexivity].
    + intros [_ ->]. reflexivity.
  - unfold holds at 1. destruct (cond p) as [b|e] eqn:C.
    + destruct (comprehension cond rest) as [kept'|e'].
      * destruct (proj1 (IH kept') eq_refl) as [F K].
        split.
        -- intros E. injection E as <-. split.
           ++ constructor; [exists b; exact C | exact F].
           ++ rewrite K. reflexivity.
        -- intros [_ ->]. rewrite K. reflexivity.
      * split; [discriminate|]. intros [F _]. inversion F; subst.
        assert (A : Raise e' = Ok (filter (holds cond) rest)).
        { apply (IH (filter (holds cond) rest)). split; [assumption | reflexivity]. }
        discriminate A.
    + split; [discriminate|]. intros [F _]. inversion F as [|? ? (b & B) ?].
      rewrite C in B. discriminate B.
Qed.

(** The exception of a comprehension is the one its condition raised on a
    record. *)
Lemma comprehension_raise_inv (cond : dict -> result bool) (data : list dict)
      (e : exn) :
  comprehension cond data = Raise e -> exists p, In p data /\ cond p = Raise e.
Proof.
  induction data as [|p rest IH]; simpl; [discriminate|].
  destruct (cond p) as [b|e0] eqn:C.
  - destruct (comprehension cond rest) as [kept|e1]; [discriminate|].
    intros E. injection E as ->. destruct (IH eq_refl) as (p' & I & R).
    exists p'. auto.
  - intros E. injection E as ->. exists p. auto.
Qed.

(** The condition of a threshold route, read on the record. *)
Lemma threshold_cond (k : string) (t : Q) (p : dict) :
  Qle_bool t 0 = false ->
  ((exists b, py_ge (dict_get_default p k (VFloat (Fin 0))) t = Ok b) <->
   number_or_missing k p)
  /\ holds (fun p => py_ge (dict_get_default p k (VFloat (Fin 0))) t) p
     = match dict_get p k with
       | Some (VFloat x) => pf_ge x t
       | _ => false
       end.
Proof.
  intros T. unfold holds, number_or_missing, dict_get_default.
  destruct (dict_get p k) as [[|x|s]|]; simpl.
  - split; [|reflexivity]. split.
    + intros (b & B). discriminate B.
    + intros [H | (x & H)]; discriminate H.
  - split; [|reflexivity]. split.
    + intros _. right. exists x. reflexivity.
    + intros _. eexists. reflexivity.
  - split; [|reflexivity]. split.
    + intros (b & B). discriminate B.
    + intros [H | (x & H)]; discriminate H.
  - split; [|exact T]. split.
    + intros _. left. reflexivity.
    + intros _. eexists. reflexivity.
Qed.

Lemma select_threshold (k : string) (t : Q) (data : Payload) (kept : list dict) :
  Qle_bool t 0 = false ->
  select (fun p => py_ge (dict_get_default p k (VFloat (Fin 0))) t) data = Ok kept <->
  exists d, data = Records d
            /\ Forall (number_or_missing k) d
            /\ kept = filter (fun p => match dict_get p k with
                                       | Some (VFloat x) => pf_ge x t
                                       | _ => false
                                       end) d.
Proof.
  intros T. destruct data as [d|]; simpl.
  - rewrite comprehension_result. split.
    + intros [F ->]. exists d. split; [reflexivity|]. split.
      * eapply Forall_impl; [|exact F]. intros p H.
        apply (threshold_cond k t p T). exact H.
      * apply filter_ext. intros p. apply (threshold_cond k t p T).
    + intros (d' & E & F & ->). injection E as <-. split.
      * eapply Forall_impl; [|exact F]. intros p H.
        apply (threshold_cond k t p T). exact H.
      * symmetry. apply filter_ext. intros p. apply (threshold_cond k t p T).
  - split; [discriminate|]. intros (d & E & _). discriminate E.
Qed.

Lemma dict_get_map_values (g : value -> value) (r : dict) (k : string) :
  dict_get (map (fun kv => (fst kv, g (snd kv))) r) k = option_map g (dict_get r k).
Proof.
  induction r as [|[k' v'] r IH]; simpl; [reflexivity|].
  destruct (String.eqb k' k); [reflexivity | exact IH].
Qed.

Lemma elite_cond_raise (p : dict) (e : exn) :
  elite_cond p = Raise e -> e = TypeError.
Proof.
  unfold elite_cond, py_ge.
  destruct (dict_get_default p "power_plus" (VFloat (Fin 0))); congruence.
Qed.

(** The elite condition on the record [get_data] makes of a kept row:
    the metric is read after NaN has become null. *)
Lemma elite_cond_replaced (parse_numeric : string -> pyfloat)
      (results : list (option pyfloat)) (speed_col length_col : string) (r : dict) :
  elite_cond
    (map (fun kv => (fst kv, if value_isna (snd kv) then VNone else snd kv))
         (enrich_row parse_numeric results speed_col length_col r))
  = match row_metric parse_numeric speed_col length_col r with
    | Some x => if isna (Some x) then Raise TypeError else Ok (pf_ge x 110)
    | None => Raise TypeError
    end.
Proof.
  unfold elite_cond, dict_get_default.
  rewrite (dict_get_map_values (fun v => if value_isna v then VNone else v)).
  rewrite enrich_row_cell. cbn [option_map]. rewrite result_cell_isna.
  destruct (row_metric parse_numeric speed_col length_col r) as [x|].
  - rewrite result_cell_float. destruct x; reflexivity.
  - reflexivity.
Qed.

Section RouteFacts.

Variable lower : string -> string.
Variable upper : string -> string.
Variable parse_numeric : string -> pyfloat.

Lemma fst_get_elite_players (w : World) :
  fst (get_elite_players lower parse_numeric w)
  = select elite_cond (fst (get_data lower parse_numeric false w)).
Proof.
  unfold get_elite_players. destruct (get_data lower parse_numeric false w).
  reflexivity.
Qed.

Lemma fst_get_qualified_players (w : World) :
  fst (get_qualified_players lower parse_numeric w)
  = select qualified_cond (fst (get_data lower parse_numeric false w)).
Proof.
  unfold get_qualified_players. destruct (get_data lower parse_numeric false w).
  reflexivity.
Qed.

Lemma fst_get_team_players (team_abbrev : string) (w : World) :
  fst (get_team_players lower upper parse_numeric team_abbrev w)
  = select (team_cond upper team_abbrev) (fst (get_data lower parse_numeric false w)).
Proof.
  unfold get_team_players. destruct (get_data lower parse_numeric false w).
  reflexivity.
Qed.

Lemma fst_get_player (player_name : string) (w : World) :
  fst (get_player lower parse_numeric player_name w)
  = lookup_player lower player_name (fst (get_data lower parse_numeric false w)).
Proof.
  unfold get_player. destruct (get_data lower parse_numeric false w). reflexivity.
Qed.

(** X13: the elite route and the qualified route return a list exactly
    when [get_data] answered with records whose field ([power_plus],
    [swings]) is a number or is missing in every record; the list is then
    the records whose field is a number at or above the threshold (110,
    300), in the order of the dataset.  A record without the field is left
    out. *)
Theorem threshold_routes_filter :
  forall (w : World) (kept : list dict),
    (fst (get_elite_players lower parse_numeric w) = Ok kept <->
     exists d, fst (get_data lower parse_numeric false w) = Records d
               /\ Forall (number_or_missing "power_plus") d
               /\ kept = filter (fun p => match dict_get p "power_plus" with
                                          | Some (VFloat x) => pf_ge x 110
                                          | _ => false
                                          end) d)
    /\ (fst (get_qualified_players lower parse_numeric w) = Ok kept <->
        exists d, fst (get_data lower parse_numeric false w) = Records d
                  /\ Forall (number_or_missing "swings") d
                  /\ kept = filter (fun p => match dict_get p "swings" with
                                             | Some (VFloat x) => pf_ge x 300
                                             | _ => false
                                             end) d).
Proof.
  intros w kept. split.
  - rewrite fst_get_elite_players. apply (select_threshold "power_plus" 110).
    reflexivity.
  - rewrite fst_get_qualified_players. apply (select_threshold "swings" 300).
    reflexivity.
Qed.

(** X14: when the elite route returns a list, the records in it are exactly
    the records of the dataset whose [power_plus] is graded "Elite" by
    [get_grade]. *)
Theorem elite_route_is_elite_grade :
  forall (w : World) (kept : list dict),
    fst (get_elite_players lower parse_numeric w) = Ok kept ->
    exists d,
      fst (get_data lower parse_numeric false w) = Records d
      /\ forall p, In p kept <->
                   In p d /\ exists x, dict_get p "power_plus" = Some (VFloat x)
                                       /\ get_grade (Some x) = "Elite".
Proof.
  intros w kept E. rewrite fst_get_elite_players in E.
  apply (select_threshold "power_plus" 110) in E; [|reflexivity].
  destruct E as (d & R & _ & ->). exists d. split; [exact R|].
  intros p. rewrite filter_In. split.
  - intros [I H]. split; [exact I|].
    destruct (dict_get p "power_plus") as [[|x|s]|]; try discriminate.
    exists x. split; [reflexivity|]. apply get_grade_elite_iff. exact H.
  - intros [I (x & -> & G)]. split; [exact I|].
    apply get_grade_elite_iff. exact G.
Qed.

(** X18: when the fetch fails and no cache entry is fresh and not empty,
    neither before nor after the fetch, the route of all players answers
    with the error dictionary, the summary route answers with its 500, and
    the elite, qualified, team and player routes raise [AttributeError]:
    they iterate the error dictionary as if it were the list of records. *)
Theorem routes_without_data :
  forall (S : Type) (aggregate : Dataset -> Z -> S) (w : World) (query : string),
    fetch_fails w ->
    serves_cache w = false ->
    serves_cache (later (fetch_latency w) w) = false ->
    fst (get_all_players lower parse_numeric w) = NoDataAvailable
    /\ fst (get_summary lower parse_numeric S aggregate w) = SummaryNoData
    /\ fst (get_elite_players lower parse_numeric w) = Raise AttributeError
    /\ fst (get_qualified_players lower parse_numeric w) = Raise AttributeError
    /\ fst (get_team_players lower upper parse_numeric query w) = Raise AttributeError
    /\ fst (get_player lower parse_numeric query w) = Raise AttributeError.
Proof.
  intros S aggregate w query F C C'.
  pose proof (get_data_no_data lower parse_numeric false w F (or_intror C) C') as G.
  unfold get_all_players, get_summary, get_elite_players, get_qualified_players,
    get_team_players, get_player.
  rewrite G. repeat split; reflexivity.
Qed.

(** X19: [refresh_data] always reports the status "success" and the time
    the fetch returned.  Its count is the number of records of the
    processed table when the source answers with a table that is not empty,
    and 1, the length of the error dictionary, when the fetch fails and no
    cache entry is fresh and not empty at that time. *)
Theorem refresh_data_report :
  forall w : World,
    status (fst (refresh_data lower parse_numeric w)) = "success"
    /\ timestamp (fst (refresh_data lower parse_numeric w))
       = (clock w + fetch_latency w)%Z
    /\ (forall df, source w = Some df -> df_empty df = false ->
                   players_count (fst (refresh_data lower parse_numeric w))
                   = List.length (rows (process_data lower parse_numeric df)))
    /\ (fetch_fails w -> serves_cache (later (fetch_latency w) w) = false ->
        players_count (fst (refresh_data lower parse_numeric w)) = 1%nat).
Proof.
  intros w. unfold refresh_data.
  assert (T : clock (snd (get_data lower parse_numeric true w))
              = (clock w + fetch_latency w)%Z).
  { unfold get_data, fetch_fresh. simpl.
    destruct (source w) as [df|]; [|reflexivity].
    destruct (df_empty df); reflexivity. }
  split; [|split; [|split]].
  - destruct (get_data lower parse_numeric true w). reflexivity.
  - destruct (get_data lower parse_numeric true w). exact T.
  - intros df E N.
    rewrite (get_data_fetches lower parse_numeric true w (or_introl eq_refl)).
    rewrite (fetch_fresh_success lower parse_numeric w df E N). simpl.
    apply length_map.
  - intros F C'.
    rewrite (get_data_no_data lower parse_numeric true w F (or_introl eq_refl) C').
    reflexivity.
Qed.

Hypothesis lower_on_ascii : forall s, is_ascii s = true -> lower s = ascii_lower s.

(** C7, what the code does against it: on [cold_world] the orchestrator
    returns a dataset whose second record has a null [power_plus] and a null
    [swings]; the elite route and the qualified route raise [TypeError] on
    it instead of returning the records at or above their thresholds. *)
Theorem routes_raise_on_null :
  fst (get_data lower parse_numeric false cold_world)
  = Records
      [ [("player_name", VStr "Judge"); ("swings", VFloat (Fin 400));
         ("avg_bat_speed", VFloat (Fin 77)); ("avg_swing_length", VFloat (Fin 7));
         ("bat_speed", VFloat (Fin 77)); ("swing_length", VFloat (Fin 7));
         ("power_plus", VFloat (Fin (223 # 2)))];
        [("player_name", VStr "Stone"); ("swings", VNone);
         ("avg_bat_speed", VFloat (Fin 70)); ("avg_swing_length", VFloat (Fin 0));
         ("bat_speed", VFloat (Fin 70)); ("swing_length", VFloat (Fin 0));
         ("power_plus", VNone)] ]
  /\ fst (get_elite_players lower parse_numeric cold_world) = Raise TypeError
  /\ fst (get_qualified_players lower parse_numeric cold_world) = Raise TypeError.
Proof.
  assert (G : get_data lower parse_numeric false cold_world
              = get_data ascii_lower parse_numeric false cold_world).
  { apply (get_data_ascii lower parse_numeric lower_on_ascii).
    intros df E. injection E as <-. repeat constructor. }
  unfold get_elite_players, get_qualified_players. rewrite G.
  repeat split; vm_compute; reflexivity.
Qed.

(** X20: when [get_data] fetches a table whose two columns resolve, the
    elite route raises [TypeError] exactly when some source row with both
    cells present gets a metric that is null or NaN (a swing length of
    zero, a cell that reads as no number, or two infinite cells); with no
    such row it returns a list. *)
Theorem elite_route_after_fetch :
  forall (w : World) (df : DataFrame) (speed_col length_col : string),
    source w = Some df ->
    df_empty df = false ->
    serves_cache w = false ->
    find_speed_col lower (columns df) = Some speed_col ->
    find_length_col lower (columns df) = Some length_col ->
    (fst (get_elite_players lower parse_numeric w) = Raise TypeError <->
     exists r, In r (rows df)
               /\ complete_row speed_col length_col r = true
               /\ isna (calculate_power_plus
                          (Some (numeric_of parse_numeric (row_get r speed_col)))
                          (Some (numeric_of parse_numeric (row_get r length_col))))
                  = true)
    /\ ((exists kept, fst (get_elite_players lower parse_numeric w) = Ok kept)
        \/ fst (get_elite_players lower parse_numeric w) = Raise TypeError).
Proof.
  intros w df speed_col length_col E N C Es El.
  rewrite fst_get_elite_players.
  rewrite (get_data_fetches lower parse_numeric false w (or_intror C)).
  rewrite (fetch_fresh_success lower parse_numeric w df E N). cbn [fst select].
  unfold replace_nan. cbn [rows].
  rewrite (process_data_rows lower parse_numeric lower_on_ascii
             df speed_col length_col Es El).
  set (M := metrics parse_numeric speed_col length_col df).
  set (data := map _ (map _ _)).
  assert (R : forall e, comprehension elite_cond data = Raise e -> e = TypeError).
  { intros e H. apply comprehension_raise_inv in H. destruct H as (p & _ & H).
    apply (elite_cond_raise p e H). }
  assert (X : forall r,
             elite_cond
               (map (fun kv => (fst kv, if value_isna (snd kv) then VNone else snd kv))
                    (enrich_row parse_numeric M speed_col length_col r))
             = match calculate_power_plus
                       (Some (numeric_of parse_numeric (row_get r speed_col)))
                       (Some (numeric_of parse_numeric (row_get r length_col))) with
               | Some x => if isna (Some x) then Raise TypeError else Ok (pf_ge x 110)
               | None => Raise TypeError
               end).
  { intros r. rewrite elite_cond_replaced.
    rewrite (row_metric_inputs lower parse_numeric lower_on_ascii
               (columns df) speed_col length_col r El).
    reflexivity. }
  split.
  - split.
    + intros H. apply comprehension_raise_inv in H. destruct H as (p & I & H).
      unfold data in I. apply in_map_iff in I. destruct I as (p0 & <- & I).
      apply in_map_iff in I. destruct I as (r & <- & I).
      apply filter_In in I. destruct I as [I K].
      exists r. split; [exact I|]. split; [exact K|].
      rewrite X in H.
      destruct (calculate_power_plus _ _) as [x|]; [|reflexivity].
      destruct (isna (Some x)); [reflexivity | discriminate H].
    + intros (r & I & K & Hm).
      assert (Ip : In (map (fun kv => (fst kv, if value_isna (snd kv)
                                               then VNone else snd kv))
                           (enrich_row parse_numeric M speed_col length_col r))
                      data).
      { unfold data. apply in_map, in_map, filter_In. auto. }
      assert (Hp : elite_cond
                     (map (fun kv => (fst kv, if value_isna (snd kv)
                                              then VNone else snd kv))
                          (enrich_row parse_numeric M speed_col length_col r))
                   = Raise TypeError).
      { rewrite X.
        destruct (calculate_power_plus _ _) as [x|]; [|reflexivity].
        rewrite Hm. reflexivity. }
      destruct (comprehension_raises elite_cond data _ _ Ip Hp) as (e' & H).
      rewrite H. f_equal. apply R. exact H.
  - destruct (comprehension elite_cond data) as [kept|e] eqn:H.
    + left. exists kept. reflexivity.
    + right. f_equal. apply R. reflexivity.
Qed.

End RouteFacts.

Lemma routes_raise_on_null_witness :
  (forall s, is_ascii s = true -> ascii_lower s = ascii_lower s)
  /\ fst (get_elite_players ascii_lower parse_nothing cold_world) = Raise TypeError
  /\ fst (get_qualified_players ascii_lower parse_nothing cold_world)
     = Raise TypeError.
Proof.
  split; [intros s _; reflexivity|].
  exact (proj2 (routes_raise_on_null ascii_lower parse_nothing (fun s _ => eq_refl))).
Defined.

Lemma elite_route_is_elite_grade_witness :
  fst (get_elite_players ascii_lower parse_nothing warm_world)
  = Ok [[("player_name", VStr "Aaron Judge"); ("team", VStr "NYY");
         ("swings", VFloat (Fin 400)); ("power_plus", VFloat (Fin (1115 # 10)))]]
  /\ exists d, fst (get_data ascii_lower parse_nothing false warm_world) = Records d.
Proof.
  assert (E : fst (get_elite_players ascii_lower parse_nothing warm_world)
  = Ok [[("player_name", VStr "Aaron Judge"); ("team", VStr "NYY");
         ("swings", VFloat (Fin 400)); ("power_plus", VFloat (Fin (1115 # 10)))]])
    by reflexivity.
  split; [exact E|].
  destruct (elite_route_is_elite_grade ascii_lower parse_nothing warm_world _ E)
    as (d & R & _).
  exists d. exact R.
Defined.

Lemma routes_without_data_witness :
  fetch_fails stale_world
  /\ serves_cache stale_world = false
  /\ serves_cache (later (fetch_latency stale_world) stale_world) = false
  /\ fst (get_elite_players ascii_lower parse_nothing stale_world)
     = Raise AttributeError.
Proof.
  assert (F : fetch_fails stale_world) by (left; reflexivity).
  split; [exact F|]. split; [reflexivity|]. split; [reflexivity|].
  apply (routes_without_data ascii_lower ascii_upper parse_nothing nat count_records
           stale_world EmptyString F eq_refl eq_refl).
Defined.

Lemma elite_route_after_fetch_witness :
  source cold_world = Some two_player_table
  /\ df_empty two_player_table = false
  /\ serves_cache cold_world = false
  /\ find_speed_col ascii_lower (columns two_player_table) = Some "avg_bat_speed"
  /\ find_length_col ascii_lower (columns two_player_table) = Some "avg_swing_length"
  /\ ((exists kept, fst (get_elite_players ascii_lower parse_nothing cold_world)
                    = Ok kept)
      \/ fst (get_elite_players ascii_lower parse_nothing cold_world)
         = Raise TypeError).
Proof.
  repeat (split; [reflexivity|]).
  apply (elite_route_after_fetch ascii_lower parse_nothing (fun s _ => eq_refl)
           cold_world two_player_table
           "avg_bat_speed" "avg_swing_length"); reflexivity.
Defined.

(** ** Team route and player lookup *)

Lemma next_match_some (cond : dict -> result bool) (data : list dict) (p : dict) :
  next_match cond data = Ok (Some p) <->
  exists before after,
    data = (before ++ p :: after)%list
    /\ cond p = Ok true
    /\ Forall (fun p' => cond p' = Ok false) before.
Proof.
  induction data as [|p0 rest IH]; simpl.
  - split; [discriminate|]. intros (before & after & E & _).
    destruct before; discriminate E.
  - destruct (cond p0) as [[|]|e] eqn:C.
    + split.
      * intros E. injection E as <-. exists [], rest. auto.
      * intros (before & after & E & T & F). destruct before as [|b before].
        -- injection E as -> _. reflexivity.
        -- injection E as <- _. inversion F; subst. congruence.
    + rewrite IH. split.
      * intros (before & after & -> & T & F). exists (p0 :: before), after.
        repeat split; auto.
      * intros (before & after & E & T & F). destruct before as [|b before].
        -- injection E as -> _. congruence.
        -- injection E as <- E. inversion F; subst. exists before, after. auto.
    + split; [discriminate|].
      intros (before & after & E & T & F). destruct before as [|b before].
      * injection E as -> _. congruence.
      * injection E as <- _. inversion F; subst. congruence.
Qed.

Lemma next_match_none (cond : dict -> result bool) (data : list dict) :
  next_match cond data = Ok None <-> Forall (fun p' => cond p' = Ok false) data.
Proof.
  induction data as [|p0 rest IH]; simpl.
  - split; auto.
  - destruct (cond p0) as [[|]|e] eqn:C.
    + split; [discriminate|]. intros F. inversion F; subst. congruence.
    + rewrite IH. split.
      * intros F. constructor; assumption.
      * intros F. inversion F; assumption.
    + split; [discriminate|]. intros F. inversion F; subst. congruence.
Qed.

Lemma next_match_raise (cond : dict -> result bool) (data : list dict) (e : exn) :
  next_match cond data = Raise e <->
  exists before p after,
    data = (before ++ p :: after)%list
    /\ Forall (fun p' => cond p' = Ok false) before
    /\ cond p = Raise e.
Proof.
  induction data as [|p0 rest IH]; simpl.
  - split; [discriminate|]. intros (before & p & after & E & _).
    destruct before; discriminate E.
  - destruct (cond p0) as [[|]|e0] eqn:C.
    + split; [discriminate|].
      intros (before & p & after & E & F & R). destruct before as [|b before].
      * injection E as -> _. congruence.
      * injection E as <- _. inversion F; subst. congruence.
    + rewrite IH. split.
      * intros (before & p & after & -> & F & R).
        exists (p0 :: before), p, after. repeat split; auto.
      * intros (before & p & after & E & F & R). destruct before as [|b before].
        -- injection E as -> _. congruence.
        -- injection E as <- E. inversion F; subst.
           exists before, p, after. auto.
    + split.
      * intros E. injection E as ->. exists [], p0, rest. auto.
      * intros (before & p & after & E & F & R). destruct before as [|b before].
        -- injection E as -> _. congruence.
        -- injection E as <- _. inversion F; subst. congruence.
Qed.

Section LookupFacts.

Variable lower : string -> string.
Variable upper : string -> string.
Variable parse_numeric : string -> pyfloat.

Lemma team_cond_read (team_abbrev : string) (p : dict) :
  ((exists b, team_cond upper team_abbrev p = Ok b) <-> text_or_missing "team" p)
  /\ holds (team_cond upper team_abbrev) p
     = match dict_get_default p "team" (VStr EmptyString) with
       | VStr s => String.eqb (upper s) (upper team_abbrev)
       | _ => false
       end.
Proof.
  unfold holds, team_cond, text_or_missing, dict_get_default.
  destruct (dict_get p "team") as [[|x|s]|]; simpl; (split; [|reflexivity]).
  - split; [intros (b & B); discriminate B | intros [H | (x & H)]; discriminate H].
  - split; [intros (b & B); discriminate B | intros [H | (y & H)]; discriminate H].
  - split; [intros _; right; exists s; reflexivity | intros _; eexists; reflexivity].
  - split; [intros _; left; reflexivity | intros _; eexists; reflexivity].
Qed.

Lemma team_cond_case (f : string -> string) (team_abbrev : string) (p : dict) :
  upper (f team_abbrev) = upper team_abbrev ->
  team_cond upper (f team_abbrev) p = team_cond upper team_abbrev p.
Proof. intros E. unfold team_cond. rewrite E. reflexivity. Qed.

Lemma name_cond_case (f : string -> string) (player_name : string) (p : dict) :
  lower (f player_name) = lower player_name ->
  name_cond lower (f player_name) p = name_cond lower player_name p.
Proof. intros E. unfold name_cond. rewrite E. reflexivity. Qed.

Lemma name_cond_true (player_name : string) (p : dict) :
  name_cond lower player_name p = Ok true <->
  exists s, dict_get_default p "player_name" (VStr EmptyString) = VStr s
            /\ occurs (lower player_name) (lower s).
Proof.
  unfold name_cond.
  destruct (dict_get_default p "player_name" (VStr EmptyString)) as [|x|s].
  - split; [discriminate | intros (s & E & _); discriminate E].
  - split; [discriminate | intros (s & E & _); discriminate E].
  - split.
    + intros E. injection E as E. exists s. split; [reflexivity|].
      apply py_in_occurs. exact E.
    + intros (s' & E & O). injection E as <-.
      apply py_in_occurs in O. rewrite O. reflexivity.
Qed.

Hypothesis lower_on_ascii : forall s, is_ascii s = true -> lower s = ascii_lower s.
Hypothesis upper_on_ascii : forall s, is_ascii s = true -> upper s = ascii_upper s.

(** X15: the team route returns a list exactly when [get_data] answered
    with records whose [team] is text or is missing in every record; the
    list is then the records whose team, put in upper case, is the code put
    in upper case, in the order of the dataset.  On ASCII text the upper
    case is that of [ascii_upper]: the code "nyy" finds the team "NYY". *)
Theorem team_route_filter :
  forall (team_abbrev : string) (w : World) (kept : list dict),
    (fst (get_team_players lower upper parse_numeric team_abbrev w) = Ok kept <->
     exists d, fst (get_data lower parse_numeric false w) = Records d
               /\ Forall (text_or_missing "team") d
               /\ kept = filter (fun p =>
                                   match dict_get_default p "team" (VStr EmptyString) with
                                   | VStr s => String.eqb (upper s) (upper team_abbrev)
                                   | _ => false
                                   end) d)
    /\ (forall s, is_ascii s = true -> is_ascii team_abbrev = true ->
                  String.eqb (upper s) (upper team_abbrev)
                  = String.eqb (ascii_upper s) (ascii_upper team_abbrev))
    /\ team_cond upper "nyy" [("team", VStr "NYY")] = Ok true
    /\ team_cond upper "NYY" [("team", VStr "NYM")] = Ok false.
Proof.
  intros team_abbrev w kept. split; [|split; [|split]].
  - rewrite fst_get_team_players.
    destruct (fst (get_data lower parse_numeric false w)) as [d|]; simpl.
    + rewrite comprehension_result. split.
      * intros [F ->]. exists d. split; [reflexivity|]. split.
        -- eapply Forall_impl; [|exact F]. intros p H.
           apply (team_cond_read team_abbrev p). exact H.
        -- apply filter_ext. intros p. apply (team_cond_read team_abbrev p).
      * intros (d' & E & F & ->). injection E as <-. split.
        -- eapply Forall_impl; [|exact F]. intros p H.
           apply (team_cond_read team_abbrev p). exact H.
        -- symmetry. apply filter_ext. intros p. apply (team_cond_read team_abbrev p).
    + split; [discriminate|]. intros (d & E & _). discriminate E.
  - intros s As At. rewrite (upper_on_ascii s As), (upper_on_ascii _ At).
    reflexivity.
  - unfold team_cond. cbn [dict_get_default dict_get String.eqb Ascii.eqb Bool.eqb].
    rewrite !upper_on_ascii by reflexivity. reflexivity.
  - unfold team_cond. cbn [dict_get_default dict_get String.eqb Ascii.eqb Bool.eqb].
    rewrite !upper_on_ascii by reflexivity. reflexivity.
Qed.

(** X16: the player lookup and the team route do not depend on the letter
    case of an ASCII query: the name or the code put in upper case or in
    lower case gives the same answer and the same world. *)
Theorem lookups_ignore_query_case :
  forall (query : string) (w : World),
    is_ascii query = true ->
    get_player lower parse_numeric (upper query) w
    = get_player lower parse_numeric query w
    /\ get_player lower parse_numeric (lower query) w
       = get_player lower parse_numeric query w
    /\ get_team_players lower upper parse_numeric (upper query) w
       = get_team_players lower upper parse_numeric query w
    /\ get_team_players lower upper parse_numeric (lower query) w
       = get_team_players lower upper parse_numeric query w.
Proof.
  intros query w A. unfold get_player, get_team_players.
  destruct (get_data lower parse_numeric false w) as [[d|] w']; repeat split;
    try reflexivity; f_equal; simpl.
  - rewrite (next_match_ext (name_cond lower (upper query)) (name_cond lower query));
      [reflexivity|]. intros p. apply (name_cond_case upper).
    apply (lower_upper lower upper lower_on_ascii upper_on_ascii), A.
  - rewrite (next_match_ext (name_cond lower (lower query)) (name_cond lower query));
      [reflexivity|]. intros p. apply (name_cond_case lower).
    apply (lower_idempotent lower lower_on_ascii), A.
  - apply comprehension_ext. intros p.
    apply (team_cond_case upper).
    apply (upper_idempotent upper upper_on_ascii), A.
  - apply comprehension_ext. intros p.
    apply (team_cond_case lower).
    apply (upper_lower lower upper lower_on_ascii upper_on_ascii), A.
Qed.

(** X17: over the records [get_data] answered with, the player lookup
    answers with the first record, in the order of the dataset, whose
    [player_name] in lower case holds the asked name in lower case; it
    answers 404 when no name holds it; it raises when a record before the
    first match has a [player_name] that is null or a number.  On ASCII
    text the lower case is that of [ascii_lower]: "JUDGE" finds
    "Aaron Judge". *)
Theorem get_player_first_match :
  forall (player_name : string) (w : World) (d : Dataset),
    fst (get_data lower parse_numeric false w) = Records d ->
    (forall p, fst (get_player lower parse_numeric player_name w) = Ok (PlayerJson p) <->
               p <> []
               /\ exists before after,
                   d = (before ++ p :: after)%list
                   /\ name_cond lower player_name p = Ok true
                   /\ Forall (fun p' => name_cond lower player_name p' = Ok false)
                             before)
    /\ (Forall (fun p' => name_cond lower player_name p' = Ok false) d ->
        fst (get_player lower parse_numeric player_name w) = Ok PlayerNotFound)
    /\ (forall e, fst (get_player lower parse_numeric player_name w) = Raise e <->
                  exists before p after,
                    d = (before ++ p :: after)%list
                    /\ Forall (fun p' => name_cond lower player_name p' = Ok false)
                              before
                    /\ name_cond lower player_name p = Raise e)
    /\ (forall p, name_cond lower player_name p = Ok true <->
                  exists s, dict_get_default p "player_name" (VStr EmptyString) = VStr s
                            /\ occurs (lower player_name) (lower s))
    /\ (forall p s,
           dict_get_default p "player_name" (VStr EmptyString) = VStr s ->
           is_ascii player_name = true -> is_ascii s = true ->
           name_cond lower player_name p
           = Ok (py_in (ascii_lower player_name) (ascii_lower s)))
    /\ name_cond lower "JUDGE" [("player_name", VStr "Aaron Judge")] = Ok true.
Proof.
  intros player_name w d R. rewrite fst_get_player, R. simpl.
  assert (X : forall q p s,
             dict_get_default p "player_name" (VStr EmptyString) = VStr s ->
             is_ascii q = true -> is_ascii s = true ->
             name_cond lower q p = Ok (py_in (ascii_lower q) (ascii_lower s))).
  { intros q p s E Aq As. unfold name_cond. rewrite E.
    rewrite (lower_on_ascii q Aq), (lower_on_ascii s As). reflexivity. }
  split; [|split; [|split; [|split; [|split]]]].
  - intros p. rewrite <- next_match_some.
    destruct (next_match (name_cond lower player_name) d) as [[[|kv p']|]|e]; simpl.
    + split; [discriminate|]. intros [N E]. injection E as <-. contradiction.
    + split.
      * intros E. injection E as <-. split; [discriminate | reflexivity].
      * intros [_ E]. injection E as <-. reflexivity.
    + split; [discriminate | intros [_ E]; discriminate E].
    + split; [discriminate | intros [_ E]; discriminate E].
  - intros F. apply next_match_none in F. rewrite F. reflexivity.
  - intros e. rewrite <- next_match_raise.
    destruct (next_match (name_cond lower player_name) d) as [o|e']; simpl.
    + split; discriminate.
    + split; intros E; injection E as ->; reflexivity.
  - intros p. apply name_cond_true.
  - apply X.
  - rewrite (X "JUDGE" _ "Aaron Judge"); reflexivity.
Qed.

End LookupFacts.

Lemma team_route_filter_witness :
  (forall s, is_ascii s = true -> ascii_upper s = ascii_upper s)
  /\ fst (get_team_players ascii_lower ascii_upper parse_nothing "nyy" warm_world)
     = Ok [[("player_name", VStr "Aaron Judge"); ("team", VStr "NYY");
            ("swings", VFloat (Fin 400)); ("power_plus", VFloat (Fin (1115 # 10)))]]
  /\ team_cond ascii_upper "nyy" [("team", VStr "NYY")] = Ok true.
Proof.
  split; [intros s _; reflexivity|].
  split; [reflexivity|].
  apply (team_route_filter ascii_lower ascii_upper parse_nothing (fun s _ => eq_refl)
           "nyy" warm_world []).
Defined.

Lemma lookups_ignore_query_case_witness :
  is_ascii "Judge" = true
  /\ get_player ascii_lower parse_nothing (ascii_upper "Judge") warm_world
     = get_player ascii_lower parse_nothing "Judge" warm_world
  /\ fst (get_player ascii_lower parse_nothing "JUDGE" warm_world)
     = Ok (PlayerJson
             [("player_name", VStr "Aaron Judge"); ("team", VStr "NYY");
              ("swings", VFloat (Fin 400)); ("power_plus", VFloat (Fin (1115 # 10)))]).
Proof.
  split; [reflexivity|].
  split; [|reflexivity].
  exact (proj1 (lookups_ignore_query_case ascii_lower ascii_upper parse_nothing
                  (fun s _ => eq_refl) (fun s _ => eq_refl)
                  "Judge" warm_world eq_refl)).
Defined.

Lemma get_player_first_match_witness :
  (forall s, is_ascii s = true -> ascii_lower s = ascii_lower s)
  /\ fst (get_data ascii_lower parse_nothing false warm_world) = Records cached_players
  /\ Forall (fun p' => name_cond ascii_lower "trout" p' = Ok false) cached_players
  /\ fst (get_player ascii_lower parse_nothing "trout" warm_world) = Ok PlayerNotFound.
Proof.
  assert (F : Forall (fun p' => name_cond ascii_lower "trout" p' = Ok false)
                     cached_players) by (repeat constructor).
  split; [intros s _; reflexivity|].
  split; [reflexivity|]. split; [exact F|].
  apply (get_player_first_match ascii_lower parse_nothing (fun s _ => eq_refl)
           "trout" warm_world cached_players eq_refl).
  exact F.
Defined.

(** ** Requests served side by side *)

Lemma nth_error_middle {A : Type} (pre : list A) (x : A) (rest : list A) :
  nth_error (pre ++ x :: rest) (List.length pre) = Some x.
Proof. induction pre as [|a pre IH]; simpl; [reflexivity | exact IH]. Qed.

Lemma update_middle (pre : list Request) (x r : Request) (rest : list Request) :
  update (List.length pre) r (pre ++ x :: rest) = (pre ++ r :: rest)%list.
Proof.
  induction pre as [|a pre IH]; simpl; [reflexivity|]. rewrite IH. reflexivity.
Qed.

Section ThreadFacts.

Variable lower : string -> string.
Variable parse_numeric : string -> pyfloat.

(** One thread alone: the two parts of a request are [get_data]. *)
Lemma step_twice (w : World) :
  let '(r1, w1, k1) := step lower parse_numeric Arrived w in
  let '(r2, w2, k2) := step lower parse_numeric r1 w1 in
  r2 = Answered (fst (get_data lower parse_numeric false w))
  /\ w2 = snd (get_data lower parse_numeric false w)
  /\ (k1 + k2)%nat = (if serves_cache w then 0 else 1)%nat.
Proof.
  unfold step, get_data, serves_cache. cbn [negb].
  destruct (load_cached_data w) as [[|p d]|];
    try (destruct (fetch_fresh lower parse_numeric w) as [data w']);
    repeat split; reflexivity.
Qed.

(** The cache checks of requests that arrive together, none of which is
    served from the cache: every request goes on to the fetch and the world
    is as it was. *)
Lemma run_checks (k : nat) :
  forall (pre : list Request) (w : World) (fetches : nat),
    serves_cache w = false ->
    run lower parse_numeric (seq (List.length pre) k)
        ((pre ++ repeat Arrived k)%list, w, fetches)
    = ((pre ++ repeat Fetching k)%list, w, fetches).
Proof.
  induction k as [|k IH]; intros pre w fetches C; [reflexivity|].
  cbn [seq repeat]. unfold run. cbn [fold_left].
  unfold run_thread at 2. rewrite nth_error_middle.
  assert (S1 : step lower parse_numeric Arrived w = (Fetching, w, 0%nat)).
  { unfold step. unfold serves_cache in C.
    destruct (load_cached_data w) as [[|p d]|]; try reflexivity. discriminate C. }
  rewrite S1, update_middle, Nat.add_0_r.
  change (pre ++ Fetching :: repeat Arrived k)%list
    with (pre ++ [Fetching] ++ repeat Arrived k)%list.
  rewrite app_assoc.
  replace (Datatypes.S (List.length pre)) with (List.length (pre ++ [Fetching])%list)
    by (rewrite length_app; simpl; lia).
  fold (run lower parse_numeric (seq (List.length (pre ++ [Fetching])%list) k)
            (((pre ++ [Fetching]) ++ repeat Arrived k)%list, w, fetches)).
  rewrite (IH _ w fetches C). rewrite <- app_assoc. reflexivity.
Qed.

(** The fetches of requests that have all gone past the cache check: each
    calls the fetcher once, whatever the others have written meanwhile. *)
Lemma run_fetches (k : nat) :
  forall (pre : list Request) (w : World) (fetches : nat),
    exists (post : list Request) (w' : World),
      run lower parse_numeric (seq (List.length pre) k)
          ((pre ++ repeat Fetching k)%list, w, fetches)
      = ((pre ++ post)%list, w', (fetches + k)%nat)
      /\ List.length post = k
      /\ Forall answered post.
Proof.
  induction k as [|k IH]; intros pre w fetches.
  - exists [], w. rewrite Nat.add_0_r. repeat split. constructor.
  - cbn [seq repeat]. unfold run. cbn [fold_left].
    unfold run_thread at 2. rewrite nth_error_middle.
    unfold step. destruct (fetch_fresh lower parse_numeric w) as [data w1].
    rewrite update_middle.
    change (pre ++ Answered data :: repeat Fetching k)%list
      with (pre ++ [Answered data] ++ repeat Fetching k)%list.
    rewrite app_assoc.
    replace (Datatypes.S (List.length pre))
      with (List.length (pre ++ [Answered data])%list)
      by (rewrite length_app; simpl; lia).
    fold (run lower parse_numeric
              (seq (List.length (pre ++ [Answered data])%list) k)
              (((pre ++ [Answered data]) ++ repeat Fetching k)%list, w1,
               (fetches + 1)%nat)).
    destruct (IH (pre ++ [Answered data])%list w1 (fetches + 1)%nat)
      as (post & w' & E & L & A).
    exists (Answered data :: post), w'. rewrite E. split; [|split].
    + rewrite <- app_assoc. cbn [app].
      replace (fetches + 1 + k)%nat with (fetches + Datatypes.S k)%nat by lia.
      reflexivity.
    + simpl. rewrite L. reflexivity.
    + constructor; [exact I | exact A].
Qed.

(** C10, as amended: [get_data] takes no lock and keeps no record of a
    refresh in flight.  When [n] queries arrive together against a cache
    that is not served (stale, missing or empty), every one of them finds
    no entry to serve and calls the fetcher: [n] calls of
    [fetch_baseball_savant_data], and every query is answered from its own
    fetch; a query on its own is [get_data], which fetches once. *)
Theorem simultaneous_queries_each_fetch :
  forall (n : nat) (w : World),
    serves_cache w = false ->
    (exists (answers : list Request) (w' : World),
        run lower parse_numeric (simultaneous n) (repeat Arrived n, w, 0%nat)
        = (answers, w', n)
        /\ List.length answers = n
        /\ Forall answered answers)
    /\ run lower parse_numeric (simultaneous 1) ([Arrived], w, 0%nat)
       = ([Answered (fst (get_data lower parse_numeric false w))],
          snd (get_data lower parse_numeric false w), 1%nat).
Proof.
  intros n w C. split.
  - unfold simultaneous, run. rewrite fold_left_app.
    pose proof (run_checks n [] w 0%nat C) as E1. cbn [List.length app] in E1.
    unfold run in E1. rewrite E1.
    destruct (run_fetches n [] w 0%nat) as (post & w' & E2 & L & A).
    cbn [List.length app] in E2. unfold run in E2.
    exists post, w'. rewrite E2. auto.
  - rewrite (get_data_fetches lower parse_numeric false w (or_intror C)).
    assert (S1 : step lower parse_numeric Arrived w = (Fetching, w, 0%nat)).
    { unfold step. unfold serves_cache in C.
      destruct (load_cached_data w) as [[|p d]|]; try reflexivity. discriminate C. }
    unfold simultaneous, run. cbn [seq app fold_left].
    unfold run_thread at 2. cbn [nth_error]. rewrite S1. cbn [update].
    unfold run_thread. cbn [nth_error]. unfold step.
    destruct (fetch_fresh lower parse_numeric w) as [data w1]. reflexivity.
Qed.

End ThreadFacts.

Lemma simultaneous_queries_each_fetch_witness :
  serves_cache expired_world = false
  /\ exists (answers : list Request) (w' : World),
      run ascii_lower parse_nothing (simultaneous 3)
          (repeat Arrived 3, expired_world, 0%nat)
      = (answers, w', 3%nat)
      /\ List.length answers = 3%nat
      /\ Forall answered answers.
Proof.
  split; [reflexivity|].
  exact (proj1 (simultaneous_queries_each_fetch ascii_lower parse_nothing 3
                  expired_world eq_refl)).
Defined.

(** C10, as stated, fails: two queries that arrive together against the
    stale cache of [expired_world] both find the entry too old before
    either has written a new one, and both call the fetcher: two calls,
    not one, and neither query waits for the other nor reads the entry
    that was there.  With the source down, as in [down_world], two queries
    fetch twice even one after the other. *)
Lemma two_stale_queries_fetch_twice :
  load_cached_data expired_world = None
  /\ (exists d, cache_file expired_world = Some (Parsed (Some 0%Z) (Some d)))
  /\ snd (run ascii_lower parse_nothing (simultaneous 2)
              ([Arrived; Arrived], expired_world, 0%nat)) = 2%nat
  /\ 2%nat <> 1%nat
  /\ fst (fst (run ascii_lower parse_nothing (simultaneous 2)
                   ([Arrived; Arrived], expired_world, 0%nat)))
     = [Answered (Records (rows (replace_nan
                                   (process_data ascii_lower parse_nothing
                                                 two_player_table))));
        Answered (Records (rows (replace_nan
                                   (process_data ascii_lower parse_nothing
                                                 two_player_table))))]
  /\ clock (snd (fst (run ascii_lower parse_nothing (simultaneous 2)
                          ([Arrived; Arrived], expired_world, 0%nat))))
     = (clock expired_world + 2 * fetch_latency expired_world)%Z
  /\ snd (run ascii_lower parse_nothing (simultaneous 2)
              ([Arrived; Arrived], down_world, 0%nat)) = 2%nat
  /\ get_data ascii_lower parse_nothing false
              (snd (get_data ascii_lower parse_nothing false down_world))
     = (NoDataAvailable, later (2 * fetch_latency down_world) down_world).
Proof.
  split; [reflexivity|].
  split; [eexists; reflexivity|].
  split; [vm_compute; reflexivity|].
  split; [discriminate|].
  repeat split; vm_compute; reflexivity.
Qed.
